(** * Newsletter growth dashboard: the analytics of [dashboard.py]

    A shallow embedding of the data pipeline of [src/dashboard.py]: the two
    table normalisers [process_subscribers] and [process_posts], the dense
    daily cumulative series [daily_growth], the nearest-day overlay of posts
    ([relevant_posts], [pd.merge_asof]), the three-day spike detector
    ([pct_change], [idxmax]) and the catalyst search around the spike.

    Conventions of the embedding.
    - A timestamp is a [Z]: nanoseconds since the epoch, as pandas stores a
      [datetime64[ns]] value.  The tables start where [pd.read_csv] stops;
      [pd.to_datetime] is a parameter that may raise.  Missing timestamps
      ([NaT]) are outside the model: every row of a normalised table carries
      a proper timestamp.
    - Counts are [Z]; a table held in memory never reaches the 2^63 rows
      at which [int64] would wrap.
    - A [float64] is one of the three special values or the rational its
      bits denote.  Every operation rounds its exact result to the nearest
      value with a 53-bit significand, ties to even ([f64_round]), as
      binary64 does.  The exponent range is left out: on [int64] counts the
      quotients lie between 2^-63 and 2^63, where binary64 neither
      overflows nor leaves the normal range.
    - [sort_values] is called without [kind=], so pandas sorts with its
      default [quicksort], numpy's introsort, which is not stable.  The
      sorter is therefore a parameter [argsort] with the contract
      [argsort_spec]; [aquicksort] is numpy's routine itself.
    - The page model [Dashboard.run] ends where the results are handed to
      the drawing code: of the exceptions the script can raise it covers
      those of [pd.to_datetime].  An exception raised while drawing (a
      posts table without a [title] column, a [type] cell that is not a
      string), by a mix of time zones or by timestamps beyond the
      [datetime64[ns]] range is outside the model. *)

From Stdlib Require Import ZArith QArith Qround Qabs Qpower Lia Lqa Ascii String.
From Stdlib Require Floats.
From stdpp Require Import base decidable option list numbers sorting strings pretty gmap.

Local Open Scope Z_scope.

(** ** Time *)

Module Time.

Definition ns_per_day : Z := 86400000000000.

(** [pd.Timedelta(days=n)] *)
Definition Timedelta_days (n : Z) : Z := n * ns_per_day.

(** The calendar day of a timestamp, as a day number. *)
Definition day_of (t : Z) : Z := t `div` ns_per_day.

(** Midnight of the day of [t]: the left edge of its ['D'] bin. *)
Definition floor_D (t : Z) : Z := day_of t * ns_per_day.

(** [Series.min()] and [Series.max()] of a datetime column; [None] is the
    [NaT] pandas returns on an empty column. *)
Definition series_min (ts : list Z) : option Z :=
  match ts with
  | [] => None
  | t :: rest => Some (foldr Z.min t rest)
  end.

Definition series_max (ts : list Z) : option Z :=
  match ts with
  | [] => None
  | t :: rest => Some (foldr Z.max t rest)
  end.

End Time.

(** ** The dense daily series (dashboard.py, line 175) *)

Module Growth.
Import Time.

(** [pd.date_range(first, last, freq='D')] for two midnights. *)
Definition date_range (first last : Z) : list Z :=
  (λ k : nat, first + Z.of_nat k * ns_per_day)
    <$> seq 0 (S (Z.to_nat ((last - first) `div` ns_per_day))).

(** The rows of one daily bin: the bin labelled [d] is [[d, d + 1 day)]
    (closed and labelled on the left). *)
Definition in_bin (d t : Z) : Prop := d ≤ t < d + ns_per_day.

Definition bin_size (ts : list Z) (d : Z) : Z :=
  Z.of_nat (length (filter (in_bin d) ts)).

(** [set_index('created_at').resample('D').size()]: one row per calendar
    day from the day of the earliest timestamp to the day of the latest,
    with the number of rows of that day.  An empty table gives no bins. *)
Definition resample_D_size (ts : list Z) : list (Z * Z) :=
  match series_min ts, series_max ts with
  | Some lo, Some hi =>
      (λ d, (d, bin_size ts d)) <$> date_range (floor_D lo) (floor_D hi)
  | _, _ => []
  end.

(** [Series.cumsum()] *)
Fixpoint cumsum_from (acc : Z) (xs : list Z) : list Z :=
  match xs with
  | [] => []
  | x :: rest => (acc + x) :: cumsum_from (acc + x) rest
  end.

Definition cumsum (xs : list Z) : list Z := cumsum_from 0 xs.

(** One row of [daily_growth]; the frame has a [RangeIndex], so the label
    of a row is its position. *)
Record DailyGrowthPoint := mkPoint {
  created_at : Z;
  total_subscribers : Z
}.

(** [subs_df.set_index('created_at').resample('D').size().cumsum()
       .reset_index(name='total_subscribers')] *)
Definition daily_growth (ts : list Z) : list DailyGrowthPoint :=
  let sizes := resample_D_size ts in
  zip_with mkPoint sizes.*1 (cumsum sizes.*2).

(** The per-day counts [size()] yields before the running sum. *)
Definition new_subscribers (ts : list Z) : list Z := (resample_D_size ts).*2.

(** Vocabulary for the statements: the number of events in [[a, b)], and
    the midnight [k] days after [first]. *)
Definition count_between (ts : list Z) (a b : Z) : Z :=
  Z.of_nat (length (filter (λ t, a ≤ t < b) ts)).

Definition nth_day (first : Z) (k : nat) : Z := first + Z.of_nat k * ns_per_day.

End Growth.

(** ** Sorting a frame: [DataFrame.sort_values(by)] *)

Module Sorting.

(** [DataFrame.take(indexer)]: the rows at the given positions. *)
Definition take_rows {A} (indexer : list nat) (rows : list A) : list A :=
  omap (λ i, rows !! i) indexer.

(** [df.sort_values(by)]: pandas computes [indexer = argsort(df[by])] and
    returns [df.take(indexer)].  The code never passes [kind=], so the
    [argsort] is the default quicksort one. *)
Definition sort_values {A} (argsort : list Z → list nat)
    (by_ : A → Z) (rows : list A) : list A :=
  take_rows (argsort (by_ <$> rows)) rows.

(** What pandas promises of any sort kind: the indexer is a permutation of
    the positions and the keys it selects are in ascending order.  Nothing
    is promised about the order of equal keys unless the kind is stable. *)
Definition argsort_spec (argsort : list Z → list nat) : Prop :=
  ∀ keys : list Z,
    argsort keys ≡ₚ seq 0 (length keys) ∧
    Sorted Z.le (take_rows (argsort keys) keys).

(** [kind='stable']: the pairs (key, position) in lexicographic order, so
    that equal keys stay in input order. *)
Definition key_le (a b : Z * nat) : Prop :=
  a.1 < b.1 ∨ (a.1 = b.1 ∧ (a.2 ≤ b.2)%nat).

#[global] Instance key_le_dec : RelDecision key_le.
Proof. intros a b. unfold key_le. apply _. Defined.

Definition enumerate (keys : list Z) : list (Z * nat) :=
  zip keys (seq 0 (length keys)).

Definition argsort_stable (keys : list Z) : list nat :=
  (merge_sort key_le (enumerate keys)).*2.

(** [kind='quicksort'], the default: numpy's [aquicksort_] on the index
    array [tosort], an introsort.  Ranges with [pr - pl] above
    [SMALL_QUICKSORT] are partitioned around the median of three, smaller
    ones are sorted by insertion, and a range that used up its depth is
    sorted by [aheapsort_].  [small_quicksort] is that compile-time
    constant.  The pointers [pl], [pr], [pi], ... are positions in
    [tosort]; each loop carries fuel that its sentinels never use up. *)
Section Quicksort.
Variable small_quicksort : nat.
Variable v : list Z.

(** [v[*p]] *)
Definition key (tosort : list nat) (p : nat) : Z := v !!! (tosort !!! p).

(** [INTP_SWAP]: the entries at [p] and [q] change places. *)
Definition swap (p q : nat) (tosort : list nat) : list nat :=
  <[p := tosort !!! q]> (<[q := tosort !!! p]> tosort).

(** [do { ++pi; } while (less(v[*pi], vp));] *)
Fixpoint scan_up (fuel : nat) (tosort : list nat) (vp : Z) (pi : nat) : nat :=
  match fuel with
  | O => pi
  | S fuel =>
      let pi := S pi in
      if bool_decide (key tosort pi < vp) then scan_up fuel tosort vp pi else pi
  end.

(** [do { --pj; } while (less(vp, v[*pj]));] *)
Fixpoint scan_down (fuel : nat) (tosort : list nat) (vp : Z) (pj : nat) : nat :=
  match fuel with
  | O => pj
  | S fuel =>
      let pj := pred pj in
      if bool_decide (vp < key tosort pj) then scan_down fuel tosort vp pj else pj
  end.

(** The [for (;;)] loop of the partition; it ends with [pi >= pj]. *)
Fixpoint partition_loop (fuel : nat) (tosort : list nat) (vp : Z) (pi pj : nat)
    : list nat * nat :=
  match fuel with
  | O => (tosort, pi)
  | S fuel =>
      let pi := scan_up (length tosort) tosort vp pi in
      let pj := scan_down (length tosort) tosort vp pj in
      if bool_decide (pj ≤ pi)%nat then (tosort, pi)
      else partition_loop fuel (swap pi pj tosort) vp pi pj
  end.

(** One partition of [[pl, pr]] around the median of three. *)
Definition partition (tosort : list nat) (pl pr : nat) : list nat * nat :=
  let pm := (pl + (pr - pl) / 2)%nat in
  let tosort :=
    if bool_decide (key tosort pm < key tosort pl) then swap pm pl tosort else tosort in
  let tosort :=
    if bool_decide (key tosort pr < key tosort pm) then swap pr pm tosort else tosort in
  let tosort :=
    if bool_decide (key tosort pm < key tosort pl) then swap pm pl tosort else tosort in
  let vp := key tosort pm in
  let pj := (pr - 1)%nat in
  let tosort := swap pm pj tosort in
  let '(tosort, pi) := partition_loop (length tosort) tosort vp pl pj in
  let pk := (pr - 1)%nat in
  (swap pi pk tosort, pi).

(** [while (pj > pl && less(vp, v[*pk])) { *pj-- = *pk--; }] *)
Fixpoint shift_right (fuel : nat) (tosort : list nat) (pl : nat) (vp : Z) (pj : nat)
    : list nat * nat :=
  match fuel with
  | O => (tosort, pj)
  | S fuel =>
      if bool_decide (pl < pj)%nat && bool_decide (vp < key tosort (pj - 1)) then
        shift_right fuel (<[pj := tosort !!! (pj - 1)%nat]> tosort) pl vp (pj - 1)
      else (tosort, pj)
  end.

(** The insertion sort of [[pl, pr]]. *)
Definition insertion_sort (tosort : list nat) (pl pr : nat) : list nat :=
  foldl (λ tosort pi,
      let vi := tosort !!! pi in
      let '(tosort, pj) := shift_right pi tosort pl (v !!! vi) pi in
      <[pj := vi]> tosort)
    tosort (seq (S pl) (pr - pl)).

(** [aheapsort_] on the [n] entries from [pl] on; [a[k]] is entry
    [pl + k - 1]. *)
Fixpoint sift_down (fuel : nat) (tosort : list nat) (pl n tmp i j : nat) : list nat :=
  match fuel with
  | O => <[(pl + i - 1)%nat := tmp]> tosort
  | S fuel =>
      if bool_decide (j ≤ n)%nat then
        let j :=
          if bool_decide (j < n)%nat
             && bool_decide (key tosort (pl + j - 1) < key tosort (pl + j))
          then S j else j in
        if bool_decide (v !!! tmp < key tosort (pl + j - 1)) then
          sift_down fuel (<[(pl + i - 1)%nat := tosort !!! (pl + j - 1)%nat]> tosort)
            pl n tmp j (j + j)
        else <[(pl + i - 1)%nat := tmp]> tosort
      else <[(pl + i - 1)%nat := tmp]> tosort
  end.

Definition aheapsort (tosort : list nat) (pl n : nat) : list nat :=
  let heap :=
    foldl (λ tosort l, sift_down n tosort pl n (tosort !!! (pl + l - 1)%nat) l (l + l))
      tosort (reverse (seq 1 (n / 2))) in
  foldl (λ tosort n,
      let tmp := tosort !!! (pl + n - 1)%nat in
      let tosort := <[(pl + n - 1)%nat := tosort !!! pl]> tosort in
      sift_down n tosort pl (n - 1) tmp 1 2)
    heap (reverse (seq 2 (n - 1))).

(** The inner [while ((pr - pl) > SMALL_QUICKSORT)]: partition, push the
    larger side with the depth left, go on with the smaller. *)
Fixpoint partition_while (fuel : nat) (tosort : list nat) (pl pr : nat)
    (stack : list (nat * nat * Z)) (cdepth : Z)
    : list nat * nat * nat * list (nat * nat * Z) :=
  match fuel with
  | O => (tosort, pl, pr, stack)
  | S fuel =>
      if bool_decide (small_quicksort < pr - pl)%nat then
        let '(tosort, pi) := partition tosort pl pr in
        let cdepth := cdepth - 1 in
        if bool_decide (pi - pl < pr - pi)%nat then
          partition_while fuel tosort pl (pi - 1) ((S pi, pr, cdepth) :: stack) cdepth
        else
          partition_while fuel tosort (S pi) pr ((pl, (pi - 1)%nat, cdepth) :: stack) cdepth
      else (tosort, pl, pr, stack)
  end.

(** The outer [while (1)]. *)
Fixpoint quicksort_loop (fuel : nat) (tosort : list nat) (pl pr : nat)
    (stack : list (nat * nat * Z)) (cdepth : Z) : list nat :=
  match fuel with
  | O => tosort
  | S fuel =>
      let '(tosort, stack) :=
        if bool_decide (cdepth < 0) then (aheapsort tosort pl (pr - pl + 1), stack)
        else
          let '(tosort, pl, pr, stack) :=
            partition_while (length tosort) tosort pl pr stack cdepth in
          (insertion_sort tosort pl pr, stack) in
      match stack with
      | [] => tosort
      | (pl, pr, cdepth) :: stack => quicksort_loop fuel tosort pl pr stack cdepth
      end
  end.

(** [np.argsort(v, kind='quicksort')] *)
Definition aquicksort : list nat :=
  let num := length v in
  quicksort_loop (S num) (seq 0 num) 0 (num - 1) [] (Z.log2 (Z.of_nat num) * 2).
End Quicksort.

(** The positions, in the output, of the rows of [l] as a relation: [x]
    comes before [y] in [l]. *)
Definition before {A} (l : list A) (x y : A) : Prop :=
  ∃ i j : nat, (i < j)%nat ∧ l !! i = Some x ∧ l !! j = Some y.

End Sorting.

(** ** Tables as [pd.read_csv] delivers them, and their normalisation *)

Module Table.
Import Sorting.
Local Open Scope string_scope.

(** A cell of a raw table.  A [float64] cell other than [NaN] prints as a
    number and plays no part in the code modelled here. *)
Inductive Cell :=
  | NaN
  | Bool (b : bool)
  | Int (z : Z)
  | Str (s : string).

#[global] Instance Cell_eq_dec : EqDecision Cell.
Proof. solve_decision. Defined.

#[global] Instance Cell_inhabited : Inhabited Cell := populate NaN.

Record DataFrame := mkDataFrame {
  columns : list string;
  rows : list (gmap string Cell)
}.

(** A row of a normalised table: the parsed timestamp column is [stamp],
    the other columns stay in [cells]. *)
Record TimedRow := mkTimedRow {
  stamp : Z;
  cells : gmap string Cell
}.

#[global] Instance TimedRow_eq_dec : EqDecision TimedRow.
Proof. solve_decision. Defined.

Record TimedFrame := mkTimedFrame {
  tcolumns : list string;
  trows : list TimedRow
}.

(** What a normaliser does: hand back a frame, return [None] after zero or
    more [st.error] messages, or let an exception of [pd.to_datetime]
    escape. *)
Inductive Outcome (A : Type) :=
  | Return (a : A)
  | ReturnNone (errors : list string)
  | Raised.
Arguments Return {A} a.
Arguments ReturnNone {A} errors.
Arguments Raised {A}.

(** [str.lower()] on the ASCII letters.  A non-ASCII character is several
    bytes above 127, none of which this changes, and no such character
    lowers to one of the letters of [true]. *)
Definition lower_ascii (c : ascii) : ascii :=
  let n := nat_of_ascii c in
  if bool_decide (65 ≤ n ≤ 90)%nat then ascii_of_nat (n + 32) else c.

Fixpoint str_lower (s : string) : string :=
  match s with
  | EmptyString => EmptyString
  | String c rest => String (lower_ascii c) (str_lower rest)
  end.

(** [astype(str)] on one cell. *)
Definition astype_str (c : Cell) : string :=
  match c with
  | NaN => "nan"
  | Bool true => "True"
  | Bool false => "False"
  | Int z => pretty z
  | Str s => s
  end.

(** [series.astype(str).str.lower() == 'true'] on one cell. *)
Definition is_true (c : Cell) : bool :=
  bool_decide (str_lower (astype_str c) = "true").

(** [df[name] = values]: the column is replaced in place when the frame
    has it and appended otherwise. *)
Definition set_column_name (name : string) (cols : list string) : list string :=
  if bool_decide (name ∈ cols) then cols else cols ++ [name].

Definition msg_missing_created_at : string :=
  "Missing 'created_at' column in subscribers file.".
Definition msg_missing_post_date : string :=
  "Missing 'post_date' column in posts file.".

Section Normalise.
(** [pd.to_datetime] on one cell; [None] when the call raises. *)
Variable to_datetime : Cell → option Z.
Variable argsort : list Z → list nat.

(** [df[col] = pd.to_datetime(df[col])], on tables whose cells of that
    column all hold a timestamp or make the call raise.  An empty cell,
    which pandas parses to [NaT] without raising, is outside the model. *)
Definition parse_row (col : string) (r : gmap string Cell) : option TimedRow :=
  t ← to_datetime (default NaN (r !! col));
  Some (mkTimedRow t (delete col r)).

Definition parse_column (col : string) (rs : list (gmap string Cell))
    : option (list TimedRow) :=
  mapM (parse_row col) rs.

(** [df['total_subscribers'] = range(1, len(df) + 1)] *)
Definition assign_range (name : string) (rs : list TimedRow) : list TimedRow :=
  imap (λ i r, mkTimedRow (stamp r) (<[name := Int (Z.of_nat (S i))]> (cells r))) rs.

Definition process_subscribers (df : option DataFrame) : Outcome TimedFrame :=
  match df with
  | None => ReturnNone []
  | Some df =>
      if bool_decide ("created_at" ∈ columns df) then
        match parse_column "created_at" (rows df) with
        | None => Raised
        | Some parsed =>
            let sorted := sort_values argsort stamp parsed in
            Return (mkTimedFrame
                      (set_column_name "total_subscribers" (columns df))
                      (assign_range "total_subscribers" sorted))
        end
      else ReturnNone [msg_missing_created_at]
  end.

(** [df['is_published'] = df['is_published'].astype(str).str.lower() == 'true'] *)
Definition parse_is_published (r : TimedRow) : TimedRow :=
  mkTimedRow (stamp r)
    (<["is_published" := Bool (is_true (default NaN (cells r !! "is_published")))]>
       (cells r)).

(** [df[df['is_published'] == True]] *)
Definition published (r : TimedRow) : Prop :=
  cells r !! "is_published" = Some (Bool true).

Definition process_posts (df : option DataFrame) : Outcome TimedFrame :=
  match df with
  | None => ReturnNone []
  | Some df =>
      if bool_decide ("post_date" ∈ columns df) then
        match parse_column "post_date" (rows df) with
        | None => Raised
        | Some parsed =>
            let kept :=
              if bool_decide ("is_published" ∈ columns df)
              then filter published (parse_is_published <$> parsed)
              else parsed in
            Return (mkTimedFrame (columns df) (sort_values argsort stamp kept))
        end
      else ReturnNone [msg_missing_post_date]
  end.
End Normalise.

End Table.

(** ** Posts on the growth chart (dashboard.py, lines 188-207) *)

Module Overlay.
Import Time Growth Sorting Table.

(** The two searches of [pd.merge_asof] over the ascending right keys.
    Backward: the loop advances [right_pos] while the right key is [<=] the
    left one and steps back once, so it lands on the last key not after
    [v] ([None] is pandas's [-1]).  Forward: the first key not before
    [v]. *)
Fixpoint count_while_le (v : Z) (keys : list Z) : nat :=
  match keys with
  | [] => 0
  | k :: rest => if bool_decide (k ≤ v) then S (count_while_le v rest) else 0
  end.

Fixpoint count_while_lt (v : Z) (keys : list Z) : nat :=
  match keys with
  | [] => 0
  | k :: rest => if bool_decide (k < v) then S (count_while_lt v rest) else 0
  end.

Definition asof_backward (v : Z) (keys : list Z) : option nat :=
  match count_while_le v keys with
  | O => None
  | S j => Some j
  end.

Definition asof_forward (v : Z) (keys : list Z) : option nat :=
  let j := count_while_lt v keys in
  if bool_decide (j < length keys)%nat then Some j else None.

(** [direction='nearest']: with a match on both sides the backward one is
    kept when [diff_b <= diff_f]. *)
Definition asof_nearest (v : Z) (keys : list Z) : option nat :=
  match asof_backward v keys, asof_forward v keys with
  | Some b, Some f =>
      let diff_b := v - keys !!! b in
      let diff_f := keys !!! f - v in
      Some (if bool_decide (diff_b ≤ diff_f) then b else f)
  | Some b, None => Some b
  | None, f => f
  end.

(** [pd.merge_asof(left, right, left_on='post_date', right_on='created_at',
    direction='nearest')]: every left row, with the right row it matched
    ([None]: the right columns are [NaN]). *)
Definition merge_asof_nearest (left : list TimedRow)
    (right : list DailyGrowthPoint) : list (TimedRow * option DailyGrowthPoint) :=
  (λ p, (p, i ← asof_nearest (stamp p) (created_at <$> right); right !! i)) <$> left.

(** [posts_df[(post_date >= created_at.min()) & (post_date <= created_at.max())]];
    against the [NaT] of an empty series both comparisons are false. *)
Definition relevant_posts (posts : list TimedRow)
    (daily : list DailyGrowthPoint) : list TimedRow :=
  match series_min (created_at <$> daily), series_max (created_at <$> daily) with
  | Some lo, Some hi => filter (λ p, lo ≤ stamp p ∧ stamp p ≤ hi) posts
  | _, _ => []
  end.

(** Vocabulary for the statements: the midnight nearest to [t], the
    earlier one when [t] is exactly noon. *)
Definition nearest_midnight (t : Z) : Z :=
  if bool_decide (t - floor_D t ≤ ns_per_day `div` 2)
  then floor_D t
  else floor_D t + ns_per_day.

Section Overlay.
Variable argsort : list Z → list nat.

(** Lines 188-207: the frame [daily_growth] as it is afterwards (line 198
    rebinds it), and [posts_integrated] when the trace is drawn. *)
Definition catalyst_overlay (posts_df : option TimedFrame)
    (daily : list (nat * DailyGrowthPoint))
    : list (nat * DailyGrowthPoint)
      * option (list (TimedRow * option DailyGrowthPoint)) :=
  match posts_df with
  | None => (daily, None)
  | Some pf =>
      match trows pf with
      | [] => (daily, None)
      | _ =>
          match relevant_posts (trows pf) (daily.*2) with
          | [] => (daily, None)
          | relevant =>
              let relevant := sort_values argsort stamp relevant in
              let daily := sort_values argsort (created_at ∘ snd) daily in
              (daily, Some (merge_asof_nearest relevant (daily.*2)))
          end
      end
  end.
End Overlay.

End Overlay.

(** ** The three-day spike and its catalysts (dashboard.py, lines 240-278) *)

Module Spike.
Import Time Growth Table.

(** Round to the nearest integer, ties to the even one. *)
Definition rne (x : Q) : Z :=
  let f := Qfloor x in
  match (x - inject_Z f ?= 1 # 2)%Q with
  | Lt => f
  | Gt => f + 1
  | Eq => if Z.even f then f else f + 1
  end.

(** The binade of a number that is not zero: the [e] with
    [2^e <= |q| < 2^(e+1)]. *)
Definition ilog2 (q : Q) : Z :=
  let e := Z.log2 (Z.abs (Qnum q)) - Z.log2 (Zpos (Qden q)) in
  if Qle_bool (2 ^ e) (Qabs q) then e else e - 1.

(** The binary64 rounding of an exact result: the nearest multiple of
    [2^(e-52)] in the binade [e] of [q], ties to the even significand.  The
    result is kept in lowest terms. *)
Definition f64_round (q : Q) : Q :=
  if Qeq_bool q 0 then 0%Q
  else let s := 52 - ilog2 q in
       Qred (inject_Z (rne (q * 2 ^ s)) * 2 ^ (- s)).

(** A [float64] value: the three special values, or the number held. *)
Inductive float64 :=
  | nan
  | inf
  | neg_inf
  | fin (q : Q).

(** An [int64] count as a [float64]. *)
Definition to_float64 (x : Z) : Q := f64_round (inject_Z x).

(** [x / y] of an integer by a shifted (float) value. *)
Definition true_div (x y : Z) : float64 :=
  if bool_decide (y = 0) then
    if bool_decide (0 < x) then inf
    else if bool_decide (x < 0) then neg_inf
    else nan
  else fin (f64_round (to_float64 x / to_float64 y)).

Definition sub_one (f : float64) : float64 :=
  match f with
  | fin q => fin (f64_round (q - 1))
  | other => other
  end.

(** The same two operations on the machine's binary64 numbers, read back
    as a [float64]: a check of [f64_round] against the hardware. *)
Definition of_binary64 (f : PrimFloat.float) : float64 :=
  match FloatOps.Prim2SF f with
  | SpecFloat.S754_zero _ => fin 0
  | SpecFloat.S754_finite s m e =>
      fin (Qred ((if s then - 1 else 1) * inject_Z (Z.pos m) * 2 ^ e))
  | SpecFloat.S754_infinity s => if s then neg_inf else inf
  | SpecFloat.S754_nan => nan
  end.

Definition binary64_pct (x y : Z) : float64 :=
  of_binary64
    (PrimFloat.sub
       (PrimFloat.div (PrimFloat.of_uint63 (Uint63.of_Z x))
                      (PrimFloat.of_uint63 (Uint63.of_Z y)))
       PrimFloat.one).

(** [Series.shift(periods)]: [None] is the [NaN] that fills the head. *)
Definition shift (periods : nat) (xs : list Z) : list (option Z) :=
  replicate (periods `min` length xs) None
    ++ (Some <$> take (length xs - periods) xs).

(** [Series.pct_change(periods)], that is [data / data.shift(periods) - 1]. *)
Definition pct_change (periods : nat) (xs : list Z) : list float64 :=
  zip_with (λ x prev,
      match prev with
      | None => nan
      | Some y => sub_one (true_div x y)
      end) xs (shift periods xs).

Definition isna (f : float64) : bool :=
  match f with
  | nan => true
  | _ => false
  end.

(** [a < b] on values that are not [nan]; false when either is. *)
Definition f64_lt (a b : float64) : bool :=
  match a, b with
  | nan, _ | _, nan => false
  | _, neg_inf => false
  | neg_inf, _ => true
  | inf, _ => false
  | _, inf => true
  | fin p, fin q => negb (Qle_bool q p)
  end.

(** [np.argmax]: the position of the first occurrence of the maximum. *)
Fixpoint argmax_from (best_pos : nat) (best : float64) (pos : nat)
    (xs : list float64) : nat :=
  match xs with
  | [] => best_pos
  | x :: rest =>
      if f64_lt best x then argmax_from pos x (S pos) rest
      else argmax_from best_pos best (S pos) rest
  end.

Definition argmax (xs : list float64) : nat :=
  match xs with
  | [] => 0%nat
  | x :: rest => argmax_from 0 x 1 rest
  end.

(** [nanops.nanargmax] with [skipna=True]: [nan] is replaced by [-inf]
    before [np.argmax]. *)
Definition nanargmax (xs : list float64) : nat :=
  argmax ((λ x, if isna x then neg_inf else x) <$> xs).

(** What the right-hand column of the spike panel shows. *)
Inductive Catalysts :=
  | NoPostsFrame                       (* [posts_df is None]: nothing *)
  | Found (posts : list TimedRow)      (* [st.success] and one line a post *)
  | NoneFound.                         (* [st.warning] *)

Inductive SpikeReport :=
  | NotEnoughData                      (* line 278 *)
  | KeyError                           (* [.loc] on a label the frame lacks *)
  | TopWindow (window_start peak_date : Z) (max_val : float64)
      (catalysts : Catalysts).

(** Lines 262-268. *)
Definition catalysts_in_window (window_start peak_date : Z)
    (posts : list TimedRow) : list TimedRow :=
  let search_end := peak_date in
  let search_start := window_start - Timedelta_days 2 in
  filter (λ p, search_start ≤ stamp p ∧ stamp p ≤ search_end) posts.

Definition find_catalysts (window_start peak_date : Z)
    (posts_df : option TimedFrame) : Catalysts :=
  match posts_df with
  | None => NoPostsFrame
  | Some pf =>
      match catalysts_in_window window_start peak_date (trows pf) with
      | [] => NoneFound
      | found => Found found
      end
  end.

(** [daily_growth.loc[label, ...]]: the row that carries the label. *)
Definition loc {A} (frame : list (nat * A)) (label : nat) : option A :=
  (λ found, found.2.2) <$> list_find (λ row, row.1 = label) frame.

(** Lines 240-278 on the labelled frame [daily_growth]. *)
Definition spike_analysis (daily : list (nat * DailyGrowthPoint))
    (posts_df : option TimedFrame) : SpikeReport :=
  let pct_change_3d := pct_change 3 (total_subscribers ∘ snd <$> daily) in
  if forallb isna pct_change_3d then NotEnoughData
  else
    match daily.*1 !! nanargmax pct_change_3d with
    | None => KeyError
    | Some max_idx =>
        match loc (zip daily.*1 (zip daily.*2 pct_change_3d)) max_idx with
        | None => KeyError
        | Some (point, max_val) =>
            let peak_date := created_at point in
            let window_start := peak_date - Timedelta_days 3 in
            TopWindow window_start peak_date max_val
              (find_catalysts window_start peak_date posts_df)
        end
    end.

End Spike.

(** ** The page (dashboard.py, lines 135-284) *)

Module Dashboard.
Import Time Growth Sorting Table Overlay Spike.
Local Open Scope string_scope.

(** [reset_index]: a fresh [RangeIndex]. *)
Definition reset_index {A} (l : list A) : list (nat * A) :=
  zip (seq 0 (length l)) l.

(** Lines 156-168: [None] is the "N/A" of a roster with no
    [active_subscription] column. *)
Definition paid_metrics (subs_df : TimedFrame) : option (Z * Q) :=
  let total_subs := Z.of_nat (length (trows subs_df)) in
  if bool_decide ("active_subscription" ∈ tcolumns subs_df) then
    let is_paid :=
      (λ r, is_true (default NaN (cells r !! "active_subscription")))
        <$> trows subs_df in
    let paid_count := Z.of_nat (length (filter (λ b, b = true) is_paid)) in
    let conversion_rate :=
      if bool_decide (0 < total_subs)
      then (inject_Z paid_count / inject_Z total_subs * 100)%Q
      else 0%Q in
    Some (paid_count, conversion_rate)
  else None.

Record Results := mkResults {
  total_subs : Z;
  paid : option (Z * Q);
  daily_growth_frame : list (nat * DailyGrowthPoint);
  posts_integrated : option (list (TimedRow * option DailyGrowthPoint));
  spike : SpikeReport
}.

Definition msg_csv_not_found : string :=
  "Could not find necessary CSV files (`posts.csv` and `subscribers.csv` or `email_list.csv`) in the zip archive.".

Inductive Page :=
  | EmptyState                                   (* nothing uploaded *)
  | CsvNotFound (error : string)                 (* line 281 *)
  | Halted (errors : list string)                (* [subs_df is None] *)
  | Shown (errors : list string) (r : Results)
  | Crashed.                                     (* [pd.to_datetime] raised *)

Section Dashboard.
Variable to_datetime : Cell → option Z.
Variable argsort : list Z → list nat.

(** Lines 144-278, once both frames are at hand. *)
Definition analyse (subs_df : TimedFrame) (posts_df : option TimedFrame) : Results :=
  let daily := reset_index (daily_growth (stamp <$> trows subs_df)) in
  let '(daily, integrated) := catalyst_overlay argsort posts_df daily in
  mkResults (Z.of_nat (length (trows subs_df))) (paid_metrics subs_df)
    daily integrated (spike_analysis daily posts_df).

(** Lines 139-281 up to the drawing calls: the errors the normalisers
    reported and the results computed from their frames.  [Crashed] is an
    exception of [pd.to_datetime] that escapes lines 141-142; [Shown] says
    what the analysis computes, not that every drawing call returns. *)
Definition run (posts_raw subs_raw : option DataFrame) : Page :=
  match posts_raw, subs_raw with
  | Some _, Some _ =>
      match process_subscribers to_datetime argsort subs_raw with
      | Raised => Crashed
      | ReturnNone errs_subs =>
          match process_posts to_datetime argsort posts_raw with
          | Raised => Crashed
          | ReturnNone errs_posts => Halted (errs_subs ++ errs_posts)
          | Return _ => Halted errs_subs
          end
      | Return subs_df =>
          match process_posts to_datetime argsort posts_raw with
          | Raised => Crashed
          | ReturnNone errs_posts => Shown errs_posts (analyse subs_df None)
          | Return posts_df => Shown [] (analyse subs_df (Some posts_df))
          end
      end
  | _, _ => CsvNotFound msg_csv_not_found
  end.

Definition page (uploaded : option (option DataFrame * option DataFrame)) : Page :=
  match uploaded with
  | None => EmptyState
  | Some (posts_raw, subs_raw) => run posts_raw subs_raw
  end.
End Dashboard.

End Dashboard.

(** ** Sample data for the worked examples *)

Module Fixtures.
Import Time Growth Table.

(** Midnight of day [n]. *)
Definition day (n : Z) : Z := n * ns_per_day.

(** The counts 1, 1, 1, 4 on four consecutive days. *)
Definition four_days : list DailyGrowthPoint :=
  [mkPoint 0 1; mkPoint ns_per_day 1;
   mkPoint (2 * ns_per_day) 1; mkPoint (3 * ns_per_day) 4].

(** Seven days of counts near 67.7 million: 8227 joins on the second day
    and 8228 on the last. *)
Definition tied_growth : list DailyGrowthPoint :=
  zip_with mkPoint ((λ n, Z.of_nat n * ns_per_day) <$> seq 0 7)
    [67683530; 67691757; 67691757; 67691757; 67691757; 67691757; 67699985].

(** A stand-in for [pd.to_datetime]: it reads a cell that already holds
    the nanoseconds and raises on anything else. *)
Definition to_datetime (c : Cell) : option Z :=
  match c with
  | Int z => Some z
  | _ => None
  end.

Local Open Scope string_scope.

Definition subscriber (email : string) (at_ : Z) : gmap string Cell :=
  {[ "email" := Str email; "created_at" := Int at_ ]}.

Definition post (title : string) (at_ : Z) (is_published : Cell) : gmap string Cell :=
  {[ "title" := Str title; "post_date" := Int at_; "is_published" := is_published ]}.

(** Twenty subscribers, "a" to "t", who joined at the same instant. *)
Definition tied_subscribers : DataFrame :=
  mkDataFrame ["email"; "created_at"]
    ((λ i, subscriber (String (ascii_of_nat (97 + i)) "") (day 1 + 5)) <$> seq 0 20).

(** A roster whose second row has no readable date. *)
Definition unparsable_subscribers : DataFrame :=
  mkDataFrame ["email"; "created_at"]
    [subscriber "a" (day 1 + 5);
     {[ "email" := Str "b"; "created_at" := Str "soon" ]}].

(** Joins on day 1 (two), day 2 and day 4. *)
Definition subscribers : DataFrame :=
  mkDataFrame ["email"; "created_at"]
    [subscriber "c" (day 2 + 7); subscriber "a" (day 1 + 5);
     subscriber "d" (day 4); subscriber "b" (day 1 + 9)].

(** Three posts: one at noon of day 2, a draft, and one after the last
    join. *)
Definition posts : DataFrame :=
  mkDataFrame ["title"; "post_date"; "is_published"]
    [post "Late" (day 7) (Str "TRUE");
     post "Draft" (day 3) (Str "False");
     post "Launch" (day 2 + ns_per_day `div` 2) (Bool true)].

(** The same posts without the [is_published] column. *)
Definition posts_unflagged : DataFrame :=
  mkDataFrame ["title"; "post_date"]
    [delete "is_published" (post "Late" (day 7) NaN);
     delete "is_published" (post "Draft" (day 3) NaN)].

Definition subscriber_times : list Z := [day 2 + 7; day 1 + 5; day 4; day 1 + 9].

(** [posts] once normalised: "Launch", then "Late". *)
Definition launch : TimedRow :=
  mkTimedRow (day 2 + ns_per_day `div` 2)
    {[ "title" := Str "Launch"; "is_published" := Bool true ]}.

Definition late : TimedRow :=
  mkTimedRow (day 7) {[ "title" := Str "Late"; "is_published" := Bool true ]}.

Definition normalised_posts : TimedFrame :=
  mkTimedFrame ["title"; "post_date"; "is_published"] [launch; late].

(** [subscribers] with the timestamps parsed, and once normalised. *)
Definition parsed_row (email : string) (at_ : Z) : TimedRow :=
  mkTimedRow at_ {[ "email" := Str email ]}.

Definition numbered_row (email : string) (at_ n : Z) : TimedRow :=
  mkTimedRow at_ {[ "email" := Str email; "total_subscribers" := Int n ]}.

Definition parsed_subscribers : TimedFrame :=
  mkTimedFrame ["email"; "created_at"]
    [parsed_row "c" (day 2 + 7); parsed_row "a" (day 1 + 5);
     parsed_row "d" (day 4); parsed_row "b" (day 1 + 9)].

Definition normalised_subscribers : TimedFrame :=
  mkTimedFrame ["email"; "created_at"; "total_subscribers"]
    [numbered_row "a" (day 1 + 5) 1; numbered_row "b" (day 1 + 9) 2;
     numbered_row "c" (day 2 + 7) 3; numbered_row "d" (day 4) 4].

(** Posts on day 2 and day 3, as a normalised frame. *)
Definition two_posts : TimedFrame :=
  mkTimedFrame ["title"; "post_date"]
    [mkTimedRow (day 2) {[ "title" := Str "day2" ]};
     mkTimedRow (day 3) {[ "title" := Str "day3" ]}].

End Fixtures.

(** * Facts about time and the daily series *)

Section TimeFacts.
Import Time.

Lemma ns_per_day_pos : 0 < ns_per_day.
Proof. reflexivity. Qed.

Lemma floor_D_le t : floor_D t ≤ t.
Proof.
  unfold floor_D, day_of. pose proof (Z.mul_div_le t ns_per_day ns_per_day_pos). lia.
Qed.

Lemma floor_D_lt t : t < floor_D t + ns_per_day.
Proof.
  unfold floor_D, day_of.
  pose proof (Z.mod_pos_bound t ns_per_day ns_per_day_pos).
  pose proof (Z.div_mod t ns_per_day). lia.
Qed.

Lemma day_of_mono a b : a ≤ b → day_of a ≤ day_of b.
Proof. intros. unfold day_of. apply Z.div_le_mono; [apply ns_per_day_pos | done]. Qed.

(** A timestamp lies in the bin of midnight [k * ns_per_day] exactly when
    [k] is its day. *)
Lemma day_of_unique t k :
  k * ns_per_day ≤ t < k * ns_per_day + ns_per_day ↔ day_of t = k.
Proof.
  unfold day_of. pose proof ns_per_day_pos. split.
  - intros [H1 H2]. symmetry. apply (Z.div_unique t ns_per_day k (t - k * ns_per_day)); lia.
  - intros <-. fold (day_of t). fold (floor_D t).
    split; [apply floor_D_le | apply floor_D_lt].
Qed.

Lemma floor_D_day_of t : day_of (floor_D t) = day_of t.
Proof.
  unfold floor_D. unfold day_of at 1. apply Z.div_mul. pose proof ns_per_day_pos. lia.
Qed.

Lemma floor_D_idem t : floor_D (floor_D t) = floor_D t.
Proof. unfold floor_D at 1. by rewrite floor_D_day_of. Qed.

Lemma series_min_spec ts lo :
  series_min ts = Some lo ↔ lo ∈ ts ∧ ∀ t, t ∈ ts → lo ≤ t.
Proof.
  destruct ts as [|t0 rest]; simpl.
  { split; [done | intros [H _]; by apply elem_of_nil in H]. }
  assert (Hspec : foldr Z.min t0 rest ∈ t0 :: rest ∧
                  ∀ t, t ∈ t0 :: rest → foldr Z.min t0 rest ≤ t).
  { induction rest as [|x rest IH]; simpl.
    - split; [left | intros t ->%list_elem_of_singleton; lia].
    - destruct IH as [Hin Hle]. split.
      + destruct (Z.min_spec x (foldr Z.min t0 rest)) as [[_ ->]|[_ ->]].
        * right; left.
        * apply elem_of_cons in Hin as [->|Hin]; [left | right; by right].
      + intros t Ht. apply elem_of_cons in Ht as [->|Ht].
        * specialize (Hle t0 ltac:(left)). lia.
        * apply elem_of_cons in Ht as [->|Ht]; [lia|].
          specialize (Hle t ltac:(by right)). lia. }
  destruct Hspec as [Hin Hle]. split.
  - intros [= <-]. done.
  - intros [Hin' Hle']. f_equal. specialize (Hle lo Hin'). specialize (Hle' _ Hin). lia.
Qed.

Lemma series_max_spec ts hi :
  series_max ts = Some hi ↔ hi ∈ ts ∧ ∀ t, t ∈ ts → t ≤ hi.
Proof.
  destruct ts as [|t0 rest]; simpl.
  { split; [done | intros [H _]; by apply elem_of_nil in H]. }
  assert (Hspec : foldr Z.max t0 rest ∈ t0 :: rest ∧
                  ∀ t, t ∈ t0 :: rest → t ≤ foldr Z.max t0 rest).
  { induction rest as [|x rest IH]; simpl.
    - split; [left | intros t ->%list_elem_of_singleton; lia].
    - destruct IH as [Hin Hle]. split.
      + destruct (Z.max_spec x (foldr Z.max t0 rest)) as [[_ ->]|[_ ->]].
        * apply elem_of_cons in Hin as [->|Hin]; [left | right; by right].
        * right; left.
      + intros t Ht. apply elem_of_cons in Ht as [->|Ht].
        * specialize (Hle t0 ltac:(left)). lia.
        * apply elem_of_cons in Ht as [->|Ht]; [lia|].
          specialize (Hle t ltac:(by right)). lia. }
  destruct Hspec as [Hin Hle]. split.
  - intros [= <-]. done.
  - intros [Hin' Hle']. f_equal. specialize (Hle hi Hin'). specialize (Hle' _ Hin). lia.
Qed.

Lemma series_min_is_Some ts : ts ≠ [] → is_Some (series_min ts).
Proof. destruct ts; [done | by eexists]. Qed.

Lemma series_max_is_Some ts : ts ≠ [] → is_Some (series_max ts).
Proof. destruct ts; [done | by eexists]. Qed.

Lemma series_min_le_max ts lo hi :
  series_min ts = Some lo → series_max ts = Some hi → lo ≤ hi.
Proof.
  intros [Hlo _]%series_min_spec [_ Hhi]%series_max_spec. by apply Hhi.
Qed.

End TimeFacts.

Section GrowthFacts.
Import Time Growth.

Lemma count_between_nonneg ts a b : 0 ≤ count_between ts a b.
Proof. unfold count_between. lia. Qed.

Lemma count_between_split ts a b c :
  a ≤ b → b ≤ c →
  count_between ts a b + count_between ts b c = count_between ts a c.
Proof.
  intros Hab Hbc. unfold count_between.
  induction ts as [|t ts IH]; [done|].
  rewrite !filter_cons. repeat case_decide; simpl in *; lia.
Qed.

Lemma count_between_all ts a b :
  (∀ t, t ∈ ts → a ≤ t < b) → count_between ts a b = Z.of_nat (length ts).
Proof.
  intros H. unfold count_between. f_equal. f_equal.
  induction ts as [|t ts IH]; [done|].
  rewrite filter_cons. rewrite decide_True by (apply H; left).
  f_equal. apply IH. intros t' Ht'. apply H. by right.
Qed.

Lemma count_between_pos ts a b t :
  t ∈ ts → a ≤ t < b → 1 ≤ count_between ts a b.
Proof.
  intros Hin Hab. unfold count_between.
  assert (Hf : t ∈ filter (λ t, a ≤ t < b) ts) by (by apply list_elem_of_filter).
  destruct (filter _ ts); [by apply elem_of_nil in Hf | simpl; lia].
Qed.

Lemma count_between_zero ts a b :
  count_between ts a b = 0 ↔ ∀ t, t ∈ ts → ¬ (a ≤ t < b).
Proof.
  split.
  - intros H0 t Hin Hab. pose proof (count_between_pos ts a b t Hin Hab). lia.
  - intros H. unfold count_between.
    replace (filter (λ t, a ≤ t < b) ts) with (@nil Z); [done|].
    symmetry. induction ts as [|t ts IH]; [done|].
    rewrite filter_cons, decide_False by (apply H; left).
    apply IH. intros t' Ht'. apply H. by right.
Qed.

Lemma bin_size_count ts d : bin_size ts d = count_between ts d (d + ns_per_day).
Proof. done. Qed.

Lemma nth_day_S first k : nth_day first (S k) = nth_day first k + ns_per_day.
Proof. unfold nth_day. lia. Qed.

Lemma nth_day_mono first i j : (i ≤ j)%nat → nth_day first i ≤ nth_day first j.
Proof. unfold nth_day. pose proof ns_per_day_pos. nia. Qed.

Lemma nth_day_ge first k : first ≤ nth_day first k.
Proof. unfold nth_day. pose proof ns_per_day_pos. nia. Qed.

Lemma cumsum_from_length acc xs : length (cumsum_from acc xs) = length xs.
Proof. revert acc. induction xs as [|x xs IH]; intros acc; simpl; [done | by rewrite IH]. Qed.

(** The running sum over consecutive daily bins is the number of events
    from the first bin up to the end of the current one. *)
Lemma cumsum_from_bins ts first n : ∀ k0 acc k,
  (k < n)%nat →
  cumsum_from acc (bin_size ts <$> (nth_day first <$> seq k0 n)) !! k
  = Some (acc + count_between ts (nth_day first k0) (nth_day first (k0 + k + 1))).
Proof.
  induction n as [|n IH]; intros k0 acc k Hk; [lia|].
  simpl. destruct k as [|k]; simpl.
  - f_equal. rewrite bin_size_count. replace (k0 + 0 + 1)%nat with (S k0) by lia.
    by rewrite nth_day_S.
  - rewrite IH by lia. f_equal.
    replace (S k0 + k + 1)%nat with (k0 + S k + 1)%nat by lia.
    rewrite bin_size_count, <-nth_day_S, <-Z.add_assoc. f_equal.
    apply count_between_split.
    + rewrite nth_day_S. pose proof ns_per_day_pos. lia.
    + apply nth_day_mono. lia.
Qed.

Lemma date_range_nth_day lo hi :
  lo ≤ hi →
  date_range (floor_D lo) (floor_D hi)
  = nth_day (floor_D lo) <$> seq 0 (S (Z.to_nat (day_of hi - day_of lo))).
Proof.
  intros Hle. unfold date_range. f_equal. f_equal. f_equal. f_equal.
  unfold floor_D. rewrite <-Z.mul_sub_distr_r.
  apply Z.div_mul. pose proof ns_per_day_pos. lia.
Qed.

Lemma resample_D_size_eq ts lo hi :
  series_min ts = Some lo → series_max ts = Some hi →
  resample_D_size ts
  = (λ d, (d, bin_size ts d))
      <$> (nth_day (floor_D lo) <$> seq 0 (S (Z.to_nat (day_of hi - day_of lo)))).
Proof.
  intros Hlo Hhi. unfold resample_D_size. rewrite Hlo, Hhi.
  by rewrite date_range_nth_day by eauto using series_min_le_max.
Qed.

(** The whole frame in closed form: row [k] is the [k]-th day after the
    first one, with the number of events before the end of that day. *)
Lemma daily_growth_closed_form ts lo hi :
  series_min ts = Some lo → series_max ts = Some hi →
  let n := S (Z.to_nat (day_of hi - day_of lo)) in
  length (daily_growth ts) = n ∧
  ∀ k, (k < n)%nat →
    daily_growth ts !! k
    = Some (mkPoint (nth_day (floor_D lo) k)
              (count_between ts (floor_D lo) (nth_day (floor_D lo) (S k)))).
Proof.
  intros Hlo Hhi n. unfold daily_growth.
  rewrite (resample_D_size_eq ts lo hi Hlo Hhi). fold n. clearbody n.
  rewrite <-!list_fmap_compose.
  assert (Hlen : length (seq 0 n) = n) by apply length_seq.
  split.
  - rewrite length_zip_with, length_fmap. unfold cumsum.
    rewrite cumsum_from_length, length_fmap. lia.
  - intros k Hk. rewrite lookup_zip_with.
    rewrite list_lookup_fmap, lookup_seq_lt by done. simpl.
    unfold cumsum.
    change (fmap (snd ∘ (λ d, (d, bin_size ts d)) ∘ nth_day (floor_D lo)) (seq 0 n))
      with (fmap (bin_size ts ∘ nth_day (floor_D lo)) (seq 0 n)).
    rewrite (list_fmap_compose (nth_day (floor_D lo)) (bin_size ts)).
    rewrite cumsum_from_bins by done. simpl.
    replace (k + 1)%nat with (S k) by lia.
    replace (nth_day (floor_D lo) 0) with (floor_D lo) by (unfold nth_day; lia).
    done.
Qed.

Lemma daily_growth_nil : daily_growth [] = [].
Proof. done. Qed.

Lemma daily_growth_nil_inv ts : daily_growth ts = [] → ts = [].
Proof.
  destruct ts as [|t ts]; [done|]. intros H.
  destruct (series_min_is_Some (t :: ts)) as [lo Hlo]; [done|].
  destruct (series_max_is_Some (t :: ts)) as [hi Hhi]; [done|].
  destruct (daily_growth_closed_form _ _ _ Hlo Hhi) as [Hlen _].
  rewrite H in Hlen. done.
Qed.

End GrowthFacts.

(** * Facts about the spike detector *)

Section SpikeFacts.
Import Time Growth Table Spike.

(** ** Rounding to [float64] *)

Ltac opaque_inject_Z :=
  repeat match goal with
  | |- context [inject_Z ?z] =>
      let F := fresh "F" in set (F := inject_Z z) in *; clearbody F
  | H : context [inject_Z ?z] |- _ =>
      let F := fresh "F" in set (F := inject_Z z) in *; clearbody F
  end.
Ltac qlra := opaque_inject_Z; lra.
Ltac qnra := opaque_inject_Z; nra.

Lemma rne_comp x y : (x == y)%Q → rne x = rne y.
Proof.
  intros H. unfold rne. rewrite (Qfloor_comp x y H).
  assert (E : (x - inject_Z (Qfloor y) == y - inject_Z (Qfloor y))%Q) by (by rewrite H).
  by rewrite (Qcompare_comp _ _ E _ _ (Qeq_refl (1 # 2))).
Qed.

Lemma rne_bounds x :
  (x - (1 # 2) <= inject_Z (rne x) <= x + (1 # 2))%Q.
Proof.
  unfold rne. pose proof (Qfloor_le x) as Hlo. pose proof (Qlt_floor x) as Hhi.
  rewrite inject_Z_plus in Hhi. change (inject_Z 1) with 1%Q in Hhi.
  destruct (x - inject_Z (Qfloor x) ?= 1 # 2)%Q eqn:E;
    [apply Qeq_alt in E; destruct (Z.even (Qfloor x))
    |apply Qlt_alt in E | apply Qgt_alt in E];
    rewrite ?inject_Z_plus; change (inject_Z 1) with 1%Q;
    set (F := inject_Z (Qfloor x)) in *; clearbody F; lra.
Qed.

Lemma rne_inject_Z z : rne (inject_Z z) = z.
Proof.
  unfold rne. rewrite Qfloor_Z.
  assert (E : (inject_Z z - inject_Z z ?= 1 # 2)%Q = Lt).
  { apply (proj1 (Qlt_alt _ _)). qlra. }
  by rewrite E.
Qed.

(** An integer that lies within the bounds. *)
Lemma rne_ge_Z x z : (inject_Z z <= x)%Q → z ≤ rne x.
Proof.
  intros H. pose proof (rne_bounds x) as [Hlo _].
  assert (Hlt : (inject_Z z < inject_Z (rne x + 1))%Q).
  { rewrite inject_Z_plus. change (inject_Z 1) with 1%Q. qlra. }
  rewrite <-Zlt_Qlt in Hlt. lia.
Qed.

Lemma rne_le_Z x z : (x <= inject_Z z)%Q → rne x ≤ z.
Proof.
  intros H. pose proof (rne_bounds x) as [_ Hhi].
  assert (Hlt : (inject_Z (rne x) < inject_Z (z + 1))%Q).
  { rewrite inject_Z_plus. change (inject_Z 1) with 1%Q. qlra. }
  rewrite <-Zlt_Qlt in Hlt. lia.
Qed.

Lemma two_neq_0 : ¬ (2 == 0)%Q.
Proof. done. Qed.

Lemma pow2_pos e : (0 < 2 ^ e)%Q.
Proof. by apply Qpower_0_lt. Qed.

Lemma pow2_succ e : (2 ^ (e + 1) == 2 * 2 ^ e)%Q.
Proof. rewrite Qpower_plus by done. rewrite Qpower_1_r. ring. Qed.

Lemma pow2_inject e : 0 ≤ e → (inject_Z (2 ^ e) == 2 ^ e)%Q.
Proof. intros H. by rewrite Zpower_Qpower. Qed.

Lemma ilog2_spec q :
  ¬ (q == 0)%Q → (2 ^ ilog2 q <= Qabs q)%Q ∧ (Qabs q < 2 ^ (ilog2 q + 1))%Q.
Proof.
  intros Hq. unfold ilog2.
  destruct q as [n d]. simpl Qnum; simpl Qden.
  assert (Hn : 0 < Z.abs n).
  { assert (n ≠ 0); [|lia]. intros ->. apply Hq. done. }
  set (a := Z.abs n) in *. set (ln := Z.log2 a). set (ld := Z.log2 (Z.pos d)).
  destruct (Z.log2_spec a Hn) as [Ha1 Ha2].
  destruct (Z.log2_spec (Z.pos d) ltac:(done)) as [Hd1 Hd2].
  rewrite <-Z.add_1_r in Ha2, Hd2.
  fold ln in Ha1, Ha2. fold ld in Hd1, Hd2.
  assert (Hln : 0 ≤ ln) by apply Z.log2_nonneg.
  assert (Hld : 0 ≤ ld) by apply Z.log2_nonneg.
  assert (Habs : (Qabs (n # d) == inject_Z a / inject_Z (Z.pos d))%Q).
  { unfold Qabs. fold a. rewrite (Qmake_Qdiv a d). reflexivity. }
  assert (Hdpos : (0 < inject_Z (Z.pos d))%Q) by (rewrite <-(Zlt_Qlt 0); lia).
  rewrite Zle_Qle in Ha1, Hd1. rewrite Zlt_Qlt in Ha2, Hd2.
  rewrite pow2_inject in Ha1, Ha2, Hd1, Hd2 by lia.
  rewrite pow2_succ in Ha2, Hd2.
  set (A := inject_Z a) in *. set (D := inject_Z (Z.pos d)) in *.
  pose proof (pow2_pos ld) as HR. pose proof (pow2_pos ln) as HP.
  set (P := (2 ^ ln)%Q) in *. set (R := (2 ^ ld)%Q) in *.
  set (X := (P / R)%Q).
  assert (HX : (0 < X)%Q) by (apply Qlt_shift_div_l; lra).
  assert (HXR : (X * R == P)%Q) by (unfold X; field; lra).
  assert (E0 : (2 ^ (ln - ld) == X)%Q) by (by rewrite Qpower_minus).
  assert (Hupper : (Qabs (n # d) < 2 ^ (ln - ld + 1))%Q).
  { rewrite Habs, pow2_succ, E0. apply Qlt_shift_div_r; [done|].
    clearbody X P R A D. nra. }
  assert (Hlower : (2 ^ (ln - ld - 1) <= Qabs (n # d))%Q).
  { assert (E : (2 ^ (ln - ld - 1) == X * (1 # 2))%Q).
    { unfold Z.sub at 1. rewrite Qpower_plus, E0 by done. reflexivity. }
    rewrite Habs, E. apply Qle_shift_div_l; [done|].
    assert (0 < X * (2 * R - D))%Q by (apply Qmult_lt_0_compat; lra).
    clearbody X P R A D. lra. }
  destruct (Qle_bool (2 ^ (ln - ld)) (Qabs (n # d))) eqn:E.
  - apply Qle_bool_iff in E. done.
  - split; [done|]. replace (ln - ld - 1 + 1) with (ln - ld) by lia.
    apply Qnot_le_lt. intros H%Qle_bool_iff. congruence.
Qed.

Lemma ilog2_unique q e :
  (2 ^ e <= Qabs q)%Q → (Qabs q < 2 ^ (e + 1))%Q → ilog2 q = e.
Proof.
  intros Hlo Hhi.
  assert (Hq : ¬ (q == 0)%Q).
  { intros H. rewrite H in Hlo. change (Qabs 0) with 0%Q in Hlo.
    pose proof (pow2_pos e). lra. }
  destruct (ilog2_spec q Hq) as [Hlo' Hhi'].
  assert (H1 : (2 ^ e < 2 ^ (ilog2 q + 1))%Q) by (eapply Qle_lt_trans; eauto).
  assert (H2 : (2 ^ ilog2 q < 2 ^ (e + 1))%Q) by (eapply Qle_lt_trans; eauto).
  apply Qpower_lt_compat_l_inv in H1; [|done].
  apply Qpower_lt_compat_l_inv in H2; [|done]. lia.
Qed.

Lemma ilog2_comp x y : ¬ (x == 0)%Q → (x == y)%Q → ilog2 x = ilog2 y.
Proof.
  intros Hx H. symmetry. destruct (ilog2_spec x Hx) as [Hlo Hhi].
  apply ilog2_unique; by rewrite <-H.
Qed.

Lemma f64_round_0 q : (q == 0)%Q → f64_round q = 0%Q.
Proof. intros H. unfold f64_round. apply Qeq_bool_iff in H. by rewrite H. Qed.

Lemma f64_round_scaled q :
  ¬ (q == 0)%Q →
  (f64_round q == inject_Z (rne (q * 2 ^ (52 - ilog2 q))) * 2 ^ (- (52 - ilog2 q)))%Q.
Proof.
  intros Hq. unfold f64_round.
  destruct (Qeq_bool q 0) eqn:E; [by apply Qeq_bool_iff in E|].
  apply Qred_correct.
Qed.

Lemma f64_round_comp x y : (x == y)%Q → f64_round x = f64_round y.
Proof.
  intros H. unfold f64_round.
  destruct (Qeq_bool x 0) eqn:Ex.
  - apply Qeq_bool_iff in Ex. rewrite H in Ex. apply Qeq_bool_iff in Ex. by rewrite Ex.
  - assert (Hx : ¬ (x == 0)%Q) by (intros E%Qeq_bool_iff; congruence).
    destruct (Qeq_bool y 0) eqn:Ey.
    { apply Qeq_bool_iff in Ey. rewrite <-H in Ey. done. }
    rewrite <-(ilog2_comp x y Hx H).
    apply Qred_complete.
    rewrite (rne_comp (x * 2 ^ (52 - ilog2 x)) (y * 2 ^ (52 - ilog2 x)));
      [reflexivity | apply Qmult_comp; [exact H | reflexivity]].
Qed.

(** The scaled value lies between 2^52 and 2^53. *)
Lemma scaled_bounds q :
  ¬ (q == 0)%Q →
  (inject_Z (2 ^ 52) <= Qabs (q * 2 ^ (52 - ilog2 q)))%Q ∧
  (Qabs (q * 2 ^ (52 - ilog2 q)) < inject_Z (2 ^ 53))%Q.
Proof.
  intros Hq. destruct (ilog2_spec q Hq) as [Hlo Hhi].
  set (e := ilog2 q) in *.
  rewrite Qabs_Qmult, (Qabs_pos (2 ^ (52 - e))) by (apply Qlt_le_weak, pow2_pos).
  rewrite !pow2_inject by lia.
  assert (E1 : (2 ^ 52 == 2 ^ e * 2 ^ (52 - e))%Q).
  { rewrite <-Qpower_plus by done. by replace (e + (52 - e)) with 52 by lia. }
  assert (E2 : (2 ^ 53 == 2 ^ (e + 1) * 2 ^ (52 - e))%Q).
  { rewrite <-Qpower_plus by done. by replace (e + 1 + (52 - e)) with 53 by lia. }
  rewrite E1, E2. pose proof (pow2_pos (52 - e)). split.
  - by apply Qmult_le_compat_r; [|apply Qlt_le_weak].
  - by apply Qmult_lt_compat_r.
Qed.

Lemma pow2_opp_l s : (2 ^ s * 2 ^ (- s) == 1)%Q.
Proof. rewrite <-Qpower_plus by done. by replace (s + - s) with 0 by lia. Qed.

(** A positive value keeps its binade. *)
Lemma f64_round_pos q :
  (0 < q)%Q →
  (2 ^ ilog2 q <= f64_round q)%Q ∧ (f64_round q <= 2 ^ (ilog2 q + 1))%Q.
Proof.
  intros Hpos.
  assert (Hq : ¬ (q == 0)%Q) by lra.
  destruct (scaled_bounds q Hq) as [Hlo Hhi].
  rewrite (f64_round_scaled q Hq).
  set (e := ilog2 q) in *. set (s := 52 - e) in *.
  pose proof (pow2_pos s) as Hs. pose proof (pow2_pos (- s)) as Hs'.
  rewrite Qabs_pos in Hlo, Hhi by (apply Qlt_le_weak, Qmult_lt_0_compat; lra).
  apply rne_ge_Z in Hlo. apply Qlt_le_weak, rne_le_Z in Hhi.
  rewrite Zle_Qle in Hlo, Hhi. rewrite pow2_inject in Hlo, Hhi by lia.
  assert (E1 : (2 ^ e == 2 ^ 52 * 2 ^ (- s))%Q).
  { rewrite <-Qpower_plus by done. by replace (52 + - s) with e by lia. }
  assert (E2 : (2 ^ (e + 1) == 2 ^ 53 * 2 ^ (- s))%Q).
  { rewrite <-Qpower_plus by done. by replace (53 + - s) with (e + 1) by lia. }
  rewrite E1, E2. split; apply Qmult_le_compat_r; (done || by apply Qlt_le_weak).
Qed.

Lemma f64_round_nonneg q : (0 <= q)%Q → (0 <= f64_round q)%Q.
Proof.
  intros H. destruct (Qeq_dec q 0) as [E|E].
  - by rewrite (f64_round_0 q E).
  - assert (Hpos : (0 < q)%Q) by lra.
    destruct (f64_round_pos q Hpos) as [Hlo _].
    pose proof (pow2_pos (ilog2 q)). lra.
Qed.

Lemma f64_round_ge_1 q : (1 <= q)%Q → (1 <= f64_round q)%Q.
Proof.
  intros H. assert (Hpos : (0 < q)%Q) by lra.
  assert (Hq : ¬ (q == 0)%Q) by lra.
  destruct (f64_round_pos q Hpos) as [Hlo _].
  destruct (ilog2_spec q Hq) as [_ Hhi]. rewrite Qabs_pos in Hhi by lra.
  assert (He : 0 < ilog2 q + 1).
  { apply (Qpower_lt_compat_l_inv 2); [|done]. change (2 ^ 0)%Q with 1%Q. lra. }
  assert (1 <= 2 ^ ilog2 q)%Q by (apply Qpower_1_le; [done | lia]).
  lra.
Qed.

(** Rounding moves a value by at most 2^-53 of its size. *)
Lemma f64_round_error q :
  (Qabs (f64_round q - q) <= Qabs q * (1 # 2 ^ 53))%Q.
Proof.
  destruct (Qeq_dec q 0) as [E|Hq].
  { rewrite (f64_round_0 q E), E. done. }
  destruct (scaled_bounds q Hq) as [Hlo _].
  pose proof (rne_bounds (q * 2 ^ (52 - ilog2 q))) as [Hr1 Hr2].
  rewrite (f64_round_scaled q Hq).
  set (s := 52 - ilog2 q) in *.
  pose proof (pow2_pos s) as Hs. pose proof (pow2_pos (- s)) as Hs'.
  pose proof (pow2_opp_l s) as Hinv.
  set (m := inject_Z (rne (q * 2 ^ s))) in *.
  rewrite Qabs_Qmult, (Qabs_pos (2 ^ s)) in Hlo by lra.
  change (inject_Z (2 ^ 52)) with (4503599627370496 # 1)%Q in Hlo.
  change (1 # 2 ^ 53)%Q with (1 # 9007199254740992)%Q.
  assert (E : (m * 2 ^ (- s) - q == (m - q * 2 ^ s) * 2 ^ (- s))%Q).
  { transitivity (m * 2 ^ (- s) - q * (2 ^ s * 2 ^ (- s)))%Q; [rewrite Hinv|]; ring. }
  rewrite E, Qabs_Qmult, (Qabs_pos (2 ^ (- s))) by lra.
  assert (Hm : (Qabs (m - q * 2 ^ s) <= 1 # 2)%Q) by (apply Qabs_Qle_condition; split; lra).
  assert (Hq' : (Qabs q == Qabs q * 2 ^ s * 2 ^ (- s))%Q).
  { rewrite <-Qmult_assoc, Hinv. ring. }
  rewrite Hq'.
  set (P := (2 ^ s)%Q) in *. set (P' := (2 ^ (- s))%Q) in *.
  set (A := Qabs q) in *. set (B := Qabs (m - q * P)) in *.
  clearbody P P' A B.
  assert (E' : (A * P * P' * (1 # 9007199254740992)
                == (A * P * (1 # 9007199254740992)) * P')%Q) by ring.
  rewrite E'. apply Qmult_le_compat_r; lra.
Qed.

Lemma Qred_inject_Z z : Qred (inject_Z z) = inject_Z z.
Proof.
  unfold Qred, inject_Z.
  pose proof (Z.ggcd_gcd z 1) as Hg. pose proof (Z.ggcd_correct_divisors z 1) as Hd.
  destruct (Z.ggcd z 1) as [g [aa bb]]. simpl in *. destruct Hd as [Ha Hb].
  rewrite Z.gcd_1_r in Hg. subst g.
  replace aa with z by lia. replace bb with 1 by lia. done.
Qed.

Lemma f64_round_canonical q : Qred (f64_round q) = f64_round q.
Proof.
  unfold f64_round. destruct (Qeq_bool q 0); [done|].
  apply Qred_complete, Qred_correct.
Qed.

(** Integers below 2^53 are [float64] values. *)
Lemma f64_round_int z :
  0 ≤ z < 2 ^ 53 → f64_round (inject_Z z) = inject_Z z.
Proof.
  intros [Hz0 Hz].
  transitivity (Qred (inject_Z z)); [|apply Qred_inject_Z].
  rewrite <-f64_round_canonical. apply Qred_complete.
  destruct (decide (z = 0)) as [->|Hne]; [done|].
  assert (Hpos : (0 < inject_Z z)%Q) by (rewrite <-(Zlt_Qlt 0); lia).
  assert (Hq : ¬ (inject_Z z == 0)%Q) by lra.
  etransitivity; [exact (f64_round_scaled _ Hq)|].
  destruct (ilog2_spec _ Hq) as [Hlo _]. rewrite Qabs_pos in Hlo by lra.
  set (e := ilog2 (inject_Z z)) in *.
  assert (He : e < 53).
  { apply (Qpower_lt_compat_l_inv 2); [|done].
    eapply Qle_lt_trans; [exact Hlo|].
    rewrite <-pow2_inject by lia. by rewrite <-Zlt_Qlt. }
  assert (E : (inject_Z z * 2 ^ (52 - e) == inject_Z (z * 2 ^ (52 - e)))%Q).
  { rewrite inject_Z_mult, pow2_inject by lia. reflexivity. }
  rewrite (rne_comp _ _ E), rne_inject_Z, inject_Z_mult, pow2_inject by lia.
  rewrite <-Qmult_assoc, pow2_opp_l. ring.
Qed.

(** The three-day ratio of two counts below 2^53, the later one the
    larger: what [float64] keeps of [(a - b) / b]. *)
Lemma growth_ratio_error a b :
  1 ≤ b → b ≤ a → a < 2 ^ 53 →
  let q := f64_round (f64_round (inject_Z a / inject_Z b) - 1) in
  (0 <= q)%Q ∧
  (Qabs (q - inject_Z (a - b) / inject_Z b) <= inject_Z a / inject_Z b * (1 # 2 ^ 52))%Q.
Proof.
  intros Hb Hab Ha q.
  assert (HB : (1 <= inject_Z b)%Q) by (rewrite <-(Zle_Qle 1); lia).
  assert (HAB : (inject_Z b <= inject_Z a)%Q) by (by rewrite <-Zle_Qle).
  assert (HA : (inject_Z a < inject_Z (2 ^ 53))%Q) by (by rewrite <-Zlt_Qlt).
  change (inject_Z (2 ^ 53)) with (9007199254740992 # 1)%Q in HA.
  change (1 # 2 ^ 52)%Q with (1 # 4503599627370496)%Q.
  assert (Hr : (inject_Z (a - b) / inject_Z b == inject_Z a / inject_Z b - 1)%Q).
  { unfold Z.sub. rewrite inject_Z_plus, inject_Z_opp. field. lra. }
  rewrite Hr.
  set (t := (inject_Z a / inject_Z b)%Q) in *.
  assert (Ht1 : (1 <= t)%Q) by (apply Qle_shift_div_l; lra).
  assert (Ht2 : (t <= 9007199254740992 # 1)%Q).
  { apply Qle_shift_div_r; [lra|]. 
    set (A := inject_Z a) in *. set (B := inject_Z b) in *. clearbody A B. nra. }
  pose proof (f64_round_ge_1 t Ht1) as Hx1.
  pose proof (f64_round_error t) as Hex. rewrite (Qabs_pos t) in Hex by lra.
  set (x := f64_round t) in *.
  pose proof (f64_round_nonneg (x - 1) ltac:(lra)) as Hq0.
  pose proof (f64_round_error (x - 1)) as Hey. rewrite (Qabs_pos (x - 1)) in Hey by lra.
  fold q in Hq0, Hey. split; [done|].
  change (1 # 2 ^ 53)%Q with (1 # 9007199254740992)%Q in Hex, Hey.
  apply Qabs_Qle_condition in Hex, Hey. apply Qabs_Qle_condition.
  clearbody q x t. lra.
Qed.

(** Growth is never rounded away: the ratio is positive exactly when the
    count has grown. *)
Lemma growth_ratio_pos a b :
  1 ≤ b → b ≤ a → a < 2 ^ 53 →
  (0 < f64_round (f64_round (inject_Z a / inject_Z b) - 1))%Q ↔ b < a.
Proof.
  intros Hb Hab Ha. split.
  - intros Hpos. destruct (decide (b < a)) as [|Hge]; [done|]. exfalso.
    assert (a = b) as -> by lia.
    assert (E : (inject_Z b / inject_Z b == inject_Z 1)%Q).
    { change (inject_Z 1) with 1%Q. field.
      assert (1 <= inject_Z b)%Q by (rewrite <-(Zle_Qle 1); lia). lra. }
    rewrite (f64_round_comp _ _ E), f64_round_int in Hpos by lia.
    by vm_compute in Hpos.
  - intros Hlt.
    assert (HB : (1 <= inject_Z b)%Q) by (rewrite <-(Zle_Qle 1); lia).
    assert (HAB : (inject_Z b + 1 <= inject_Z a)%Q).
    { change 1%Q with (inject_Z 1). rewrite <-inject_Z_plus, <-Zle_Qle. lia. }
    assert (HB' : (inject_Z b < inject_Z (2 ^ 53))%Q) by (rewrite <-Zlt_Qlt; lia).
    change (inject_Z (2 ^ 53)) with (9007199254740992 # 1)%Q in HB'.
    set (t := (inject_Z a / inject_Z b)%Q).
    assert (Ht : (1 + (1 # 9007199254740992) < t)%Q).
    { apply Qlt_shift_div_l; [lra|].
      set (A := inject_Z a) in *. set (B := inject_Z b) in *. clearbody A B. nra. }
    assert (Htpos : (0 < t)%Q) by lra.
    assert (Hq : ¬ (t == 0)%Q) by lra.
    assert (Hx : (1 < f64_round t)%Q).
    { destruct (f64_round_pos t Htpos) as [Hlo _].
      destruct (ilog2_spec t Hq) as [Hl Hh]. rewrite Qabs_pos in Hl, Hh by lra.
      assert (He : 0 < ilog2 t + 1).
      { apply (Qpower_lt_compat_l_inv 2); [|done]. change (2 ^ 0)%Q with 1%Q. lra. }
      destruct (decide (ilog2 t = 0)) as [E0|Hne].
      - rewrite (f64_round_scaled t Hq), E0.
        replace (- (52 - 0)) with (-52) by lia. replace (52 - 0) with 52 by lia.
        assert (Hm : 2 ^ 52 + 1 ≤ rne (t * 2 ^ 52)).
        { pose proof (rne_bounds (t * 2 ^ 52)) as [Hb1 _].
          assert (Hgt : (inject_Z (2 ^ 52) < inject_Z (rne (t * 2 ^ 52)))%Q).
          { change (inject_Z (2 ^ 52)) with (4503599627370496 # 1)%Q.
            change (2 ^ 52)%Q with (4503599627370496 # 1)%Q in *.
            set (R := inject_Z (rne (t * (4503599627370496 # 1)))) in *.
            clearbody R t. lra. }
          rewrite <-Zlt_Qlt in Hgt. lia. }
        rewrite Zle_Qle, inject_Z_plus in Hm.
        change (inject_Z (2 ^ 52)) with (4503599627370496 # 1)%Q in Hm.
        change (inject_Z 1) with 1%Q in Hm.
        change (2 ^ (-52))%Q with (1 # 4503599627370496)%Q.
        set (R := inject_Z (rne (t * 2 ^ 52))) in *. clearbody R. lra.
      - assert (2 ^ 1 <= 2 ^ ilog2 t)%Q by (apply Qpower_le_compat_l; [lia | done]).
        change (2 ^ 1)%Q with 2%Q in *. lra. }
    destruct (f64_round_pos (f64_round t - 1) ltac:(lra)) as [Hlo _].
    pose proof (pow2_pos (ilog2 (f64_round t - 1))). lra.
Qed.

(** On these counts the rounding gives what the machine computes. *)
Example f64_round_agrees_with_binary64 :
  Forall (λ xy : Z * Z, sub_one (true_div xy.1 xy.2) = binary64_pct xy.1 xy.2)
    [(4, 3); (4, 1); (1, 3); (7, 7); (0, 7); (5, 0); (0, 0);
     (67691757, 67683530); (67699985, 67691757);
     (1000000007, 999999937); (9007199254740993, 3);
     (9223372036854775807, 9223372036854775806)].
Proof.
  repeat (apply Forall_cons; split; [vm_compute; reflexivity|]). apply Forall_nil_2.
Qed.

(** ** The order of [float64] values, [argmax], [shift] and [pct_change] *)

Lemma f64_lt_fin p q : f64_lt (fin p) (fin q) = true ↔ (p < q)%Q.
Proof.
  simpl. rewrite negb_true_iff. split.
  - intros H. apply Qnot_le_lt. intros Hle%Qle_bool_iff. congruence.
  - intros Hlt. destruct (Qle_bool q p) eqn:E; [|done].
    apply Qle_bool_iff in E. by apply Qlt_not_le in Hlt.
Qed.

Lemma f64_lt_fin_false p q : f64_lt (fin p) (fin q) = false ↔ (q <= p)%Q.
Proof.
  simpl. rewrite negb_false_iff. apply Qle_bool_iff.
Qed.

Lemma f64_lt_irrefl a : f64_lt a a = false.
Proof.
  destruct a; try done. apply f64_lt_fin_false. apply Qle_refl.
Qed.

Lemma f64_lt_asym a b : f64_lt a b = true → f64_lt b a = false.
Proof.
  destruct a, b; try done. rewrite f64_lt_fin, f64_lt_fin_false. apply Qlt_le_weak.
Qed.

Lemma f64_lt_trans a b c : f64_lt a b = true → f64_lt b c = true → f64_lt a c = true.
Proof.
  destruct a, b, c; try done. rewrite !f64_lt_fin. apply Qlt_trans.
Qed.

(** On values that are not [nan] the order is total: [b <= a] and [b < c]
    give [a < c].  *)
Lemma f64_le_lt_trans a b c :
  isna a = false → isna b = false → isna c = false →
  f64_lt b a = false → f64_lt b c = true → f64_lt a c = true.
Proof.
  destruct a, b, c; try done. intros _ _ _.
  rewrite f64_lt_fin_false, !f64_lt_fin. apply Qle_lt_trans.
Qed.

Lemma f64_le_trans a b c :
  isna a = false → isna b = false → isna c = false →
  f64_lt b a = false → f64_lt c b = false → f64_lt c a = false.
Proof.
  destruct a, b, c; try done. intros _ _ _.
  rewrite !f64_lt_fin_false. intros H1 H2. by apply Qle_trans with q0.
Qed.

(** [np.argmax]: the scan keeps the first position of the largest value
    seen. *)
Lemma argmax_from_spec xs : ∀ best_pos best pos,
  isna best = false → Forall (λ x, isna x = false) xs →
  let r := argmax_from best_pos best pos xs in
  (r = best_pos ∧ Forall (λ x, f64_lt best x = false) xs) ∨
  (∃ j v, r = (pos + j)%nat ∧ xs !! j = Some v ∧ f64_lt best v = true ∧
          (∀ j' w, (j' < j)%nat → xs !! j' = Some w → f64_lt w v = true) ∧
          Forall (λ x, f64_lt v x = false) xs).
Proof.
  induction xs as [|x xs IH]; intros best_pos best pos Hb Hxs; simpl.
  { left. by split. }
  apply Forall_cons in Hxs as [Hx Hxs].
  destruct (f64_lt best x) eqn:Hlt.
  - right. destruct (IH pos x (S pos) Hx Hxs) as [[-> Hall]|(j & v & -> & Hj & Hxv & Hfirst & Hall)].
    + exists 0%nat, x. split_and!; [lia | done | done | intros; lia |].
      constructor; [apply f64_lt_irrefl | done].
    + exists (S j), v. split_and!; [lia | done | by eapply f64_lt_trans | |].
      * intros [|j'] w Hj' Hw; simpl in Hw.
        -- by injection Hw as <-.
        -- apply (Hfirst j' w); [lia | done].
      * constructor; [by apply f64_lt_asym | done].
  - destruct (IH best_pos best (S pos) Hb Hxs) as [[-> Hall]|(j & v & -> & Hj & Hbv & Hfirst & Hall)].
    + left. split; [done | by constructor].
    + right. exists (S j), v.
      assert (Hv : isna v = false).
      { eapply Forall_lookup_1 in Hj; [|exact Hxs]. done. }
      assert (Hxv : f64_lt x v = true) by (by apply (f64_le_lt_trans x best v)).
      split_and!; [lia | done | done | |].
      * intros [|j'] w Hj' Hw; simpl in Hw.
        -- by injection Hw as <-.
        -- apply (Hfirst j' w); [lia | done].
      * constructor; [by apply f64_lt_asym | done].
Qed.

Lemma argmax_spec xs :
  xs ≠ [] → Forall (λ x, isna x = false) xs →
  ∃ v, xs !! argmax xs = Some v ∧
       Forall (λ x, f64_lt v x = false) xs ∧
       ∀ j w, (j < argmax xs)%nat → xs !! j = Some w → f64_lt w v = true.
Proof.
  destruct xs as [|x xs]; [done|]. intros _ [Hx Hxs]%Forall_cons. simpl.
  destruct (argmax_from_spec xs 0%nat x 1%nat Hx Hxs)
    as [[-> Hall]|(j & v & -> & Hj & Hxv & Hfirst & Hall)].
  - exists x. split_and!; [done | constructor; [apply f64_lt_irrefl | done] | intros; lia].
  - exists v. split_and!; [done | constructor; [by apply f64_lt_asym | done] |].
    intros [|j'] w Hj' Hw; simpl in Hw.
    + by injection Hw as <-.
    + apply (Hfirst j' w); [lia | done].
Qed.

Lemma shift_length p xs : length (shift p xs) = length xs.
Proof.
  unfold shift. rewrite length_app, length_replicate, length_fmap, length_take. lia.
Qed.

Lemma shift_lookup_lt p xs i :
  (i < p)%nat → (i < length xs)%nat → shift p xs !! i = Some None.
Proof.
  intros Hp Hl. unfold shift.
  rewrite lookup_app_l by (rewrite length_replicate; lia).
  apply lookup_replicate_2. lia.
Qed.

Lemma shift_lookup_ge p xs i :
  (p ≤ i)%nat → (i < length xs)%nat → shift p xs !! i = Some (xs !! (i - p)%nat).
Proof.
  intros Hp Hl. unfold shift.
  rewrite lookup_app_r by (rewrite length_replicate; lia).
  rewrite length_replicate, list_lookup_fmap.
  replace (p `min` length xs)%nat with p by lia.
  rewrite lookup_take_lt by lia.
  destruct (lookup_lt_is_Some_2 xs (i - p)%nat) as [y Hy]; [lia|].
  by rewrite Hy.
Qed.

Lemma pct_change_length p xs : length (pct_change p xs) = length xs.
Proof. unfold pct_change. rewrite length_zip_with, shift_length. lia. Qed.

Lemma pct_change_lookup_lt p xs i :
  (i < p)%nat → (i < length xs)%nat → pct_change p xs !! i = Some nan.
Proof.
  intros Hp Hl. unfold pct_change. rewrite lookup_zip_with.
  destruct (lookup_lt_is_Some_2 xs i Hl) as [x ->]. simpl.
  by rewrite shift_lookup_lt.
Qed.

Lemma pct_change_lookup_ge p xs i x y :
  (p ≤ i)%nat → xs !! i = Some x → xs !! (i - p)%nat = Some y →
  pct_change p xs !! i = Some (sub_one (true_div x y)).
Proof.
  intros Hp Hx Hy. unfold pct_change. rewrite lookup_zip_with, Hx. simpl.
  rewrite shift_lookup_ge by eauto using lookup_lt_Some. by rewrite Hy.
Qed.

Lemma true_div_pos x y :
  y ≠ 0 → true_div x y = fin (f64_round (to_float64 x / to_float64 y)).
Proof. intros. unfold true_div. by rewrite bool_decide_eq_false_2. Qed.

(** The quotient pandas computes, less one, against the growth relative
    to three days before: for counts below 2^53 that grow, [float64]
    keeps the sign and moves the value by at most 2^-52 of [x / y]. *)
Lemma growth_ratio x y :
  1 ≤ y → y ≤ x → x < 2 ^ 53 →
  ∃ q, sub_one (true_div x y) = fin q ∧
       (0 <= q)%Q ∧ ((0 < q)%Q ↔ y < x) ∧
       (Qabs (q - inject_Z (x - y) / inject_Z y)
        <= inject_Z x / inject_Z y * (1 # 2 ^ 52))%Q.
Proof.
  intros Hy Hyx Hx. rewrite true_div_pos by lia. simpl.
  unfold to_float64. rewrite !f64_round_int by lia.
  eexists. split; [done|].
  destruct (growth_ratio_error x y Hy Hyx Hx) as [H0 Herr].
  split_and!; [done | by apply growth_ratio_pos | done].
Qed.

Lemma isna_sub_one f : isna (sub_one f) = isna f.
Proof. by destruct f. Qed.

Lemma isna_true_div x y : isna (true_div x y) = bool_decide (x = 0 ∧ y = 0).
Proof.
  unfold true_div. repeat case_bool_decide; simpl; try done; lia.
Qed.

End SpikeFacts.

Section SpikeAnalysisFacts.
Import Time Growth Table Spike Dashboard.

Lemma pct_change_lookup_inv p xs i v :
  pct_change p xs !! i = Some v →
  ((i < p)%nat ∧ v = nan) ∨
  ((p ≤ i)%nat ∧ ∃ x y, xs !! i = Some x ∧ xs !! (i - p)%nat = Some y ∧
                        v = sub_one (true_div x y)).
Proof.
  intros Hv.
  assert (Hi : (i < length xs)%nat).
  { apply lookup_lt_Some in Hv. by rewrite pct_change_length in Hv. }
  destruct (decide (i < p)%nat) as [Hlt|Hge].
  - left. rewrite pct_change_lookup_lt in Hv by done. split; [done | congruence].
  - right. split; [lia|].
    destruct (lookup_lt_is_Some_2 xs i Hi) as [x Hx].
    destruct (lookup_lt_is_Some_2 xs (i - p)%nat) as [y Hy]; [lia|].
    exists x, y. rewrite (pct_change_lookup_ge p xs i x y) in Hv by (done || lia).
    split_and!; [done | done | congruence].
Qed.

Lemma reset_index_fst {A} (l : list A) : (reset_index l).*1 = seq 0 (length l).
Proof. unfold reset_index. apply fst_zip. by rewrite length_seq. Qed.

Lemma reset_index_snd {A} (l : list A) : (reset_index l).*2 = l.
Proof. unfold reset_index. apply snd_zip. by rewrite length_seq. Qed.

Lemma reset_index_lookup {A} (l : list A) i x :
  reset_index l !! i = Some (i, x) ↔ l !! i = Some x.
Proof.
  unfold reset_index. rewrite lookup_zip_with. split.
  - intros H. destruct (seq 0 (length l) !! i) as [j|] eqn:Hj; simpl in H; [|done].
    destruct (l !! i); simpl in H; [|done]. congruence.
  - intros H. rewrite lookup_seq_lt by eauto using lookup_lt_Some. simpl.
    by rewrite H.
Qed.

(** In a frame with a [RangeIndex] the label of a row is its position. *)
Lemma loc_range_index {A B} (l : list A) (col : list B) i :
  length col = length l →
  loc (zip (seq 0 (length l)) (zip l col)) i = zip l col !! i.
Proof.
  intros Hlen. unfold loc.
  set (rows := zip l col).
  assert (Hrows : length rows = length l).
  { unfold rows. rewrite length_zip_with. lia. }
  rewrite <-Hrows. clearbody rows. clear.
  destruct (rows !! i) as [x|] eqn:Hx.
  - assert (Hfind : list_find (λ row : nat * (A * B), row.1 = i) (zip (seq 0 (length rows)) rows)
                    = Some (i, (i, x))).
    { apply list_find_Some. split_and!.
      - rewrite lookup_zip_with, lookup_seq_lt by eauto using lookup_lt_Some.
        simpl. by rewrite Hx.
      - done.
      - intros j [k y] Hj Hlt. simpl. intros ->.
        rewrite lookup_zip_with in Hj.
        destruct (seq 0 (length rows) !! j) as [k|] eqn:Hk; [|done].
        apply lookup_seq in Hk as [-> _]. simpl in Hj.
        destruct (rows !! j); simpl in Hj; [|done]. injection Hj as -> _. lia. }
    by rewrite Hfind.
  - assert (Hfind : list_find (λ row : nat * (A * B), row.1 = i) (zip (seq 0 (length rows)) rows)
                    = None).
    { apply list_find_None. apply Forall_forall. intros [k y] Hin. simpl. intros ->.
      apply list_elem_of_lookup in Hin as [j Hj].
      rewrite lookup_zip_with in Hj.
      destruct (seq 0 (length rows) !! j) as [k|] eqn:Hk; [|done].
      apply lookup_seq in Hk as [-> _]. simpl in Hj.
      destruct (rows !! j) eqn:E; simpl in Hj; [|done]. injection Hj as -> _.
      simpl in E. congruence. }
    by rewrite Hfind.
Qed.

Lemma forallb_isna_false xs :
  forallb isna xs = false ↔ ∃ i v, xs !! i = Some v ∧ isna v = false.
Proof.
  induction xs as [|x xs IH]; simpl.
  - split; [done | intros (i & v & H & _); done].
  - rewrite andb_false_iff, IH. split.
    + intros [Hx|(i & v & Hi & Hv)]; [by exists 0%nat, x | by exists (S i), v].
    + intros ([|i] & v & Hi & Hv); simpl in Hi; [left; congruence | right; eauto].
Qed.

Lemma forallb_isna_true xs :
  forallb isna xs = true ↔ Forall (λ v, v = nan) xs.
Proof.
  rewrite forallb_forall, Forall_forall. split.
  - intros H v Hv%list_elem_of_In. specialize (H v Hv). by destruct v.
  - intros H v Hv%list_elem_of_In. by rewrite (H v Hv).
Qed.

Lemma pct_change_no_neg_inf p xs i v :
  Forall (λ x, 0 ≤ x) xs → pct_change p xs !! i = Some v → v ≠ neg_inf.
Proof.
  intros Hpos [[_ ->]|(_ & x & y & Hx & _ & ->)]%pct_change_lookup_inv; [done|].
  eapply Forall_lookup_1 in Hx; [|exact Hpos]. simpl in Hx.
  unfold true_div. repeat case_bool_decide; simpl; try done. lia.
Qed.

(** [idxmax] on the percentage column of counts: it lands on the first
    position of the largest value that is not [nan]. *)
Lemma nanargmax_pct_change xs :
  Forall (λ x, 0 ≤ x) xs →
  forallb isna (pct_change 3 xs) = false →
  ∃ v, pct_change 3 xs !! nanargmax (pct_change 3 xs) = Some v ∧
       isna v = false ∧
       (∀ j w, pct_change 3 xs !! j = Some w → isna w = false → f64_lt v w = false) ∧
       (∀ j w, (j < nanargmax (pct_change 3 xs))%nat →
               pct_change 3 xs !! j = Some w → isna w = false → f64_lt w v = true).
Proof.
  intros Hpos Hsome. set (pct := pct_change 3 xs) in *.
  set (fill := λ x, if isna x then neg_inf else x).
  assert (Hfilled : Forall (λ x, isna x = false) (fill <$> pct)).
  { apply Forall_fmap, Forall_forall. intros x _. unfold fill. simpl. by destruct x. }
  assert (Hne : fill <$> pct ≠ []).
  { apply forallb_isna_false in Hsome as (i & v & Hi & _).
    intros Hnil%fmap_nil_inv. by rewrite Hnil in Hi. }
  destruct (argmax_spec (fill <$> pct) Hne Hfilled) as (m & Hm & Hmax & Hfirst).
  change (argmax (fill <$> pct)) with (nanargmax pct) in Hm, Hfirst.
  rewrite list_lookup_fmap in Hm.
  destruct (pct !! nanargmax pct) as [v|] eqn:Hv; simpl in Hm; [|done].
  injection Hm as <-.
  assert (Hnotna : isna v = false).
  { destruct (isna v) eqn:Hna; [|done]. exfalso.
    apply forallb_isna_false in Hsome as (i & w & Hi & Hw).
    assert (Hfw : fill w = w) by (unfold fill; by rewrite Hw).
    eapply Forall_lookup_1 in Hmax; [|by rewrite list_lookup_fmap, Hi].
    simpl in Hmax. rewrite Hfw in Hmax. unfold fill in Hmax. rewrite Hna in Hmax.
    pose proof (pct_change_no_neg_inf 3 xs i w Hpos Hi).
    by destruct w. }
  assert (Hfv : fill v = v) by (unfold fill; by rewrite Hnotna).
  rewrite Hfv in Hmax, Hfirst.
  exists v. split_and!; [done | done | |].
  - intros j w Hj Hw.
    eapply Forall_lookup_1 in Hmax; [|by rewrite list_lookup_fmap, Hj].
    simpl in Hmax. unfold fill in Hmax. by rewrite Hw in Hmax.
  - intros j w Hlt Hj Hw.
    specialize (Hfirst j (fill w) Hlt). rewrite list_lookup_fmap, Hj in Hfirst.
    specialize (Hfirst eq_refl). unfold fill in Hfirst. by rewrite Hw in Hfirst.
Qed.

(** The analysis on a freshly indexed frame, step by step. *)
Lemma spike_analysis_reset_index pts posts_df :
  spike_analysis (reset_index pts) posts_df
  = let pct := pct_change 3 (total_subscribers <$> pts) in
    if forallb isna pct then NotEnoughData
    else match zip pts pct !! nanargmax pct with
         | None => KeyError
         | Some (point, max_val) =>
             TopWindow (created_at point - Timedelta_days 3) (created_at point) max_val
               (find_catalysts (created_at point - Timedelta_days 3)
                  (created_at point) posts_df)
         end.
Proof.
  unfold spike_analysis.
  rewrite list_fmap_compose, reset_index_snd, reset_index_fst. simpl.
  set (pct := pct_change 3 (total_subscribers <$> pts)).
  destruct (forallb isna pct) eqn:Hall; [done|].
  assert (Hlen : length pct = length pts).
  { unfold pct. by rewrite pct_change_length, length_fmap. }
  destruct (seq 0 (length pts) !! nanargmax pct) as [k|] eqn:Hk.
  - apply lookup_seq in Hk as [Hk _]. simpl in Hk. subst k.
    by rewrite (loc_range_index pts pct) by done.
  - apply lookup_ge_None in Hk. rewrite length_seq in Hk.
    rewrite (proj2 (lookup_ge_None (zip pts pct) _)); [done|].
    rewrite length_zip_with. lia.
Qed.

End SpikeAnalysisFacts.

(** * Facts about [sort_values] *)

Section SortingFacts.
Import Sorting.

Lemma take_rows_seq_from {A} (rows : list A) : ∀ pre,
  take_rows (seq (length pre) (length rows)) (pre ++ rows) = rows.
Proof.
  unfold take_rows. induction rows as [|r rows IH]; intros pre; [done|].
  simpl. rewrite list_lookup_middle by done. f_equal.
  specialize (IH (pre ++ [r])).
  rewrite length_app, Nat.add_1_r, <-app_assoc in IH. exact IH.
Qed.

Lemma take_rows_seq {A} (rows : list A) : take_rows (seq 0 (length rows)) rows = rows.
Proof. apply (take_rows_seq_from rows []). Qed.

Lemma take_rows_fmap {A B} (f : A → B) idx (rows : list A) :
  take_rows idx (f <$> rows) = f <$> take_rows idx rows.
Proof.
  unfold take_rows. induction idx as [|i idx IH]; [done|]. simpl.
  rewrite list_lookup_fmap. fold (omap (λ i, (f <$> rows) !! i) idx).
  fold (omap (λ i, rows !! i) idx). rewrite IH. by destruct (rows !! i).
Qed.

Lemma take_rows_Permutation {A} idx (rows : list A) :
  idx ≡ₚ seq 0 (length rows) → take_rows idx rows ≡ₚ rows.
Proof.
  intros Hperm. pose proof (take_rows_seq rows) as Hid. unfold take_rows in *.
  rewrite Hperm. by rewrite Hid.
Qed.

Lemma take_rows_lookup {A} idx (rows : list A) j i :
  Forall (λ i, (i < length rows)%nat) idx →
  idx !! j = Some i → take_rows idx rows !! j = rows !! i.
Proof.
  unfold take_rows. revert j. induction idx as [|i0 idx IH]; intros j Hall Hj; [done|].
  apply Forall_cons in Hall as [Hi0 Hall].
  destruct (lookup_lt_is_Some_2 rows i0 Hi0) as [x Hx]. simpl. rewrite Hx.
  destruct j as [|j]; simpl in *; [congruence | by apply IH].
Qed.

Lemma Permutation_seq_bound idx n :
  idx ≡ₚ seq 0 n → Forall (λ i, (i < n)%nat) idx.
Proof.
  intros Hperm. apply Forall_forall. intros i Hi. rewrite Hperm in Hi.
  apply elem_of_seq in Hi. lia.
Qed.

Section WithContract.
Context (argsort : list Z → list nat) (Hspec : argsort_spec argsort).
Context {A : Type} (by_ : A → Z).

Lemma sort_values_Permutation (rows : list A) :
  sort_values argsort by_ rows ≡ₚ rows.
Proof.
  unfold sort_values. apply take_rows_Permutation.
  destruct (Hspec (by_ <$> rows)) as [Hperm _]. by rewrite length_fmap in Hperm.
Qed.

Lemma sort_values_Sorted (rows : list A) :
  Sorted Z.le (by_ <$> sort_values argsort by_ rows).
Proof.
  unfold sort_values. rewrite <-take_rows_fmap. apply Hspec.
Qed.

Lemma sort_values_length (rows : list A) :
  length (sort_values argsort by_ rows) = length rows.
Proof. apply Permutation_length, sort_values_Permutation. Qed.

Lemma sort_values_elem_of (rows : list A) x :
  x ∈ sort_values argsort by_ rows ↔ x ∈ rows.
Proof. by rewrite sort_values_Permutation. Qed.

(** Sorting rows whose keys already increase strictly changes nothing. *)
Lemma sort_values_increasing (rows : list A) :
  StronglySorted Z.lt (by_ <$> rows) → sort_values argsort by_ rows = rows.
Proof.
  intros Hinc. unfold sort_values.
  set (keys := by_ <$> rows) in *.
  destruct (Hspec keys) as [Hperm Hsorted].
  assert (Hbound : Forall (λ i, (i < length keys)%nat) (argsort keys))
    by (by apply Permutation_seq_bound).
  assert (Hkeys : take_rows (argsort keys) keys = keys).
  { apply (Sorted_unique Z.le); [done | | by apply take_rows_Permutation].
    apply StronglySorted_Sorted. clear -Hinc.
    induction Hinc as [|k ks _ IH Hall]; constructor; [done|].
    eapply Forall_impl; [exact Hall|]. intros; simpl in *; lia. }
  assert (Hnodup : NoDup keys).
  { clear -Hinc. induction Hinc as [|k ks _ IH Hall]; constructor; [|done].
    intros Hin. eapply Forall_forall in Hall; [|exact Hin]. lia. }
  assert (Hid : argsort keys = seq 0 (length keys)).
  { apply list_eq_same_length with (length keys).
    { by rewrite length_seq. }
    { apply Permutation_length in Hperm. by rewrite length_seq in Hperm. }
    intros j i i' Hj Hi Hi'. apply lookup_seq in Hi' as [-> _]. simpl.
    assert (Hk : keys !! i = keys !! j).
    { rewrite <-(take_rows_lookup (argsort keys) keys j i) by done.
      by rewrite Hkeys. }
    eapply Forall_lookup_1 in Hbound; [|exact Hi]. simpl in Hbound.
    destruct (lookup_lt_is_Some_2 keys i Hbound) as [k Hki].
    eapply NoDup_lookup; [exact Hnodup | exact Hki | by rewrite <-Hk]. }
  rewrite Hid. unfold keys. rewrite length_fmap. apply take_rows_seq.
Qed.
End WithContract.

(** The stable sorter meets the contract. *)

#[local] Instance key_le_total : Total key_le.
Proof. intros a b. unfold key_le. lia. Qed.

Lemma enumerate_lookup keys k i :
  (k, i) ∈ enumerate keys → keys !! i = Some k.
Proof.
  unfold enumerate. intros [j Hj]%list_elem_of_lookup.
  rewrite lookup_zip_with in Hj.
  destruct (keys !! j) as [k'|] eqn:Hk; simpl in Hj; [|done].
  destruct (seq 0 (length keys) !! j) as [i'|] eqn:Hi; simpl in Hj; [|done].
  apply lookup_seq in Hi as [-> _]. simpl in Hj. congruence.
Qed.

Lemma enumerate_snd keys : (enumerate keys).*2 = seq 0 (length keys).
Proof. unfold enumerate. apply snd_zip. by rewrite length_seq. Qed.

Lemma take_rows_enumerated keys (pairs : list (Z * nat)) :
  Forall (λ p, keys !! p.2 = Some p.1) pairs → take_rows pairs.*2 keys = pairs.*1.
Proof.
  unfold take_rows. intros H. induction pairs as [|[k i] pairs IH]; [done|].
  apply Forall_cons in H as [Hp H]. simpl in Hp.
  simpl. rewrite Hp. simpl. f_equal. by apply IH.
Qed.

Lemma argsort_by_merge_sort (R : relation (Z * nat)) `{!RelDecision R, !Total R} :
  (∀ a b, R a b → a.1 ≤ b.1) →
  argsort_spec (λ keys, (merge_sort R (enumerate keys)).*2).
Proof.
  intros HR keys. split.
  - rewrite merge_sort_Permutation. by rewrite enumerate_snd.
  - rewrite take_rows_enumerated.
    + pose proof (Sorted_merge_sort R (enumerate keys)) as Hs.
      induction Hs as [|p l _ IH Hhd]; [constructor|].
      simpl. constructor; [done|].
      destruct Hhd as [|q l Hpq]; constructor. by apply HR.
    + apply Forall_forall. intros [k i] Hin. simpl.
      rewrite merge_sort_Permutation in Hin. by apply enumerate_lookup.
Qed.

Lemma argsort_stable_spec : argsort_spec argsort_stable.
Proof. apply (argsort_by_merge_sort key_le). unfold key_le. intros; lia. Qed.

(** And it is stable: of two positions with equal keys the smaller comes
    first. *)
Lemma argsort_stable_ties keys i j k :
  before (argsort_stable keys) i j →
  keys !! i = Some k → keys !! j = Some k → (i < j)%nat.
Proof.
  intros (m & n & Hmn & Hm & Hn) Hi Hj. unfold argsort_stable in Hm, Hn.
  rewrite list_lookup_fmap in Hm, Hn.
  destruct (merge_sort key_le (enumerate keys) !! m) as [[ki i']|] eqn:Em; [|done].
  destruct (merge_sort key_le (enumerate keys) !! n) as [[kj j']|] eqn:En; [|done].
  simpl in Hm, Hn. injection Hm as ->. injection Hn as ->.
  assert (Hki : keys !! i = Some ki).
  { apply enumerate_lookup. rewrite <-(merge_sort_Permutation key_le).
    by eapply list_elem_of_lookup_2. }
  assert (Hkj : keys !! j = Some kj).
  { apply enumerate_lookup. rewrite <-(merge_sort_Permutation key_le).
    by eapply list_elem_of_lookup_2. }
  assert (ki = k) as -> by congruence. assert (kj = k) as -> by congruence.
  assert (Htrans : Transitive key_le).
  { intros x y z. unfold key_le. lia. }
  pose proof (StronglySorted_merge_sort key_le (enumerate keys)) as Hs.
  assert (Hle : key_le (k, i) (k, j)).
  { clear -Hs Em En Hmn. revert m n Hmn Em En.
    induction Hs as [|x l _ IH Hall]; intros m n Hmn Em En; [done|].
    destruct m as [|m], n as [|n]; try lia; simpl in Em, En.
    - injection Em as ->. eapply Forall_lookup_1 in Hall; [|exact En]. done.
    - apply (IH m n); [lia | done | done]. }
  assert (Hne : i ≠ j).
  { intros ->.
    assert (Hnd : NoDup (merge_sort key_le (enumerate keys)).*2).
    { rewrite merge_sort_Permutation, enumerate_snd. apply NoDup_seq. }
    assert (m = n); [|lia].
    apply (NoDup_lookup _ m n j Hnd); rewrite list_lookup_fmap.
    - by rewrite Em.
    - by rewrite En. }
  unfold key_le in Hle. simpl in Hle. lia.
Qed.

End SortingFacts.

(** * The daily series: density, monotonicity, totals *)

Section GrowthTheorems.
Import Time Growth.

Lemma nth_day_last lo hi :
  lo ≤ hi → nth_day (floor_D lo) (Z.to_nat (day_of hi - day_of lo)) = floor_D hi.
Proof.
  intros Hle. pose proof (day_of_mono lo hi Hle). unfold nth_day, floor_D.
  rewrite Z2Nat.id by lia. lia.
Qed.

Lemma nth_day_floor lo k :
  nth_day (floor_D lo) k = (day_of lo + Z.of_nat k) * ns_per_day.
Proof. unfold nth_day, floor_D. lia. Qed.

(** A bin holds the events whose calendar day is the day of its label. *)
Lemma in_bin_floor_D lo k t :
  in_bin (nth_day (floor_D lo) k) t ↔ floor_D t = nth_day (floor_D lo) k.
Proof.
  unfold in_bin. rewrite nth_day_floor, day_of_unique. unfold floor_D.
  pose proof ns_per_day_pos as Hpos. split; [by intros -> | intros Heq; nia].
Qed.

Lemma bin_size_day lo k ts :
  bin_size ts (nth_day (floor_D lo) k)
  = Z.of_nat (length (filter (λ t, floor_D t = nth_day (floor_D lo) k) ts)).
Proof.
  unfold bin_size. f_equal. f_equal.
  induction ts as [|t ts IH]; [done|].
  rewrite !filter_cons, IH.
  destruct (decide (in_bin _ t)) as [Hin|Hout], (decide (floor_D t = _)) as [Heq|Hne];
    try done; by apply in_bin_floor_D in Hin || apply in_bin_floor_D in Heq.
Qed.

Lemma new_subscribers_lookup ts lo hi k :
  series_min ts = Some lo → series_max ts = Some hi →
  (k < S (Z.to_nat (day_of hi - day_of lo)))%nat →
  new_subscribers ts !! k = Some (bin_size ts (nth_day (floor_D lo) k)).
Proof.
  intros Hlo Hhi Hk. unfold new_subscribers.
  rewrite (resample_D_size_eq ts lo hi Hlo Hhi), <-!list_fmap_compose.
  rewrite list_lookup_fmap, lookup_seq_lt by done. done.
Qed.

Lemma events_in_range ts lo hi t :
  series_min ts = Some lo → series_max ts = Some hi → t ∈ ts →
  floor_D lo ≤ t < nth_day (floor_D lo) (S (Z.to_nat (day_of hi - day_of lo))).
Proof.
  intros [_ Hlo]%series_min_spec [Hhi_in Hhi]%series_max_spec Hin.
  pose proof (Hlo t Hin). pose proof (Hhi t Hin).
  rewrite nth_day_S, nth_day_last by lia.
  pose proof (floor_D_le lo). pose proof (floor_D_lt hi). lia.
Qed.

Lemma daily_growth_total_step ts lo k :
  count_between ts (floor_D lo) (nth_day (floor_D lo) (S k))
  = count_between ts (floor_D lo) (nth_day (floor_D lo) k)
    + bin_size ts (nth_day (floor_D lo) k).
Proof.
  rewrite bin_size_count, <-nth_day_S. symmetry. apply count_between_split.
  - apply nth_day_ge.
  - apply nth_day_mono. lia.
Qed.

Lemma daily_growth_total_mono ts i j p q :
  (i ≤ j)%nat →
  daily_growth ts !! i = Some p → daily_growth ts !! j = Some q →
  total_subscribers p ≤ total_subscribers q.
Proof.
  intros Hij Hp Hq.
  assert (Hne : ts ≠ []) by (intros ->; done).
  destruct (series_min_is_Some ts Hne) as [lo Hlo].
  destruct (series_max_is_Some ts Hne) as [hi Hhi].
  destruct (daily_growth_closed_form ts lo hi Hlo Hhi) as [Hlen Hrow].
  assert (Hj : (j < S (Z.to_nat (day_of hi - day_of lo)))%nat).
  { rewrite <-Hlen. eauto using lookup_lt_Some. }
  rewrite Hrow in Hp, Hq by lia. injection Hp as <-. injection Hq as <-. simpl.
  rewrite <-(count_between_split ts (floor_D lo) (nth_day (floor_D lo) (S i))
               (nth_day (floor_D lo) (S j))).
  - pose proof (count_between_nonneg ts (nth_day (floor_D lo) (S i))
                  (nth_day (floor_D lo) (S j))). lia.
  - apply nth_day_ge.
  - apply nth_day_mono. lia.
Qed.

Lemma daily_growth_last_total ts p :
  last (daily_growth ts) = Some p → total_subscribers p = Z.of_nat (length ts).
Proof.
  intros Hp.
  assert (Hne : ts ≠ []) by (intros ->; done).
  destruct (series_min_is_Some ts Hne) as [lo Hlo].
  destruct (series_max_is_Some ts Hne) as [hi Hhi].
  destruct (daily_growth_closed_form ts lo hi Hlo Hhi) as [Hlen Hrow].
  rewrite last_lookup, Hlen in Hp. simpl in Hp.
  rewrite Hrow in Hp by lia. injection Hp as <-. simpl.
  apply count_between_all. intros t Ht. by apply (events_in_range ts lo hi).
Qed.

Lemma daily_growth_total_le_length ts i p :
  daily_growth ts !! i = Some p → total_subscribers p ≤ Z.of_nat (length ts).
Proof.
  intros Hp.
  destruct (last (daily_growth ts)) as [z|] eqn:Hlast.
  - rewrite <-(daily_growth_last_total ts z Hlast).
    rewrite last_lookup in Hlast.
    apply (daily_growth_total_mono ts i (pred (length (daily_growth ts))) p z);
      [|done|done].
    apply lookup_lt_Some in Hp. lia.
  - apply last_None in Hlast. by rewrite Hlast in Hp.
Qed.

(** C2: for every sequence of subscriber events the cumulative column of the
    daily series never decreases from one row to a later one, and the value
    in its last row is the number of events in the input (a non-empty input
    has a last row). *)
Theorem C2_cumulative_nondecreasing_and_total (ts : list Z) :
  (∀ i j p q, (i ≤ j)%nat →
     daily_growth ts !! i = Some p → daily_growth ts !! j = Some q →
     total_subscribers p ≤ total_subscribers q) ∧
  (∀ p, last (daily_growth ts) = Some p →
     total_subscribers p = Z.of_nat (length ts)) ∧
  (ts ≠ [] → is_Some (last (daily_growth ts))).
Proof.
  destruct (decide (ts = [])) as [->|Hne].
  { split_and!; [by intros i j p q _ H | by intros p H | done]. }
  destruct (series_min_is_Some ts Hne) as [lo Hlo].
  destruct (series_max_is_Some ts Hne) as [hi Hhi].
  destruct (daily_growth_closed_form ts lo hi Hlo Hhi) as [Hlen Hrow].
  split_and!.
  - intros i j p q. apply daily_growth_total_mono.
  - apply daily_growth_last_total.
  - intros _. rewrite last_lookup, Hlen. simpl. rewrite Hrow by lia. by eexists.
Qed.

(** C3: the daily series is dense.  An empty input gives no rows and a single
    event one row with cumulative count 1.  For a non-empty input with
    earliest event [lo] and latest [hi] the series has
    [(floor hi - floor lo) / 1 day + 1] rows, starts at the day of [lo], ends
    at the day of [hi], and row [k] is the [k]-th day after the first: its
    per-day count is the number of events of that calendar day, its cumulative
    count is the previous row's plus that count, and a day without events has
    count 0 and repeats the previous row's cumulative count. *)
Theorem C3_daily_series_dense (ts : list Z) :
  daily_growth [] = [] ∧
  (∀ t, daily_growth [t] = [mkPoint (floor_D t) 1]) ∧
  (∀ lo hi, series_min ts = Some lo → series_max ts = Some hi →
     Z.of_nat (length (daily_growth ts))
       = (floor_D hi - floor_D lo) `div` ns_per_day + 1 ∧
     created_at <$> head (daily_growth ts) = Some (floor_D lo) ∧
     created_at <$> last (daily_growth ts) = Some (floor_D hi) ∧
     ∀ k p, daily_growth ts !! k = Some p →
       created_at p = floor_D lo + Z.of_nat k * ns_per_day ∧
       ∃ new,
         new_subscribers ts !! k = Some new ∧
         new = Z.of_nat (length (filter (λ t, floor_D t = created_at p) ts)) ∧
         (k = 0%nat → total_subscribers p = new) ∧
         (∀ k' q, k = S k' → daily_growth ts !! k' = Some q →
            total_subscribers p = total_subscribers q + new) ∧
         ((∀ t, t ∈ ts → floor_D t ≠ created_at p) →
            new = 0 ∧
            ∃ k' q, k = S k' ∧ daily_growth ts !! k' = Some q ∧
                    total_subscribers p = total_subscribers q)).
Proof.
  assert (Hgen : ∀ ts lo hi, series_min ts = Some lo → series_max ts = Some hi →
     Z.of_nat (length (daily_growth ts))
       = (floor_D hi - floor_D lo) `div` ns_per_day + 1 ∧
     created_at <$> head (daily_growth ts) = Some (floor_D lo) ∧
     created_at <$> last (daily_growth ts) = Some (floor_D hi) ∧
     ∀ k p, daily_growth ts !! k = Some p →
       created_at p = floor_D lo + Z.of_nat k * ns_per_day ∧
       ∃ new,
         new_subscribers ts !! k = Some new ∧
         new = Z.of_nat (length (filter (λ t, floor_D t = created_at p) ts)) ∧
         (k = 0%nat → total_subscribers p = new) ∧
         (∀ k' q, k = S k' → daily_growth ts !! k' = Some q →
            total_subscribers p = total_subscribers q + new) ∧
         ((∀ t, t ∈ ts → floor_D t ≠ created_at p) →
            new = 0 ∧
            ∃ k' q, k = S k' ∧ daily_growth ts !! k' = Some q ∧
                    total_subscribers p = total_subscribers q)).
  { clear ts. intros ts lo hi Hlo Hhi.
    pose proof (series_min_le_max ts lo hi Hlo Hhi) as Hle.
    pose proof (day_of_mono lo hi Hle) as Hday.
    destruct (daily_growth_closed_form ts lo hi Hlo Hhi) as [Hlen Hrow].
    set (n := Z.to_nat (day_of hi - day_of lo)) in *.
    split_and!.
    - rewrite Hlen. unfold floor_D. rewrite <-Z.mul_sub_distr_r, Z.div_mul
        by (pose proof ns_per_day_pos; lia). unfold n. lia.
    - rewrite head_lookup, Hrow by lia. simpl. f_equal. unfold nth_day. lia.
    - rewrite last_lookup, Hlen. simpl. rewrite Hrow by lia. simpl. f_equal.
      by apply nth_day_last.
    - intros k p Hp.
      assert (Hk : (k < S n)%nat) by (rewrite <-Hlen; eauto using lookup_lt_Some).
      rewrite Hrow in Hp by done. injection Hp as <-. simpl.
      split; [done|].
      exists (bin_size ts (nth_day (floor_D lo) k)).
      assert (Hzero : count_between ts (floor_D lo) (nth_day (floor_D lo) 0) = 0).
      { apply count_between_zero. intros t _. unfold nth_day. lia. }
      split_and!.
      + by apply (new_subscribers_lookup ts lo hi).
      + apply bin_size_day.
      + intros ->. rewrite daily_growth_total_step. lia.
      + intros k' q -> Hq. rewrite Hrow in Hq by lia. injection Hq as <-. simpl.
        apply daily_growth_total_step.
      + intros Hnone.
        assert (Hbin : bin_size ts (nth_day (floor_D lo) k) = 0).
        { rewrite bin_size_count. apply count_between_zero. intros t Ht Hin.
          apply (Hnone t Ht). by apply in_bin_floor_D. }
        split; [done|].
        destruct k as [|k'].
        * exfalso. apply series_min_spec in Hlo as [Hlo _].
          apply (Hnone lo Hlo). unfold nth_day. lia.
        * exists k', (mkPoint (nth_day (floor_D lo) k')
                       (count_between ts (floor_D lo) (nth_day (floor_D lo) (S k')))).
          split_and!; [done | apply Hrow; lia |]. simpl.
          rewrite (daily_growth_total_step ts lo (S k')). lia. }
  split_and!; [done | | apply Hgen].
  intros t.
  destruct (Hgen [t] t t eq_refl eq_refl) as (Hlen & _ & _ & Hrows).
  rewrite Z.sub_diag, Z.div_0_l in Hlen by done.
  destruct (daily_growth [t]) as [|p [|p' rest]] eqn:E; simpl in Hlen; try lia.
  destruct (Hrows 0%nat p eq_refl) as (Hdate & new & _ & Hnew & Hfirst & _).
  specialize (Hfirst eq_refl). f_equal. destruct p as [d c]. simpl in *.
  f_equal; [lia|]. rewrite Hfirst, Hnew.
  rewrite filter_cons, decide_True by lia. done.
Qed.

End GrowthTheorems.

(** * The spike detector *)

Section SpikeTheorems.
Import Time Growth Table Spike Dashboard.

Lemma daily_growth_total_pos ts p :
  p ∈ daily_growth ts → 1 ≤ total_subscribers p.
Proof.
  intros [k Hk]%list_elem_of_lookup.
  assert (Hne : ts ≠ []) by (intros ->; done).
  destruct (series_min_is_Some ts Hne) as [lo Hlo].
  destruct (series_max_is_Some ts Hne) as [hi Hhi].
  destruct (daily_growth_closed_form ts lo hi Hlo Hhi) as [Hlen Hrow].
  rewrite Hrow in Hk by (rewrite <-Hlen; eauto using lookup_lt_Some).
  injection Hk as <-. simpl.
  apply series_min_spec in Hlo as [Hlo _].
  apply (count_between_pos ts _ _ lo Hlo).
  pose proof (floor_D_le lo). pose proof (floor_D_lt lo).
  pose proof (nth_day_mono (floor_D lo) 1 (S k) ltac:(lia)).
  unfold nth_day in *. lia.
Qed.

(** With a denominator that is not zero the ratio is a number: the
    [float64] value of [a / b - 1]. *)
Lemma pct_change_3_defined xs i a b :
  (3 ≤ i)%nat → xs !! i = Some a → xs !! (i - 3)%nat = Some b → b ≠ 0 →
  ∃ q, pct_change 3 xs !! i = Some (fin q) ∧ sub_one (true_div a b) = fin q.
Proof.
  intros Hi Ha Hb Hb0.
  rewrite (pct_change_lookup_ge 3 xs i a b) by done.
  rewrite true_div_pos by done. simpl. by eexists.
Qed.

(** C10: for every subscriber input every cumulative value of the daily
    series is at least 1, so from the fourth row on the three-day ratio
    divides by a count that is not zero and is a proper number. *)
Theorem C10_cumulative_positive_ratio_defined (ts : list Z) :
  let cum := total_subscribers <$> daily_growth ts in
  Forall (λ c, 1 ≤ c) cum ∧
  (∀ i, (3 ≤ i)%nat → (i < length cum)%nat →
     ∃ b q, cum !! (i - 3)%nat = Some b ∧ b ≠ 0 ∧
            pct_change 3 cum !! i = Some (fin q)).
Proof.
  intros cum.
  assert (Hpos : Forall (λ c, 1 ≤ c) cum).
  { apply Forall_fmap, Forall_forall. intros p Hp. simpl.
    by apply (daily_growth_total_pos ts). }
  split; [done|]. intros i Hi Hlen.
  destruct (lookup_lt_is_Some_2 cum i Hlen) as [a Ha].
  destruct (lookup_lt_is_Some_2 cum (i - 3)%nat) as [b Hb]; [lia|].
  assert (Hb0 : b ≠ 0).
  { eapply Forall_lookup_1 in Hb; [|exact Hpos]. simpl in Hb. lia. }
  destruct (pct_change_3_defined cum i a b Hi Ha Hb Hb0) as (q & Hq & _).
  by exists b, q.
Qed.

(** The detector on any series of counts that are not negative: unless the
    whole percentage column is [nan] it reports the row of the first largest
    value that is not [nan]. *)
Lemma spike_analysis_selects pts posts_df :
  Forall (λ p, 0 ≤ total_subscribers p) pts →
  let pct := pct_change 3 (total_subscribers <$> pts) in
  forallb isna pct = false →
  ∃ i p v,
    (3 ≤ i)%nat ∧ pts !! i = Some p ∧ pct !! i = Some v ∧ isna v = false ∧
    spike_analysis (reset_index pts) posts_df
      = TopWindow (created_at p - Timedelta_days 3) (created_at p) v
          (find_catalysts (created_at p - Timedelta_days 3) (created_at p) posts_df) ∧
    (∀ j w, pct !! j = Some w → isna w = false → f64_lt v w = false) ∧
    (∀ j w, (j < i)%nat → pct !! j = Some w → isna w = false → f64_lt w v = true).
Proof.
  intros Hpos pct Hsome.
  assert (Hpos' : Forall (λ x, 0 ≤ x) (total_subscribers <$> pts)) by (by apply Forall_fmap).
  destruct (nanargmax_pct_change _ Hpos' Hsome) as (v & Hv & Hna & Hmax & Hfirst).
  fold pct in Hv, Hmax, Hfirst.
  set (i := nanargmax pct) in *.
  assert (Hi : (i < length pts)%nat).
  { apply lookup_lt_Some in Hv. unfold pct in Hv.
    by rewrite pct_change_length, length_fmap in Hv. }
  destruct (lookup_lt_is_Some_2 pts i Hi) as [p Hp].
  exists i, p, v. split_and!; try done.
  - destruct (decide (3 ≤ i)%nat) as [|Hlt]; [done|]. exfalso.
    unfold pct in Hv. rewrite pct_change_lookup_lt in Hv
      by (rewrite ?length_fmap; lia).
    injection Hv as <-. done.
  - rewrite spike_analysis_reset_index. simpl. fold pct. rewrite Hsome. fold i.
    by rewrite lookup_zip_with, Hp, Hv.
Qed.

Lemma spike_analysis_not_enough pts posts_df :
  Forall (λ p, 0 ≤ total_subscribers p) pts →
  spike_analysis (reset_index pts) posts_df = NotEnoughData
  ↔ Forall (λ r, r = nan) (pct_change 3 (total_subscribers <$> pts)).
Proof.
  intros Hpos. rewrite <-forallb_isna_true.
  destruct (forallb isna (pct_change 3 (total_subscribers <$> pts))) eqn:Hall.
  - rewrite spike_analysis_reset_index. simpl. by rewrite Hall.
  - destruct (spike_analysis_selects pts posts_df Hpos Hall)
      as (i & p & v & _ & _ & _ & _ & -> & _). done.
Qed.

Lemma pct_change_3_ratio pts i a b :
  Forall (λ p, 1 ≤ total_subscribers p) pts →
  (3 ≤ i)%nat →
  (total_subscribers <$> pts) !! i = Some a →
  (total_subscribers <$> pts) !! (i - 3)%nat = Some b →
  ∃ q, pct_change 3 (total_subscribers <$> pts) !! i = Some (fin q) ∧
       sub_one (true_div a b) = fin q.
Proof.
  intros Hpos Hi Ha Hb. apply pct_change_3_defined; try done.
  rewrite list_lookup_fmap in Hb.
  destruct (pts !! (i - 3)%nat) as [p|] eqn:Hp; simpl in Hb; [|done].
  injection Hb as <-.
  eapply Forall_lookup_1 in Hp; [|exact Hpos]. simpl in Hp. lia.
Qed.

(** With counts of at least 1 the percentage column is all [nan] exactly
    when the series has fewer than four rows. *)
Lemma pct_change_all_nan_iff_short pts :
  Forall (λ p, 1 ≤ total_subscribers p) pts →
  Forall (λ r, r = nan) (pct_change 3 (total_subscribers <$> pts))
  ↔ (length pts < 4)%nat.
Proof.
  intros Hpos. set (c := total_subscribers <$> pts). split.
  - intros Hall. destruct (decide (length pts < 4)%nat) as [|Hge]; [done|]. exfalso.
    destruct (lookup_lt_is_Some_2 c 3) as [a Ha]; [unfold c; rewrite length_fmap; lia|].
    destruct (lookup_lt_is_Some_2 c 0) as [b Hb]; [unfold c; rewrite length_fmap; lia|].
    destruct (pct_change_3_ratio pts 3%nat a b Hpos ltac:(lia) Ha Hb) as (q & Hq & _).
    eapply Forall_lookup_1 in Hq; [|exact Hall]. done.
  - intros Hlt. apply Forall_lookup. intros i r Hr.
    assert (Hi : (i < length pts)%nat).
    { apply lookup_lt_Some in Hr. unfold c in Hr.
      by rewrite pct_change_length, length_fmap in Hr. }
    rewrite pct_change_lookup_lt in Hr by (unfold c; rewrite ?length_fmap; lia).
    congruence.
Qed.

(** With counts of at least 1 and four rows or more the detector reports
    the first row whose ratio is the largest. *)
Lemma spike_analysis_positive_selects pts posts_df :
  Forall (λ p, 1 ≤ total_subscribers p) pts →
  (4 ≤ length pts)%nat →
  let pct := pct_change 3 (total_subscribers <$> pts) in
  ∃ i p q,
    (3 ≤ i)%nat ∧ pts !! i = Some p ∧ pct !! i = Some (fin q) ∧
    spike_analysis (reset_index pts) posts_df
      = TopWindow (created_at p - Timedelta_days 3) (created_at p) (fin q)
          (find_catalysts (created_at p - Timedelta_days 3) (created_at p) posts_df) ∧
    (∀ j q', pct !! j = Some (fin q') → (q' <= q)%Q) ∧
    (∀ j q', (j < i)%nat → pct !! j = Some (fin q') → (q' < q)%Q).
Proof.
  intros Hpos Hlen pct.
  assert (Hpos0 : Forall (λ p, 0 ≤ total_subscribers p) pts).
  { eapply Forall_impl; [exact Hpos|]. intros; simpl in *; lia. }
  assert (Hsome : forallb isna pct = false).
  { destruct (forallb isna pct) eqn:E; [|done].
    apply forallb_isna_true, pct_change_all_nan_iff_short in E; [lia | done]. }
  destruct (spike_analysis_selects pts posts_df Hpos0 Hsome)
    as (i & p & v & Hi & Hp & Hv & Hna & Hres & Hmax & Hfirst).
  fold pct in Hv, Hmax, Hfirst.
  destruct (lookup_lt_is_Some_2 pts (i - 3)%nat) as [p0 Hp0].
  { apply lookup_lt_Some in Hp. lia. }
  destruct (pct_change_3_ratio pts i (total_subscribers p) (total_subscribers p0) Hpos Hi)
    as (q & Hq & _).
  { by rewrite list_lookup_fmap, Hp. }
  { by rewrite list_lookup_fmap, Hp0. }
  assert (v = fin q) as -> by (fold pct in Hq; congruence).
  exists i, p, q. split_and!; try done.
  - intros j q' Hj. apply f64_lt_fin_false. by apply (Hmax j).
  - intros j q' Hlt Hj. apply f64_lt_fin. by apply (Hfirst j).
Qed.

(** C1, as the code has it: on a daily series whose counts are at least 1
    (every series the pipeline builds, by C10) the percentage column is
    undefined on the first three rows and on every later row it is the
    [float64] value of [c[i] / c[i-3] - 1].  That is the growth
    [(c[i] - c[i-3]) / c[i-3]] up to rounding: for counts below 2^53 that
    do not shrink it is never negative, it is zero exactly when the two
    counts are equal, and it is within 2^-52 of [c[i] / c[i-3]] of the
    exact growth.  The detector reports "not enough data" exactly when the
    series has fewer than four rows or every ratio is undefined; otherwise
    it reports a row [i >= 3] whose [float64] ratio is the largest, the
    first such row, with [window_start] three days before that row's date.
    On the counts [1, 1, 1, 4] the column is undefined three times and
    then 3, and the fourth row is reported. *)
Theorem C1_spike_detector (pts : list DailyGrowthPoint) (posts_df : option TimedFrame) :
  Forall (λ p, 1 ≤ total_subscribers p) pts →
  let c := total_subscribers <$> pts in
  let pct := pct_change 3 c in
  (∀ i, (i < 3)%nat → (i < length pts)%nat → pct !! i = Some nan) ∧
  (∀ i a b, (3 ≤ i)%nat → c !! i = Some a → c !! (i - 3)%nat = Some b →
     ∃ q, pct !! i = Some (fin q) ∧ sub_one (true_div a b) = fin q ∧
          (b ≤ a → a < 2 ^ 53 →
             (0 <= q)%Q ∧ ((0 < q)%Q ↔ b < a) ∧
             (Qabs (q - inject_Z (a - b) / inject_Z b)
              <= inject_Z a / inject_Z b * (1 # 2 ^ 52))%Q)) ∧
  (spike_analysis (reset_index pts) posts_df = NotEnoughData
   ↔ (length pts < 4)%nat ∨ Forall (λ r, r = nan) pct) ∧
  ((4 ≤ length pts)%nat →
     ∃ i p q,
       (3 ≤ i)%nat ∧ pts !! i = Some p ∧ pct !! i = Some (fin q) ∧
       spike_analysis (reset_index pts) posts_df
         = TopWindow (created_at p - Timedelta_days 3) (created_at p) (fin q)
             (find_catalysts (created_at p - Timedelta_days 3) (created_at p) posts_df) ∧
       (∀ j q', pct !! j = Some (fin q') → (q' <= q)%Q) ∧
       (∀ j q', (j < i)%nat → pct !! j = Some (fin q') → (q' < q)%Q)) ∧
  (pct_change 3 [1; 1; 1; 4] = [nan; nan; nan; fin 3] ∧
   ∀ d0 d1 d2 d3,
     spike_analysis
       (reset_index [mkPoint d0 1; mkPoint d1 1; mkPoint d2 1; mkPoint d3 4]) posts_df
     = TopWindow (d3 - Timedelta_days 3) d3 (fin 3)
         (find_catalysts (d3 - Timedelta_days 3) d3 posts_df)).
Proof.
  intros Hpos c pct.
  assert (Hpos0 : Forall (λ p, 0 ≤ total_subscribers p) pts).
  { eapply Forall_impl; [exact Hpos|]. intros; simpl in *; lia. }
  split_and!.
  - intros i Hi Hlen. apply pct_change_lookup_lt; [done|].
    unfold c. by rewrite length_fmap.
  - intros i a b Hi Ha Hb.
    destruct (pct_change_3_ratio pts i a b Hpos Hi Ha Hb) as (q & Hq & Hval).
    exists q. split_and!; [done | done |]. intros Hab Ha53.
    assert (Hb1 : 1 ≤ b).
    { unfold c in Hb. rewrite list_lookup_fmap in Hb.
      destruct (pts !! (i - 3)%nat) as [p|] eqn:Hp; simpl in Hb; [|done].
      injection Hb as <-. eapply Forall_lookup_1 in Hp; [|exact Hpos]. done. }
    destruct (growth_ratio a b Hb1 Hab Ha53) as (q' & Hq' & Hrest).
    assert (q' = q) as -> by congruence. exact Hrest.
  - rewrite (spike_analysis_not_enough pts posts_df Hpos0). fold c pct.
    pose proof (pct_change_all_nan_iff_short pts Hpos) as Hshort.
    fold c pct in Hshort. tauto.
  - by apply spike_analysis_positive_selects.
  - vm_compute. reflexivity.
  - intros d0 d1 d2 d3. rewrite spike_analysis_reset_index.
    change (pct_change 3 (total_subscribers <$>
              [mkPoint d0 1; mkPoint d1 1; mkPoint d2 1; mkPoint d3 4]))
      with (pct_change 3 [1; 1; 1; 4]).
    assert (E : pct_change 3 [1; 1; 1; 4] = [nan; nan; nan; fin 3])
      by (vm_compute; reflexivity).
    rewrite E. reflexivity.
Qed.

(** The witness of C1: the four-row series of the example. *)
Lemma C1_spike_detector_witness :
  Forall (λ p, 1 ≤ total_subscribers p) Fixtures.four_days ∧
  spike_analysis (reset_index Fixtures.four_days) None
  = TopWindow 0 (3 * ns_per_day) (fin 3) NoPostsFrame.
Proof.
  assert (Hpos : Forall (λ p, 1 ≤ total_subscribers p) Fixtures.four_days).
  { unfold Fixtures.four_days. repeat constructor; simpl; lia. }
  split; [exact Hpos|].
  destruct (C1_spike_detector Fixtures.four_days None Hpos) as (_ & _ & _ & _ & _ & Hex).
  exact (Hex 0 ns_per_day (2 * ns_per_day) (3 * ns_per_day)).
Defined.

(** Where C1 as stated fails.  Three joins on one day and a fourth three
    days later give the counts 3, 3, 3, 4: the reported growth is the
    [float64] nearest to [4 / 3 - 1], which is not [(4 - 3) / 3].  And on
    seven days of counts near 67.7 million the growth of the last row,
    8228 / 67691757, is larger than that of the fourth, 8227 / 67683530,
    yet the two [float64] ratios are equal and the fourth row is
    reported. *)
Lemma C1_counterexample :
  (total_subscribers <$> daily_growth [0; 1; 2; Fixtures.day 3] = [3; 3; 3; 4] ∧
   spike_analysis (reset_index (daily_growth [0; 1; 2; Fixtures.day 3])) None
   = TopWindow 0 (Fixtures.day 3)
       (fin (1501199875790165 # 4503599627370496)) NoPostsFrame ∧
   ¬ (1501199875790165 # 4503599627370496 == inject_Z (4 - 3) / inject_Z 3)%Q) ∧
  (Forall (λ p, 1 ≤ total_subscribers p) Fixtures.tied_growth ∧
   total_subscribers <$> Fixtures.tied_growth
   = [67683530; 67691757; 67691757; 67691757; 67691757; 67691757; 67699985] ∧
   (inject_Z (67691757 - 67683530) / inject_Z 67683530
    < inject_Z (67699985 - 67691757) / inject_Z 67691757)%Q ∧
   pct_change 3 (total_subscribers <$> Fixtures.tied_growth) !! 3%nat
   = pct_change 3 (total_subscribers <$> Fixtures.tied_growth) !! 6%nat ∧
   ∃ q, spike_analysis (reset_index Fixtures.tied_growth) None
        = TopWindow 0 (Fixtures.day 3) (fin q) NoPostsFrame).
Proof.
  split; split_and!.
  - vm_compute. reflexivity.
  - vm_compute. reflexivity.
  - intros H. vm_compute in H. discriminate H.
  - unfold Fixtures.tied_growth. repeat constructor; simpl; lia.
  - reflexivity.
  - vm_compute. reflexivity.
  - vm_compute. reflexivity.
  - eexists. vm_compute. reflexivity.
Qed.

End SpikeTheorems.

(** * The nearest-day join *)

Section AsofFacts.
Import Time Growth Table Overlay.

(** Where the two scans stop on ascending keys. *)
Lemma count_while_le_bound v keys : (count_while_le v keys ≤ length keys)%nat.
Proof. induction keys as [|k keys IH]; simpl; [lia | case_bool_decide; simpl; lia]. Qed.

Lemma count_while_lt_bound v keys : (count_while_lt v keys ≤ length keys)%nat.
Proof. induction keys as [|k keys IH]; simpl; [lia | case_bool_decide; simpl; lia]. Qed.

Lemma count_while_le_before v keys i x :
  (i < count_while_le v keys)%nat → keys !! i = Some x → x ≤ v.
Proof.
  revert i. induction keys as [|k keys IH]; intros i Hi Hx; simpl in *; [lia|].
  case_bool_decide; [|lia].
  destruct i as [|i]; simpl in Hx; [congruence|]. apply (IH i); [lia | done].
Qed.

Lemma count_while_le_after v keys i x :
  StronglySorted Z.le keys →
  (count_while_le v keys ≤ i)%nat → keys !! i = Some x → v < x.
Proof.
  intros Hs. revert i. induction Hs as [|k keys _ IH Hall]; intros i Hi Hx; [done|].
  simpl in Hi. case_bool_decide as Hk.
  - destruct i as [|i]; [lia|]. simpl in Hx. apply (IH i); [lia | done].
  - destruct i as [|i]; simpl in Hx; [injection Hx as <-; lia|].
    apply list_elem_of_lookup_2 in Hx. eapply Forall_forall in Hall; [|exact Hx]. lia.
Qed.

Lemma count_while_lt_before v keys i x :
  (i < count_while_lt v keys)%nat → keys !! i = Some x → x < v.
Proof.
  revert i. induction keys as [|k keys IH]; intros i Hi Hx; simpl in *; [lia|].
  case_bool_decide; [|lia].
  destruct i as [|i]; simpl in Hx; [congruence|]. apply (IH i); [lia | done].
Qed.

Lemma count_while_lt_after v keys i x :
  StronglySorted Z.le keys →
  (count_while_lt v keys ≤ i)%nat → keys !! i = Some x → v ≤ x.
Proof.
  intros Hs. revert i. induction Hs as [|k keys _ IH Hall]; intros i Hi Hx; [done|].
  simpl in Hi. case_bool_decide as Hk.
  - destruct i as [|i]; [lia|]. simpl in Hx. apply (IH i); [lia | done].
  - destruct i as [|i]; simpl in Hx; [injection Hx as <-; lia|].
    apply list_elem_of_lookup_2 in Hx. eapply Forall_forall in Hall; [|exact Hx]. lia.
Qed.

Lemma sorted_lookup_le keys i j x y :
  StronglySorted Z.le keys → (i ≤ j)%nat →
  keys !! i = Some x → keys !! j = Some y → x ≤ y.
Proof.
  intros Hs. revert i j. induction Hs as [|k keys _ IH Hall]; intros i j Hij Hx Hy; [done|].
  destruct i as [|i], j as [|j]; simpl in *; try lia.
  - assert (x = y) by congruence. lia.
  - injection Hx as <-. apply list_elem_of_lookup_2 in Hy.
    eapply Forall_forall in Hall; [|exact Hy]. done.
  - apply (IH i j); [lia | done | done].
Qed.

(** The backward match: the last key not after [v]. *)
Lemma asof_backward_Some v keys b :
  StronglySorted Z.le keys → asof_backward v keys = Some b →
  ∃ x, keys !! b = Some x ∧ x ≤ v ∧
       ∀ j y, keys !! j = Some y → y ≤ v → (j ≤ b)%nat.
Proof.
  intros Hs. unfold asof_backward.
  destruct (count_while_le v keys) as [|n] eqn:Hn; [done|]. intros [= <-].
  destruct (lookup_lt_is_Some_2 keys n) as [x Hx].
  { pose proof (count_while_le_bound v keys). lia. }
  exists x. split_and!; [done | |].
  - apply (count_while_le_before v keys n); [lia | done].
  - intros j y Hj Hy. destruct (decide (j ≤ n)%nat); [done|].
    pose proof (count_while_le_after v keys j y Hs ltac:(lia) Hj). lia.
Qed.

Lemma asof_backward_None v keys :
  StronglySorted Z.le keys → asof_backward v keys = None →
  ∀ j y, keys !! j = Some y → v < y.
Proof.
  intros Hs. unfold asof_backward.
  destruct (count_while_le v keys) as [|n] eqn:Hn; [|done]. intros _ j y Hj.
  apply (count_while_le_after v keys j y Hs); [lia | done].
Qed.

(** The forward match: the first key not before [v]. *)
Lemma asof_forward_Some v keys f :
  StronglySorted Z.le keys → asof_forward v keys = Some f →
  ∃ x, keys !! f = Some x ∧ v ≤ x ∧
       ∀ j y, keys !! j = Some y → v ≤ y → (f ≤ j)%nat.
Proof.
  intros Hs. unfold asof_forward. case_bool_decide as Hlt; [|done]. intros [= <-].
  destruct (lookup_lt_is_Some_2 keys _ Hlt) as [x Hx].
  exists x. split_and!; [done | |].
  - apply (count_while_lt_after v keys (count_while_lt v keys) x Hs); [lia | done].
  - intros j y Hj Hy. destruct (decide (count_while_lt v keys ≤ j)%nat); [done|].
    pose proof (count_while_lt_before v keys j y ltac:(lia) Hj). lia.
Qed.

Lemma asof_forward_None v keys :
  asof_forward v keys = None → ∀ j y, keys !! j = Some y → y < v.
Proof.
  unfold asof_forward. case_bool_decide as Hlt; [done|]. intros _ j y Hj.
  apply (count_while_lt_before v keys j y); [|done].
  apply lookup_lt_Some in Hj. lia.
Qed.

(** [direction='nearest'] finds a key at the least distance from [v]; it
    finds none only when there are no keys. *)
Lemma asof_nearest_closest v keys :
  StronglySorted Z.le keys →
  match asof_nearest v keys with
  | Some i => ∃ x, keys !! i = Some x ∧
                   ∀ j y, keys !! j = Some y → Z.abs (x - v) ≤ Z.abs (y - v)
  | None => keys = []
  end.
Proof.
  intros Hs. unfold asof_nearest.
  destruct (asof_backward v keys) as [b|] eqn:Hb, (asof_forward v keys) as [f|] eqn:Hf.
  - destruct (asof_backward_Some v keys b Hs Hb) as (xb & Hxb & Hle & Hlast).
    destruct (asof_forward_Some v keys f Hs Hf) as (xf & Hxf & Hge & Hfirst).
    rewrite (list_lookup_total_correct keys b xb Hxb).
    rewrite (list_lookup_total_correct keys f xf Hxf).
    assert (Hcases : ∀ j y, keys !! j = Some y →
              (y ≤ xb ∧ y ≤ v) ∨ (xf ≤ y ∧ v ≤ y)).
    { intros j y Hj. destruct (decide (y ≤ v)) as [Hy|Hy].
      - left. split; [|done]. apply (sorted_lookup_le keys j b); eauto.
      - right. split; [|lia]. apply (sorted_lookup_le keys f j); eauto.
        apply (Hfirst j y); [done | lia]. }
    case_bool_decide.
    + exists xb. split; [done|]. intros j y Hj.
      destruct (Hcases j y Hj); lia.
    + exists xf. split; [done|]. intros j y Hj.
      destruct (Hcases j y Hj); lia.
  - destruct (asof_backward_Some v keys b Hs Hb) as (xb & Hxb & Hle & Hlast).
    exists xb. split; [done|]. intros j y Hj.
    pose proof (asof_forward_None v keys Hf j y Hj).
    assert (y ≤ xb); [|lia].
    apply (sorted_lookup_le keys j b); eauto. apply (Hlast j y); [done | lia].
  - destruct (asof_forward_Some v keys f Hs Hf) as (xf & Hxf & Hge & Hfirst).
    exists xf. split; [done|]. intros j y Hj.
    pose proof (asof_backward_None v keys Hs Hb j y Hj).
    assert (xf ≤ y); [|lia].
    apply (sorted_lookup_le keys f j); eauto. apply (Hfirst j y); [done | lia].
  - unfold asof_backward in Hb. unfold asof_forward in Hf.
    destruct keys as [|k keys]; [done|]. simpl in *.
    repeat case_bool_decide; simpl in *; try done; lia.
Qed.

(** Between two adjacent keys, at the same distance from both, the earlier
    one is taken. *)
Lemma asof_nearest_tie v keys k a b :
  StronglySorted Z.le keys →
  keys !! k = Some a → keys !! S k = Some b → a < b →
  v - a = b - v →
  asof_nearest v keys = Some k.
Proof.
  intros Hs Ha Hb Hab Htie. unfold asof_nearest.
  assert (Hback : asof_backward v keys = Some k).
  { destruct (asof_backward v keys) as [b'|] eqn:E.
    - destruct (asof_backward_Some v keys b' Hs E) as (x & Hx & Hle & Hlast).
      f_equal. pose proof (Hlast k a Ha ltac:(lia)).
      destruct (decide (b' ≤ k)%nat); [lia|].
      pose proof (sorted_lookup_le keys (S k) b' b x Hs ltac:(lia) Hb Hx). lia.
    - pose proof (asof_backward_None v keys Hs E k a Ha). lia. }
  assert (Hfwd : asof_forward v keys = Some (S k)).
  { destruct (asof_forward v keys) as [f'|] eqn:E.
    - destruct (asof_forward_Some v keys f' Hs E) as (x & Hx & Hge & Hfirst).
      f_equal. pose proof (Hfirst (S k) b Hb ltac:(lia)).
      destruct (decide (S k ≤ f')%nat); [lia|].
      pose proof (sorted_lookup_le keys f' k x a Hs ltac:(lia) Hx Ha). lia.
    - pose proof (asof_forward_None v keys E (S k) b Hb). lia. }
  rewrite Hback, Hfwd.
  rewrite (list_lookup_total_correct keys k a Ha).
  rewrite (list_lookup_total_correct keys (S k) b Hb).
  by rewrite bool_decide_eq_true_2 by lia.
Qed.

(** The dates of the daily series: consecutive midnights. *)
Lemma daily_growth_dates ts lo hi :
  series_min ts = Some lo → series_max ts = Some hi →
  created_at <$> daily_growth ts
  = nth_day (floor_D lo) <$> seq 0 (S (Z.to_nat (day_of hi - day_of lo))).
Proof.
  intros Hlo Hhi.
  destruct (daily_growth_closed_form ts lo hi Hlo Hhi) as [Hlen Hrow].
  apply list_eq_same_length with (S (Z.to_nat (day_of hi - day_of lo))).
  - by rewrite length_fmap, length_seq.
  - by rewrite length_fmap.
  - intros k d d' Hk Hd Hd'.
    rewrite list_lookup_fmap, Hrow in Hd by done.
    rewrite list_lookup_fmap, lookup_seq_lt in Hd' by done.
    simpl in *. congruence.
Qed.

Lemma nth_day_seq_increasing first k0 n :
  StronglySorted Z.lt (nth_day first <$> seq k0 n).
Proof.
  revert k0. induction n as [|n IH]; intros k0; simpl; constructor; [apply IH|].
  apply Forall_fmap, Forall_forall. intros k Hk%elem_of_seq. simpl.
  unfold nth_day. pose proof ns_per_day_pos. nia.
Qed.

Lemma daily_growth_dates_increasing ts :
  StronglySorted Z.lt (created_at <$> daily_growth ts).
Proof.
  destruct (decide (ts = [])) as [->|Hne]; [constructor|].
  destruct (series_min_is_Some ts Hne) as [lo Hlo].
  destruct (series_max_is_Some ts Hne) as [hi Hhi].
  rewrite (daily_growth_dates ts lo hi Hlo Hhi). apply nth_day_seq_increasing.
Qed.

Lemma StronglySorted_lt_le keys : StronglySorted Z.lt keys → StronglySorted Z.le keys.
Proof.
  induction 1 as [|k ks _ IH Hall]; constructor; [done|].
  eapply Forall_impl; [exact Hall|]. intros; simpl in *; lia.
Qed.

End AsofFacts.

(** * The overlay of posts on the chart *)

Section OverlayTheorems.
Import Time Growth Sorting Table Overlay Dashboard.

(** A post is within the span of the growth series. *)
Lemma relevant_posts_elem_of posts growth post :
  post ∈ relevant_posts posts growth ↔
  post ∈ posts ∧
  ∃ lo hi, series_min (created_at <$> growth) = Some lo ∧
           series_max (created_at <$> growth) = Some hi ∧
           lo ≤ stamp post ≤ hi.
Proof.
  unfold relevant_posts.
  destruct (series_min (created_at <$> growth)) as [lo|] eqn:Hlo,
           (series_max (created_at <$> growth)) as [hi|] eqn:Hhi.
  - rewrite list_elem_of_filter. split.
    + intros [Hin Hp]. split; [done|]. exists lo, hi. split_and!; tauto.
    + intros [Hp (lo' & hi' & [= <-] & [= <-] & Hin)]. done.
  - split; [by intros ?%elem_of_nil | by intros [_ (? & ? & _ & ? & _)]].
  - split; [by intros ?%elem_of_nil | by intros [_ (? & ? & ? & _)]].
  - split; [by intros ?%elem_of_nil | by intros [_ (? & ? & ? & _)]].
Qed.

Lemma relevant_posts_nil growth : relevant_posts [] growth = [].
Proof. unfold relevant_posts. by repeat case_match. Qed.

Lemma merge_asof_nearest_elem_of left right post m :
  (post, m) ∈ merge_asof_nearest left right ↔
  post ∈ left ∧
  m = (asof_nearest (stamp post) (created_at <$> right) ≫= λ i, right !! i).
Proof.
  unfold merge_asof_nearest. rewrite list_elem_of_fmap. split.
  - intros (p & [= -> ->] & Hin). done.
  - intros [Hin ->]. by exists post.
Qed.

Section WithContract.
Context (argsort : list Z → list nat) (Hspec : argsort_spec argsort).

(** Lines 188-207 on the frame of line 175: line 198 leaves the frame as
    it is, and the trace is drawn when some post falls in its span. *)
Lemma catalyst_overlay_daily_growth posts_df ts :
  catalyst_overlay argsort (Some posts_df) (reset_index (daily_growth ts))
  = (reset_index (daily_growth ts),
     match relevant_posts (trows posts_df) (daily_growth ts) with
     | [] => None
     | relevant =>
         Some (merge_asof_nearest (sort_values argsort stamp relevant)
                 (daily_growth ts))
     end).
Proof.
  unfold catalyst_overlay. rewrite reset_index_snd.
  destruct (trows posts_df) as [|p0 ps] eqn:Hrows.
  { by rewrite relevant_posts_nil. }
  destruct (relevant_posts (p0 :: ps) (daily_growth ts)) as [|r0 rs]; [done|].
  rewrite (sort_values_increasing argsort Hspec).
  - by rewrite reset_index_snd.
  - rewrite list_fmap_compose, reset_index_snd.
    apply daily_growth_dates_increasing.
Qed.
End WithContract.

(** C4: in the nearest-day join a post at the same distance from two
    adjacent days of the growth series is matched to the earlier day, both
    in [merge_asof] itself and in the overlay the dashboard draws. *)
Theorem C4_nearest_tie_earlier_day (argsort : list Z → list nat)
    (ts : list Z) (k : nat) (p q : DailyGrowthPoint)
    (posts_df : TimedFrame) (post : TimedRow) :
  argsort_spec argsort →
  daily_growth ts !! k = Some p → daily_growth ts !! S k = Some q →
  stamp post - created_at p = created_at q - stamp post →
  post ∈ trows posts_df →
  (∀ m, (post, m) ∈ merge_asof_nearest (trows posts_df) (daily_growth ts)
        ↔ m = Some p) ∧
  ∃ matches,
    (catalyst_overlay argsort (Some posts_df) (reset_index (daily_growth ts))).2
      = Some matches ∧
    ∀ m, (post, m) ∈ matches ↔ m = Some p.
Proof.
  intros Hspec Hp Hq Htie Hin.
  pose proof (daily_growth_dates_increasing ts) as Hinc.
  assert (Hlt : created_at p < created_at q).
  { assert (Hne : ts ≠ []) by (intros ->; done).
    destruct (series_min_is_Some ts Hne) as [lo Hlo].
    destruct (series_max_is_Some ts Hne) as [hi Hhi].
    destruct (daily_growth_closed_form ts lo hi Hlo Hhi) as [Hlen Hrow].
    assert (HSk : (S k < S (Z.to_nat (day_of hi - day_of lo)))%nat).
    { rewrite <-Hlen. eauto using lookup_lt_Some. }
    rewrite Hrow in Hp, Hq by lia. injection Hp as <-. injection Hq as <-. simpl.
    rewrite nth_day_S. pose proof ns_per_day_pos. lia. }
  assert (Hnear : asof_nearest (stamp post) (created_at <$> daily_growth ts) = Some k).
  { apply (asof_nearest_tie _ _ k (created_at p) (created_at q)).
    - by apply StronglySorted_lt_le.
    - by rewrite list_lookup_fmap, Hp.
    - by rewrite list_lookup_fmap, Hq.
    - done.
    - done. }
  assert (Hmatch : ∀ left m, post ∈ left →
            (post, m) ∈ merge_asof_nearest left (daily_growth ts) ↔ m = Some p).
  { intros left m Hleft. rewrite merge_asof_nearest_elem_of, Hnear. simpl.
    rewrite Hp. tauto. }
  split; [intros m; by apply Hmatch|].
  rewrite (catalyst_overlay_daily_growth argsort Hspec). simpl.
  assert (Hrel : post ∈ relevant_posts (trows posts_df) (daily_growth ts)).
  { apply relevant_posts_elem_of. split; [done|].
    assert (Hdates : created_at <$> daily_growth ts ≠ []).
    { intros Hnil%fmap_nil_inv. by rewrite Hnil in Hp. }
    destruct (series_min_is_Some _ Hdates) as [lo Hlo].
    destruct (series_max_is_Some _ Hdates) as [hi Hhi].
    exists lo, hi. split_and!; [done | done | |].
    - apply series_min_spec in Hlo as [_ Hlo].
      specialize (Hlo (created_at p)). rewrite list_elem_of_fmap in Hlo.
      specialize (Hlo ltac:(eauto using list_elem_of_lookup_2)). lia.
    - apply series_max_spec in Hhi as [_ Hhi].
      specialize (Hhi (created_at q)). rewrite list_elem_of_fmap in Hhi.
      specialize (Hhi ltac:(eauto using list_elem_of_lookup_2)). lia. }
  destruct (relevant_posts (trows posts_df) (daily_growth ts)) as [|r0 rs] eqn:Erel.
  { by apply elem_of_nil in Hrel. }
  eexists. split; [done|]. intros m. apply Hmatch.
  by apply (sort_values_elem_of argsort Hspec).
Qed.

(** C5: the overlay leaves the growth frame as it is; a post of the content
    table is matched exactly when its publish time lies within the first and
    last date of the growth series; the posts matched are the posts in that
    span, in ascending publish order; and each is paired with a row of the
    series whose date is at the least distance from its publish time.  A post
    outside the span never appears among the matches. *)
Theorem C5_catalyst_matcher (argsort : list Z → list nat)
    (posts_df : TimedFrame) (ts : list Z) :
  argsort_spec argsort →
  let growth := daily_growth ts in
  let result := catalyst_overlay argsort (Some posts_df) (reset_index growth) in
  let in_span post :=
    ∃ lo hi, series_min (created_at <$> growth) = Some lo ∧
             series_max (created_at <$> growth) = Some hi ∧
             lo ≤ stamp post ≤ hi in
  result.1 = reset_index growth ∧
  (∀ post, post ∈ trows posts_df → in_span post →
     ∃ matches p, result.2 = Some matches ∧ (post, Some p) ∈ matches) ∧
  (∀ matches, result.2 = Some matches →
     (∀ lo hi, series_min (created_at <$> growth) = Some lo →
               series_max (created_at <$> growth) = Some hi →
               matches.*1 ≡ₚ filter (λ post, lo ≤ stamp post ≤ hi) (trows posts_df)) ∧
     Sorted Z.le (stamp <$> matches.*1) ∧
     ∀ post m, (post, m) ∈ matches →
       post ∈ trows posts_df ∧ in_span post ∧
       ∃ p, m = Some p ∧ p ∈ growth ∧
            ∀ p', p' ∈ growth →
              Z.abs (created_at p - stamp post) ≤ Z.abs (created_at p' - stamp post)) ∧
  (result.2 = None ↔ ∀ post, post ∈ trows posts_df → ¬ in_span post).
Proof.
  intros Hspec growth result in_span.
  assert (Hresult : result
            = (reset_index growth,
               match relevant_posts (trows posts_df) growth with
               | [] => None
               | relevant =>
                   Some (merge_asof_nearest (sort_values argsort stamp relevant) growth)
               end))
    by apply (catalyst_overlay_daily_growth argsort Hspec).
  rewrite Hresult. clear Hresult result. simpl.
  assert (Hrel : ∀ post, post ∈ relevant_posts (trows posts_df) growth
                         ↔ post ∈ trows posts_df ∧ in_span post)
    by (intros; apply relevant_posts_elem_of).
  assert (Hsorted : StronglySorted Z.le (created_at <$> growth)).
  { apply StronglySorted_lt_le, daily_growth_dates_increasing. }
  assert (Hpair : ∀ left post m, (post, m) ∈ merge_asof_nearest left growth →
            growth ≠ [] →
            ∃ p, m = Some p ∧ p ∈ growth ∧
                 ∀ p', p' ∈ growth →
                   Z.abs (created_at p - stamp post) ≤ Z.abs (created_at p' - stamp post)).
  { intros left post m [_ ->]%merge_asof_nearest_elem_of Hne.
    pose proof (asof_nearest_closest (stamp post) _ Hsorted) as Hc.
    destruct (asof_nearest (stamp post) (created_at <$> growth)) as [i|].
    - destruct Hc as (x & Hx & Hmin). simpl.
      rewrite list_lookup_fmap in Hx.
      destruct (growth !! i) as [p|] eqn:Hp; simpl in Hx; [|done].
      injection Hx as <-. exists p. split_and!; [done | by eapply list_elem_of_lookup_2 |].
      intros p' [j Hj]%list_elem_of_lookup. apply (Hmin j).
      by rewrite list_lookup_fmap, Hj.
    - by apply fmap_nil_inv in Hc. }
  assert (Hgrowth : ∀ post, in_span post → growth ≠ []).
  { intros post (lo & hi & Hlo & _) ->. done. }
  split_and!.
  - done.
  - intros post Hin Hspan.
    assert (Hr : post ∈ relevant_posts (trows posts_df) growth) by (by apply Hrel).
    destruct (relevant_posts (trows posts_df) growth) as [|r0 rs] eqn:Erel.
    { by apply elem_of_nil in Hr. }
    set (matches := merge_asof_nearest (sort_values argsort stamp (r0 :: rs)) growth).
    assert (Hm : (post, asof_nearest (stamp post) (created_at <$> growth)
                          ≫= λ i, growth !! i) ∈ matches).
    { apply merge_asof_nearest_elem_of. split; [|done].
      by apply (sort_values_elem_of argsort Hspec). }
    destruct (Hpair _ _ _ Hm (Hgrowth post Hspan)) as (p & Hp & _).
    exists matches, p. split; [done|]. by rewrite <-Hp.
  - intros matches Hres.
    destruct (relevant_posts (trows posts_df) growth) as [|r0 rs] eqn:Erel; [done|].
    injection Hres as <-.
    set (sorted := sort_values argsort stamp (r0 :: rs)).
    assert (Hfst : (merge_asof_nearest sorted growth).*1 = sorted).
    { unfold merge_asof_nearest. rewrite <-list_fmap_compose.
      rewrite <-(list_fmap_id sorted) at 2. by apply list_fmap_ext. }
    assert (Hin_sorted : ∀ post, post ∈ sorted ↔ post ∈ trows posts_df ∧ in_span post).
    { intros post. unfold sorted.
      rewrite (sort_values_elem_of argsort Hspec). apply Hrel. }
    split_and!.
    + intros lo hi Hlo Hhi.
      rewrite Hfst. unfold sorted. rewrite (sort_values_Permutation argsort Hspec).
      rewrite <-Erel. unfold relevant_posts. by rewrite Hlo, Hhi.
    + rewrite Hfst. apply (sort_values_Sorted argsort Hspec).
    + intros post m Hm.
      assert (Hs : post ∈ sorted) by (by apply merge_asof_nearest_elem_of in Hm as [? _]).
      apply Hin_sorted in Hs as [Hin Hspan]. split_and!; [done | done |].
      by apply (Hpair sorted post m Hm), (Hgrowth post).
  - destruct (relevant_posts (trows posts_df) growth) as [|r0 rs] eqn:Erel.
    + split; [|done]. intros _ post Hin Hspan.
      assert (Hr : post ∈ @nil TimedRow) by (by apply Hrel).
      by apply elem_of_nil in Hr.
    + split; [done|]. intros Hnone. exfalso.
      assert (Hr : r0 ∈ r0 :: rs) by left.
      apply Hrel in Hr as [Hin Hspan]. by apply (Hnone r0).
Qed.

End OverlayTheorems.

(** * The table normalisers *)

Section NormaliserFacts.
Import Time Growth Sorting Table.

Lemma assign_range_stamp name rs : stamp <$> assign_range name rs = stamp <$> rs.
Proof.
  unfold assign_range. rewrite fmap_imap.
  apply list_eq. intros i. rewrite list_lookup_imap, list_lookup_fmap.
  by destruct (rs !! i).
Qed.

Lemma assign_range_length name rs : length (assign_range name rs) = length rs.
Proof. apply length_imap. Qed.

Lemma assign_range_lookup name rs i r :
  assign_range name rs !! i = Some r →
  cells r !! name = Some (Int (Z.of_nat i + 1)) ∧
  ∃ r0, rs !! i = Some r0 ∧ stamp r = stamp r0 ∧
        ∀ col, col ≠ name → cells r !! col = cells r0 !! col.
Proof.
  unfold assign_range. rewrite list_lookup_imap.
  destruct (rs !! i) as [r0|]; simpl; [|done]. intros [= <-]. simpl. split.
  - rewrite lookup_insert_eq. do 2 f_equal. lia.
  - exists r0. split_and!; [done | done |]. intros col Hne. by rewrite lookup_insert_ne.
Qed.

Lemma parse_column_length to_datetime col rs parsed :
  parse_column to_datetime col rs = Some parsed → length parsed = length rs.
Proof. intros H%mapM_Some. symmetry. by eapply Forall2_length. Qed.

Lemma process_subscribers_present to_datetime argsort df :
  "created_at"%string ∈ columns df →
  process_subscribers to_datetime argsort (Some df)
  = match parse_column to_datetime "created_at" (rows df) with
    | None => Raised
    | Some parsed =>
        Return (mkTimedFrame
                  (set_column_name "total_subscribers" (columns df))
                  (assign_range "total_subscribers"
                     (sort_values argsort stamp parsed)))
    end.
Proof. intros Hin. unfold process_subscribers. by rewrite bool_decide_eq_true_2. Qed.

Lemma process_subscribers_absent to_datetime argsort df :
  "created_at"%string ∉ columns df →
  process_subscribers to_datetime argsort (Some df) = ReturnNone [msg_missing_created_at].
Proof. intros Hin. unfold process_subscribers. by rewrite bool_decide_eq_false_2. Qed.

Lemma process_posts_present to_datetime argsort df :
  "post_date"%string ∈ columns df →
  process_posts to_datetime argsort (Some df)
  = match parse_column to_datetime "post_date" (rows df) with
    | None => Raised
    | Some parsed =>
        Return (mkTimedFrame (columns df)
                  (sort_values argsort stamp
                     (if bool_decide ("is_published"%string ∈ columns df)
                      then filter published (parse_is_published <$> parsed)
                      else parsed)))
    end.
Proof. intros Hin. unfold process_posts. by rewrite bool_decide_eq_true_2. Qed.

Lemma process_posts_absent to_datetime argsort df :
  "post_date"%string ∉ columns df →
  process_posts to_datetime argsort (Some df) = ReturnNone [msg_missing_post_date].
Proof. intros Hin. unfold process_posts. by rewrite bool_decide_eq_false_2. Qed.

(** Filtering on the parsed flag keeps the rows whose raw cell reads
    [true]. *)
Lemma filter_published (parsed : list TimedRow) :
  filter published (parse_is_published <$> parsed)
  = parse_is_published
      <$> filter (λ r, is_true (default NaN (cells r !! "is_published"%string)) = true)
            parsed.
Proof.
  induction parsed as [|r rs IH]; [done|].
  rewrite fmap_cons, !filter_cons, IH.
  assert (Hiff : published (parse_is_published r)
                 ↔ is_true (default NaN (cells r !! "is_published"%string)) = true).
  { unfold published, parse_is_published. simpl. rewrite lookup_insert_eq.
    split; [by intros [= ->] | by intros ->]. }
  destruct (decide (published (parse_is_published r))) as [H1|H1],
           (decide (is_true (default NaN (cells r !! "is_published"%string)) = true))
             as [H2|H2]; try done; by apply Hiff in H1 || apply Hiff in H2.
Qed.

Lemma filter_Sorted_stamp (P : TimedRow → Prop) `{!∀ r, Decision (P r)} rs :
  Sorted Z.le (stamp <$> rs) → Sorted Z.le (stamp <$> filter P rs).
Proof.
  intros Hs%Sorted_StronglySorted; [|intros ???; lia].
  apply StronglySorted_Sorted.
  induction rs as [|r rs IH]; [constructor|].
  rewrite fmap_cons in Hs. apply StronglySorted_inv in Hs as [Hs Hall].
  rewrite filter_cons. destruct (decide (P r)); [|by apply IH].
  rewrite fmap_cons. constructor; [by apply IH|].
  apply Forall_fmap, Forall_forall. intros x [_ Hx]%list_elem_of_filter.
  rewrite Forall_fmap, Forall_forall in Hall. by apply Hall.
Qed.

End NormaliserFacts.

Section NormaliserTheorems.
Import Time Growth Sorting Table Overlay Spike Dashboard.

(** C7: a normaliser reports a missing column exactly when the table lacks
    its timestamp column, [created_at] for subscribers and [post_date] for
    posts, with its own message and no frame; it returns [None] for no other
    reason.  With the column present the timestamps are parsed and the rows
    sorted.  Without the subscriber frame the page stops after the error
    messages; without the posts frame it goes on with subscribers alone. *)
Theorem C7_missing_timestamp_column (to_datetime : Cell → option Z)
    (argsort : list Z → list nat) (df : DataFrame) :
  (process_subscribers to_datetime argsort (Some df)
     = ReturnNone [msg_missing_created_at]
   ↔ "created_at"%string ∉ columns df) ∧
  (∀ errs, process_subscribers to_datetime argsort (Some df) = ReturnNone errs →
     errs = [msg_missing_created_at]) ∧
  ("created_at"%string ∈ columns df →
     ∀ parsed, parse_column to_datetime "created_at" (rows df) = Some parsed →
     process_subscribers to_datetime argsort (Some df)
     = Return (mkTimedFrame
                 (set_column_name "total_subscribers" (columns df))
                 (assign_range "total_subscribers"
                    (sort_values argsort stamp parsed)))) ∧
  (process_posts to_datetime argsort (Some df)
     = ReturnNone [msg_missing_post_date]
   ↔ "post_date"%string ∉ columns df) ∧
  (∀ errs, process_posts to_datetime argsort (Some df) = ReturnNone errs →
     errs = [msg_missing_post_date]) ∧
  ("post_date"%string ∈ columns df →
     ∀ parsed, parse_column to_datetime "post_date" (rows df) = Some parsed →
     ∃ kept, process_posts to_datetime argsort (Some df)
             = Return (mkTimedFrame (columns df) (sort_values argsort stamp kept))) ∧
  ("created_at"%string ∉ columns df →
     ∀ posts_raw,
       run to_datetime argsort (Some posts_raw) (Some df) = Crashed ∨
       ∃ errs, run to_datetime argsort (Some posts_raw) (Some df)
               = Halted (msg_missing_created_at :: errs)) ∧
  ("post_date"%string ∉ columns df →
     ∀ subs_raw subs_df,
       process_subscribers to_datetime argsort (Some subs_raw) = Return subs_df →
       run to_datetime argsort (Some df) (Some subs_raw)
       = Shown [msg_missing_post_date] (analyse argsort subs_df None)).
Proof.
  split_and!.
  - split.
    + intros H Hin. rewrite process_subscribers_present in H by done.
      by destruct (parse_column _ _ _).
    + apply process_subscribers_absent.
  - intros errs H. destruct (decide ("created_at"%string ∈ columns df)) as [Hin|Hout].
    + rewrite process_subscribers_present in H by done.
      by destruct (parse_column _ _ _).
    + rewrite process_subscribers_absent in H by done. congruence.
  - intros Hin parsed Hp. by rewrite process_subscribers_present, Hp.
  - split.
    + intros H Hin. rewrite process_posts_present in H by done.
      by destruct (parse_column _ _ _).
    + apply process_posts_absent.
  - intros errs H. destruct (decide ("post_date"%string ∈ columns df)) as [Hin|Hout].
    + rewrite process_posts_present in H by done.
      by destruct (parse_column _ _ _).
    + rewrite process_posts_absent in H by done. congruence.
  - intros Hin parsed Hp. rewrite process_posts_present, Hp by done. by eexists.
  - intros Hout posts_raw. unfold run.
    rewrite process_subscribers_absent by done.
    destruct (process_posts to_datetime argsort (Some posts_raw)) as [pf|errs|].
    + right. by exists [].
    + right. by exists errs.
    + by left.
  - intros Hout subs_raw subs_df Hsubs. unfold run.
    by rewrite Hsubs, process_posts_absent.
Qed.

(** C8: with the timestamp column parsed, [process_posts] returns a frame.
    When the table has an [is_published] column the rows of that frame are
    the rows whose cell, printed as a string and lower-cased, equals
    ["true"], each with the flag now [True]; when the table has no such
    column every row is kept.  [True], ["TRUE"] and ["True"] pass the test;
    [False], a missing value, ["1"] and the number 1 do not. *)
Theorem C8_is_published_filter (to_datetime : Cell → option Z)
    (argsort : list Z → list nat) (df : DataFrame) (parsed : list TimedRow) :
  argsort_spec argsort →
  "post_date"%string ∈ columns df →
  parse_column to_datetime "post_date" (rows df) = Some parsed →
  ∃ out,
    process_posts to_datetime argsort (Some df) = Return out ∧
    ("is_published"%string ∈ columns df →
       trows out ≡ₚ
         parse_is_published
           <$> filter (λ r, str_lower (astype_str (default NaN (cells r !! "is_published"%string)))
                            = "true"%string) parsed ∧
       ∀ r, r ∈ trows out → cells r !! "is_published"%string = Some (Bool true)) ∧
    ("is_published"%string ∉ columns df → trows out ≡ₚ parsed) ∧
    (is_true (Bool true) = true ∧ is_true (Str "TRUE") = true ∧
     is_true (Str "True") = true ∧ is_true (Bool false) = false ∧
     is_true NaN = false ∧ is_true (Str "1") = false ∧ is_true (Int 1) = false).
Proof.
  intros Hspec Hin Hp. rewrite process_posts_present, Hp by done.
  eexists. split; [done|]. simpl. split_and!; try reflexivity.
  - intros Hpub. rewrite bool_decide_eq_true_2 by done.
    rewrite (sort_values_Permutation argsort Hspec), filter_published.
    split.
    + assert (Hsame :
        filter (λ r, is_true (default NaN (cells r !! "is_published"%string)) = true) parsed
        = filter (λ r, str_lower (astype_str (default NaN (cells r !! "is_published"%string)))
                       = "true"%string) parsed).
      { apply list_filter_iff. intros r. unfold is_true. apply bool_decide_eq_true. }
      by rewrite Hsame.
    + intros r Hr. rewrite (sort_values_elem_of argsort Hspec) in Hr.
      apply list_elem_of_fmap in Hr as [r0 [-> [Htrue _]%list_elem_of_filter]].
      simpl. by rewrite lookup_insert_eq, Htrue.
  - intros Hpub. rewrite bool_decide_eq_false_2 by done.
    apply (sort_values_Permutation argsort Hspec).
Qed.

(** C9, as the code has it: with the [created_at] column parsed,
    [process_subscribers] returns the rows in ascending order of the
    timestamp; they are a rearrangement of the input rows, numbered 1, 2, ...
    in [total_subscribers].  Which of two rows with the same timestamp comes
    first is left to the sorter. *)
Theorem C9_sorted_ascending (to_datetime : Cell → option Z)
    (argsort : list Z → list nat) (df : DataFrame) (parsed : list TimedRow) :
  argsort_spec argsort →
  "created_at"%string ∈ columns df →
  parse_column to_datetime "created_at" (rows df) = Some parsed →
  ∃ out sorted,
    process_subscribers to_datetime argsort (Some df) = Return out ∧
    trows out = assign_range "total_subscribers" sorted ∧
    sorted ≡ₚ parsed ∧
    length (trows out) = length (rows df) ∧
    Sorted Z.le (stamp <$> trows out) ∧
    ∀ i r, trows out !! i = Some r →
      cells r !! "total_subscribers"%string = Some (Int (Z.of_nat i + 1)).
Proof.
  intros Hspec Hin Hp. rewrite process_subscribers_present, Hp by done.
  eexists. exists (sort_values argsort stamp parsed). simpl. split_and!.
  - done.
  - done.
  - apply (sort_values_Permutation argsort Hspec).
  - simpl. rewrite assign_range_length, (sort_values_length argsort Hspec).
    by eapply parse_column_length.
  - simpl. rewrite assign_range_stamp. apply (sort_values_Sorted argsort Hspec).
  - simpl. intros i r Hr. by apply assign_range_lookup in Hr as [? _].
Qed.

End NormaliserTheorems.

(** * The catalyst search around the spike *)

Section CatalystTheorems.
Import Time Growth Sorting Table Overlay Spike Dashboard.

(** Whatever window the detector reports starts three days before its peak,
    and the catalysts shown with it are those of the search for that
    window. *)
Lemma spike_analysis_window daily posts_df window_start peak_date max_val found :
  spike_analysis daily posts_df = TopWindow window_start peak_date max_val found →
  window_start = peak_date - Timedelta_days 3 ∧
  found = find_catalysts window_start peak_date posts_df.
Proof.
  unfold spike_analysis.
  destruct (forallb isna _); [done|].
  destruct (daily.*1 !! _) as [max_idx|]; [|done].
  destruct (loc _ max_idx) as [[point v]|]; [|done].
  by intros [= <- <- <- <-].
Qed.

Lemma process_posts_Sorted to_datetime argsort df posts_df :
  argsort_spec argsort →
  process_posts to_datetime argsort (Some df) = Return posts_df →
  Sorted Z.le (stamp <$> trows posts_df).
Proof.
  intros Hspec. unfold process_posts.
  case_bool_decide; [|done].
  destruct (parse_column _ _ _); [|done]. intros [= <-]. simpl.
  apply (sort_values_Sorted argsort Hspec).
Qed.

Lemma process_posts_published to_datetime argsort df posts_df post :
  argsort_spec argsort →
  process_posts to_datetime argsort (Some df) = Return posts_df →
  "is_published"%string ∈ columns df →
  post ∈ trows posts_df → cells post !! "is_published"%string = Some (Bool true).
Proof.
  intros Hspec. unfold process_posts.
  case_bool_decide; [|done].
  destruct (parse_column _ _ _); [|done]. intros [= <-] Hpub. simpl.
  rewrite bool_decide_eq_true_2 by done.
  rewrite (sort_values_elem_of argsort Hspec).
  by intros [Hp _]%list_elem_of_filter.
Qed.

(** C6: for the window [[window_start, peak_date]] the search returns the
    posts of the normalised content table published from two days before
    [window_start] up to and including [peak_date], and only those, in the
    ascending order of the table; with an [is_published] column they are all
    published.  An empty result is reported as "none found", a non-empty one
    as "found".  The detector hands the search the window it reports.  For
    the window from day 5 to day 8 and posts on day 2 and day 3, the post of
    day 3 is returned and the post of day 2 is not. *)
Theorem C6_catalyst_window_search (to_datetime : Cell → option Z)
    (argsort : list Z → list nat) (df : DataFrame) (posts_df : TimedFrame)
    (window_start peak_date : Z) :
  argsort_spec argsort →
  process_posts to_datetime argsort (Some df) = Return posts_df →
  let found := catalysts_in_window window_start peak_date (trows posts_df) in
  (∀ post, post ∈ found ↔
     post ∈ trows posts_df ∧
     window_start - Timedelta_days 2 ≤ stamp post ≤ peak_date) ∧
  found `sublist_of` trows posts_df ∧
  Sorted Z.le (stamp <$> found) ∧
  ("is_published"%string ∈ columns df →
     ∀ post, post ∈ found → cells post !! "is_published"%string = Some (Bool true)) ∧
  (find_catalysts window_start peak_date (Some posts_df) = NoneFound ↔ found = []) ∧
  (found ≠ [] → find_catalysts window_start peak_date (Some posts_df) = Found found) ∧
  (∀ daily ws pk v c, spike_analysis daily (Some posts_df) = TopWindow ws pk v c →
     ws = pk - Timedelta_days 3 ∧
     c = find_catalysts ws pk (Some posts_df)) ∧
  (∃ day2 day3,
     trows Fixtures.two_posts = [day2; day3] ∧
     stamp day2 = Fixtures.day 2 ∧ stamp day3 = Fixtures.day 3 ∧
     catalysts_in_window (Fixtures.day 5) (Fixtures.day 8) (trows Fixtures.two_posts)
     = [day3]).
Proof.
  intros Hspec Hposts found.
  assert (Hmem : ∀ post, post ∈ found ↔
     post ∈ trows posts_df ∧
     window_start - Timedelta_days 2 ≤ stamp post ≤ peak_date).
  { intros post. unfold found, catalysts_in_window.
    rewrite list_elem_of_filter. tauto. }
  split_and!.
  - exact Hmem.
  - apply sublist_filter.
  - apply filter_Sorted_stamp. by eapply process_posts_Sorted.
  - intros Hpub post [Hin _]%Hmem. by eapply process_posts_published.
  - unfold find_catalysts. fold found. by destruct found.
  - unfold find_catalysts. fold found. by destruct found.
  - intros daily ws pk v c. apply spike_analysis_window.
  - eexists _, _. split_and!; reflexivity.
Qed.

End CatalystTheorems.

(** * Worked examples *)

Section Witnesses.
Import Time Growth Sorting Table Overlay Spike Dashboard.

Lemma fixture_posts_normalised :
  process_posts Fixtures.to_datetime argsort_stable (Some Fixtures.posts)
  = Return Fixtures.normalised_posts.
Proof. vm_compute. reflexivity. Qed.

Lemma fixture_daily_growth :
  daily_growth Fixtures.subscriber_times
  = [mkPoint (Fixtures.day 1) 2; mkPoint (Fixtures.day 2) 3;
     mkPoint (Fixtures.day 3) 3; mkPoint (Fixtures.day 4) 4].
Proof. vm_compute. reflexivity. Qed.

(** The witness of C4: "Launch", published at noon of day 2, is matched to
    day 2 and its count 3. *)
Lemma C4_nearest_tie_earlier_day_witness :
  (Fixtures.launch, Some (mkPoint (Fixtures.day 2) 3))
    ∈ merge_asof_nearest (trows Fixtures.normalised_posts)
        (daily_growth Fixtures.subscriber_times).
Proof.
  apply (C4_nearest_tie_earlier_day argsort_stable Fixtures.subscriber_times 1
           (mkPoint (Fixtures.day 2) 3) (mkPoint (Fixtures.day 3) 3)
           Fixtures.normalised_posts Fixtures.launch).
  - apply argsort_stable_spec.
  - vm_compute. reflexivity.
  - vm_compute. reflexivity.
  - vm_compute. reflexivity.
  - left.
  - reflexivity.
Defined.

(** The witness of C5: of the two normalised posts only "Launch" lies in the
    span of the series, and it is the one matched. *)
Lemma C5_catalyst_matcher_witness :
  (catalyst_overlay argsort_stable (Some Fixtures.normalised_posts)
     (reset_index (daily_growth Fixtures.subscriber_times))).1
  = reset_index (daily_growth Fixtures.subscriber_times).
Proof.
  apply (C5_catalyst_matcher argsort_stable Fixtures.normalised_posts
           Fixtures.subscriber_times argsort_stable_spec).
Defined.

(** The witness of C6: the posts frame of the fixtures and the window from
    day 5 to day 8. *)
Lemma C6_catalyst_window_search_witness :
  Sorted Z.le
    (stamp <$> catalysts_in_window (Fixtures.day 5) (Fixtures.day 8)
                 (trows Fixtures.normalised_posts)).
Proof.
  apply (C6_catalyst_window_search Fixtures.to_datetime argsort_stable
           Fixtures.posts Fixtures.normalised_posts (Fixtures.day 5) (Fixtures.day 8)
           argsort_stable_spec fixture_posts_normalised).
Defined.

Lemma fixture_posts_parsed :
  ∃ parsed, parse_column Fixtures.to_datetime "post_date" (rows Fixtures.posts)
            = Some parsed.
Proof. eexists. vm_compute. reflexivity. Qed.

(** The witness of C8: the posts of the fixtures have an [is_published]
    column, and every row kept carries the flag [True]. *)
Lemma C8_is_published_filter_witness :
  ∃ out,
    process_posts Fixtures.to_datetime argsort_stable (Some Fixtures.posts) = Return out ∧
    ∀ r, r ∈ trows out → cells r !! "is_published"%string = Some (Bool true).
Proof.
  destruct fixture_posts_parsed as [parsed Hparsed].
  assert (Hcol : "post_date"%string ∈ columns Fixtures.posts).
  { apply (bool_decide_unpack _). vm_compute. exact I. }
  assert (Hpub : "is_published"%string ∈ columns Fixtures.posts).
  { apply (bool_decide_unpack _). vm_compute. exact I. }
  destruct (C8_is_published_filter Fixtures.to_datetime argsort_stable Fixtures.posts
              parsed argsort_stable_spec Hcol Hparsed) as (out & Hout & Hflag & _).
  exists out. split; [exact Hout|]. apply (Hflag Hpub).
Defined.

(** The witness of C9: the four subscribers of the fixtures come out in
    ascending order. *)
Lemma C9_sorted_ascending_witness :
  ∃ out,
    process_subscribers Fixtures.to_datetime argsort_stable (Some Fixtures.subscribers)
    = Return out ∧
    stamp <$> trows out
    = [Fixtures.day 1 + 5; Fixtures.day 1 + 9; Fixtures.day 2 + 7; Fixtures.day 4].
Proof.
  assert (Hcol : "created_at"%string ∈ columns Fixtures.subscribers).
  { apply (bool_decide_unpack _). vm_compute. exact I. }
  assert (Hparsed : ∃ parsed,
            parse_column Fixtures.to_datetime "created_at" (rows Fixtures.subscribers)
            = Some parsed).
  { eexists. vm_compute. reflexivity. }
  destruct Hparsed as [parsed Hparsed].
  destruct (C9_sorted_ascending Fixtures.to_datetime argsort_stable Fixtures.subscribers
              parsed argsort_stable_spec Hcol Hparsed) as (out & sorted & Hout & _).
  exists out. split; [exact Hout|].
  assert (Hrun : process_subscribers Fixtures.to_datetime argsort_stable
                   (Some Fixtures.subscribers)
                 = Return out) by exact Hout.
  vm_compute in Hrun. injection Hrun as <-. vm_compute. reflexivity.
Defined.

(** The counterexample to C9 as stated: twenty subscribers who joined at
    the same instant, "a" to "t" in the table.  The sort the code runs,
    numpy's quicksort, hands them back in another order, so two of them
    have changed places although their timestamps are equal.  The outcome
    is the same for the values 16 and 15 of numpy's cut-off
    [SMALL_QUICKSORT]. *)
Lemma C9_counterexample :
  length (rows Fixtures.tied_subscribers) = 20%nat ∧
  Forall (λ r : gmap string Cell,
            r !! "created_at"%string = Some (Int (Fixtures.day 1 + 5)))
    (rows Fixtures.tied_subscribers) ∧
  ∃ out,
    process_subscribers Fixtures.to_datetime (aquicksort 16)
      (Some Fixtures.tied_subscribers) = Return out ∧
    process_subscribers Fixtures.to_datetime (aquicksort 15)
      (Some Fixtures.tied_subscribers) = Return out ∧
    Sorted Z.le (stamp <$> trows out) ∧
    (λ r, cells r !! "email"%string) <$> trows out
      ≠ (λ r : gmap string Cell, r !! "email"%string) <$> rows Fixtures.tied_subscribers.
Proof.
  split_and!.
  - reflexivity.
  - apply (bool_decide_unpack _). vm_compute. reflexivity.
  - eexists. split_and!.
    + vm_compute. reflexivity.
    + vm_compute. reflexivity.
    + apply (bool_decide_unpack _). vm_compute. reflexivity.
    + apply (bool_decide_unpack _). vm_compute. reflexivity.
Qed.

End Witnesses.

(** * Further properties of the daily series *)

Section GrowthExtras.
Import Time Growth Sorting Table.

Lemma filter_ext_elem_of {A} (P Q : A → Prop)
    `{!∀ x, Decision (P x), !∀ x, Decision (Q x)} (l : list A) :
  (∀ x, x ∈ l → P x ↔ Q x) → filter P l = filter Q l.
Proof.
  induction l as [|x l IH]; intros Hiff; [done|].
  rewrite !filter_cons, IH by (intros y Hy; apply Hiff; by right).
  destruct (decide (P x)) as [HP|HP], (decide (Q x)) as [HQ|HQ]; try done;
    by apply (Hiff x ltac:(left)) in HP || apply (Hiff x ltac:(left)) in HQ.
Qed.

Lemma count_between_from_floor ts lo b :
  (∀ t, t ∈ ts → lo ≤ t) →
  count_between ts lo b = Z.of_nat (length (filter (λ t, t < b) ts)).
Proof.
  intros Hlo. unfold count_between. do 2 f_equal.
  apply filter_ext_elem_of. intros t Ht. specialize (Hlo t Ht). lia.
Qed.

(** Every row of the daily series sits on a midnight, and its cumulative
    count is the number of events before the next midnight. *)
Theorem daily_growth_counts_events_to_date (ts : list Z) (p : DailyGrowthPoint) :
  p ∈ daily_growth ts →
  floor_D (created_at p) = created_at p ∧
  total_subscribers p
  = Z.of_nat (length (filter (λ t, t < created_at p + ns_per_day) ts)).
Proof.
  intros [k Hk]%list_elem_of_lookup.
  assert (Hne : ts ≠ []) by (intros ->; done).
  destruct (series_min_is_Some ts Hne) as [lo Hlo].
  destruct (series_max_is_Some ts Hne) as [hi Hhi].
  destruct (daily_growth_closed_form ts lo hi Hlo Hhi) as [Hlen Hrow].
  rewrite Hrow in Hk by (rewrite <-Hlen; eauto using lookup_lt_Some).
  injection Hk as <-. simpl. split.
  - rewrite nth_day_floor. unfold floor_D, day_of.
    by rewrite Z.div_mul by (pose proof ns_per_day_pos; lia).
  - rewrite nth_day_S. apply count_between_from_floor.
    intros t Ht. apply series_min_spec in Hlo as [_ Hlo].
    specialize (Hlo t Ht). pose proof (floor_D_le lo). lia.
Qed.

Lemma daily_growth_counts_events_to_date_witness :
  total_subscribers (mkPoint (Fixtures.day 2) 3)
  = Z.of_nat (length (filter (λ t, t < Fixtures.day 2 + ns_per_day)
                        Fixtures.subscriber_times)).
Proof.
  apply (daily_growth_counts_events_to_date Fixtures.subscriber_times
           (mkPoint (Fixtures.day 2) 3)).
  rewrite fixture_daily_growth. right. left.
Defined.

Lemma series_min_Permutation ts ts' : ts ≡ₚ ts' → series_min ts = series_min ts'.
Proof.
  intros Hperm. destruct (series_min ts) as [lo|] eqn:Hlo.
  - symmetry. apply series_min_spec. apply series_min_spec in Hlo as [Hin Hle].
    split; [by rewrite <-Hperm|]. intros t Ht. apply Hle. by rewrite Hperm.
  - destruct ts; [|done]. by apply Permutation_nil in Hperm as ->.
Qed.

Lemma series_max_Permutation ts ts' : ts ≡ₚ ts' → series_max ts = series_max ts'.
Proof.
  intros Hperm. destruct (series_max ts) as [hi|] eqn:Hhi.
  - symmetry. apply series_max_spec. apply series_max_spec in Hhi as [Hin Hle].
    split; [by rewrite <-Hperm|]. intros t Ht. apply Hle. by rewrite Hperm.
  - destruct ts; [|done]. by apply Permutation_nil in Hperm as ->.
Qed.

Lemma daily_growth_perm (ts ts' : list Z) :
  ts ≡ₚ ts' → daily_growth ts = daily_growth ts'.
Proof.
  intros Hperm. unfold daily_growth, resample_D_size.
  rewrite <-(series_min_Permutation ts ts' Hperm), <-(series_max_Permutation ts ts' Hperm).
  assert (Hbin : ∀ d, bin_size ts d = bin_size ts' d).
  { intros d. unfold bin_size. by rewrite Hperm. }
  destruct (series_min ts), (series_max ts); try done.
  assert (Hsame : ∀ dates : list Z,
            (λ d, (d, bin_size ts d)) <$> dates = (λ d, (d, bin_size ts' d)) <$> dates).
  { intros dates. apply list_fmap_ext. intros _ d _. by rewrite Hbin. }
  by rewrite Hsame.
Qed.

(** The daily series depends on which timestamps there are, not on the
    order of the rows; so the chart of the normalised roster is the chart of
    the parsed rows in table order, whatever sorter [sort_values] uses. *)
Theorem daily_growth_order_free (to_datetime : Cell → option Z)
    (argsort : list Z → list nat) (df : DataFrame)
    (parsed : list TimedRow) (out : TimedFrame) :
  argsort_spec argsort →
  parse_column to_datetime "created_at" (rows df) = Some parsed →
  process_subscribers to_datetime argsort (Some df) = Return out →
  (∀ ts, ts ≡ₚ stamp <$> parsed → daily_growth ts = daily_growth (stamp <$> parsed)) ∧
  daily_growth (stamp <$> trows out) = daily_growth (stamp <$> parsed).
Proof.
  intros Hspec Hparsed Hout. split; [intros ts; apply daily_growth_perm|].
  unfold process_subscribers in Hout.
  case_bool_decide; [|done]. rewrite Hparsed in Hout. injection Hout as <-. simpl.
  rewrite assign_range_stamp. apply daily_growth_perm.
  by rewrite (sort_values_Permutation argsort Hspec).
Qed.

Lemma fixture_subscribers_parsed :
  parse_column Fixtures.to_datetime "created_at" (rows Fixtures.subscribers)
  = Some (trows Fixtures.parsed_subscribers).
Proof. vm_compute. reflexivity. Qed.

Lemma fixture_subscribers_normalised :
  process_subscribers Fixtures.to_datetime argsort_stable (Some Fixtures.subscribers)
  = Return Fixtures.normalised_subscribers.
Proof. vm_compute. reflexivity. Qed.

Lemma daily_growth_order_free_witness :
  daily_growth (stamp <$> trows Fixtures.normalised_subscribers)
  = daily_growth (stamp <$> trows Fixtures.parsed_subscribers).
Proof.
  apply (daily_growth_order_free Fixtures.to_datetime argsort_stable
           Fixtures.subscribers (trows Fixtures.parsed_subscribers)
           Fixtures.normalised_subscribers argsort_stable_spec
           fixture_subscribers_parsed fixture_subscribers_normalised).
Defined.

End GrowthExtras.

(** * Further properties of the spike detector *)

Section SpikeExtras.
Import Time Growth Sorting Table Overlay Spike Dashboard.

(** The policy for a zero denominator: a count that grows from zero gives
    the ratio [inf], which is not [nan], so it takes part in the search and
    wins it.  (The pipeline never produces such a series, see C10.) *)
Theorem spike_zero_denominator_wins (pts : list DailyGrowthPoint)
    (posts_df : option TimedFrame) (i : nat) (a : Z) :
  Forall (λ p, 0 ≤ total_subscribers p) pts →
  (3 ≤ i)%nat →
  (total_subscribers <$> pts) !! i = Some a → 0 < a →
  (total_subscribers <$> pts) !! (i - 3)%nat = Some 0 →
  pct_change 3 (total_subscribers <$> pts) !! i = Some inf ∧
  ∃ window_start peak_date found,
    spike_analysis (reset_index pts) posts_df
    = TopWindow window_start peak_date inf found.
Proof.
  intros Hpos Hi Ha Hgt Hzero.
  assert (Hinf : pct_change 3 (total_subscribers <$> pts) !! i = Some inf).
  { rewrite (pct_change_lookup_ge 3 _ i a 0) by done.
    unfold true_div. rewrite bool_decide_eq_true_2 by done.
    by rewrite bool_decide_eq_true_2 by done. }
  split; [done|].
  assert (Hsome : forallb isna (pct_change 3 (total_subscribers <$> pts)) = false).
  { apply forallb_isna_false. by exists i, inf. }
  destruct (spike_analysis_selects pts posts_df Hpos Hsome)
    as (j & p & v & _ & _ & _ & Hna & -> & Hmax & _).
  specialize (Hmax i inf Hinf eq_refl).
  destruct v; try done. by eexists _, _, _.
Qed.

Lemma spike_zero_denominator_wins_witness :
  ∃ window_start peak_date found,
    spike_analysis
      (reset_index [mkPoint 0 0; mkPoint 1 0; mkPoint 2 0; mkPoint 3 5]) None
    = TopWindow window_start peak_date inf found.
Proof.
  apply (spike_zero_denominator_wins
           [mkPoint 0 0; mkPoint 1 0; mkPoint 2 0; mkPoint 3 5] None 3 5).
  - repeat constructor; simpl; lia.
  - lia.
  - reflexivity.
  - lia.
  - reflexivity.
Defined.

Lemma spike_not_enough_rows ts posts_df :
  spike_analysis (reset_index (daily_growth ts)) posts_df ≠ KeyError.
Proof.
  assert (Hpos : Forall (λ p, 1 ≤ total_subscribers p) (daily_growth ts)).
  { apply Forall_forall. intros p Hp. by apply (daily_growth_total_pos ts). }
  assert (Hpos0 : Forall (λ p, 0 ≤ total_subscribers p) (daily_growth ts)).
  { eapply Forall_impl; [exact Hpos|]. intros; simpl in *; lia. }
  destruct (decide (length (daily_growth ts) < 4)%nat) as [Hlt|Hge].
  - apply (pct_change_all_nan_iff_short _ Hpos) in Hlt.
    apply (spike_analysis_not_enough _ posts_df Hpos0) in Hlt. by rewrite Hlt.
  - destruct (spike_analysis_positive_selects (daily_growth ts) posts_df Hpos)
      as (i & p & q & _ & _ & _ & Hres & _); [lia|]. by rewrite Hres.
Qed.

(** On the series the pipeline builds the detector never fails on a label,
    and it reports "not enough data" exactly when the series has fewer than
    four rows, that is when the first and the last join are less than three
    calendar days apart. *)
Theorem spike_not_enough_data_iff_short_span (ts : list Z)
    (posts_df : option TimedFrame) :
  let report := spike_analysis (reset_index (daily_growth ts)) posts_df in
  report ≠ KeyError ∧
  (report = NotEnoughData ↔ (length (daily_growth ts) < 4)%nat) ∧
  (∀ lo hi, series_min ts = Some lo → series_max ts = Some hi →
     (report = NotEnoughData ↔ day_of hi - day_of lo < 3)).
Proof.
  intros report.
  assert (Hpos : Forall (λ p, 1 ≤ total_subscribers p) (daily_growth ts)).
  { apply Forall_forall. intros p Hp. by apply (daily_growth_total_pos ts). }
  assert (Hpos0 : Forall (λ p, 0 ≤ total_subscribers p) (daily_growth ts)).
  { eapply Forall_impl; [exact Hpos|]. intros; simpl in *; lia. }
  assert (Hshort : report = NotEnoughData ↔ (length (daily_growth ts) < 4)%nat).
  { unfold report. rewrite (spike_analysis_not_enough _ posts_df Hpos0).
    by apply pct_change_all_nan_iff_short. }
  split_and!.
  - apply spike_not_enough_rows.
  - exact Hshort.
  - intros lo hi Hlo Hhi. rewrite Hshort.
    destruct (daily_growth_closed_form ts lo hi Hlo Hhi) as [-> _].
    pose proof (day_of_mono lo hi (series_min_le_max ts lo hi Hlo Hhi)). lia.
Qed.

(** When the pipeline's series has a spike, its window is made of rows of
    the series: the peak is a row [i >= 3], the window starts on the date
    of row [i - 3], and the growth shown is the [float64] value of
    [peak / start - 1] for the counts of those two rows.  It is never
    negative, and on a roster of fewer than 2^53 rows it is within 2^-52
    of [peak / start] of the exact growth between the two rows. *)
Theorem spike_window_rows (ts : list Z) (posts_df : option TimedFrame)
    (window_start peak_date : Z) (max_val : float64) (found : Catalysts) :
  Z.of_nat (length ts) < 2 ^ 53 →
  spike_analysis (reset_index (daily_growth ts)) posts_df
    = TopWindow window_start peak_date max_val found →
  ∃ i start peak q,
    (3 ≤ i)%nat ∧
    daily_growth ts !! (i - 3)%nat = Some start ∧
    daily_growth ts !! i = Some peak ∧
    window_start = created_at start ∧ peak_date = created_at peak ∧
    max_val = fin q ∧
    sub_one (true_div (total_subscribers peak) (total_subscribers start)) = fin q ∧
    (0 <= q)%Q ∧
    (Qabs (q - inject_Z (total_subscribers peak - total_subscribers start)
               / inject_Z (total_subscribers start))
     <= inject_Z (total_subscribers peak) / inject_Z (total_subscribers start)
        * (1 # 2 ^ 52))%Q.
Proof.
  intros Hsize Hreport.
  assert (Hpos : Forall (λ p, 1 ≤ total_subscribers p) (daily_growth ts)).
  { apply Forall_forall. intros p Hp. by apply (daily_growth_total_pos ts). }
  assert (Hpos0 : Forall (λ p, 0 ≤ total_subscribers p) (daily_growth ts)).
  { eapply Forall_impl; [exact Hpos|]. intros; simpl in *; lia. }
  destruct (decide (length (daily_growth ts) < 4)%nat) as [Hlt|Hge].
  { apply (pct_change_all_nan_iff_short _ Hpos) in Hlt.
    apply (spike_analysis_not_enough _ posts_df Hpos0) in Hlt. congruence. }
  destruct (spike_analysis_positive_selects (daily_growth ts) posts_df Hpos)
    as (i & peak & q & Hi & Hpeak & Hq & Hres & _); [lia|].
  rewrite Hres in Hreport. injection Hreport as <- <- <- <-.
  destruct (lookup_lt_is_Some_2 (daily_growth ts) (i - 3)%nat) as [start Hstart].
  { apply lookup_lt_Some in Hpeak. lia. }
  exists i, start, peak, q.
  destruct (pct_change_3_ratio (daily_growth ts) i
              (total_subscribers peak) (total_subscribers start) Hpos Hi)
    as (q' & Hq' & Heq).
  { by rewrite list_lookup_fmap, Hpeak. }
  { by rewrite list_lookup_fmap, Hstart. }
  assert (q' = q) as -> by congruence.
  assert (Hne : ts ≠ []) by (intros ->; done).
  destruct (series_min_is_Some ts Hne) as [lo Hlo].
  destruct (series_max_is_Some ts Hne) as [hi Hhi].
  destruct (daily_growth_closed_form ts lo hi Hlo Hhi) as [Hlen Hrow].
  assert (Hik : (i < S (Z.to_nat (day_of hi - day_of lo)))%nat).
  { rewrite <-Hlen. eauto using lookup_lt_Some. }
  pose proof (daily_growth_total_mono ts (i - 3)%nat i start peak
                ltac:(lia) Hstart Hpeak) as Hmono.
  assert (Hstart1 : 1 ≤ total_subscribers start).
  { apply (daily_growth_total_pos ts). by eapply list_elem_of_lookup_2. }
  pose proof (daily_growth_total_le_length ts i peak Hpeak) as Hle.
  destruct (growth_ratio (total_subscribers peak) (total_subscribers start)
              Hstart1 Hmono ltac:(lia)) as (q' & Hq'' & H0 & _ & Herr).
  assert (q' = q) as -> by congruence.
  split_and!; try done.
  rewrite Hrow in Hpeak, Hstart by lia.
  injection Hpeak as <-. injection Hstart as <-. simpl.
  unfold nth_day, Timedelta_days. rewrite Nat2Z.inj_sub by lia. simpl. lia.
Qed.

(** Every catalyst the spike panel lists was published in the five days
    that end with the midnight of the peak date, both ends included; a post
    published later on the peak day is not listed. *)
Theorem spike_catalysts_within_five_days (daily : list (nat * DailyGrowthPoint))
    (posts_df : TimedFrame) (window_start peak_date : Z) (max_val : float64)
    (found : list TimedRow) :
  spike_analysis daily (Some posts_df)
    = TopWindow window_start peak_date (max_val) (Found found) →
  found ≠ [] ∧
  ∀ post, post ∈ found ↔
    post ∈ trows posts_df ∧ peak_date - Timedelta_days 5 ≤ stamp post ≤ peak_date.
Proof.
  intros [-> Hfound]%spike_analysis_window.
  unfold find_catalysts in Hfound.
  destruct (catalysts_in_window _ _ _) as [|r rs] eqn:Hcat; [done|].
  injection Hfound as ->. split; [done|].
  intros post. rewrite <-Hcat. unfold catalysts_in_window.
  rewrite list_elem_of_filter. unfold Timedelta_days. split.
  - intros [? ?]. split; [done | lia].
  - intros [? ?]. split; [lia | done].
Qed.

Lemma fixture_spike :
  spike_analysis (reset_index (daily_growth Fixtures.subscriber_times))
    (Some Fixtures.normalised_posts)
  = TopWindow (Fixtures.day 1) (Fixtures.day 4) (fin 1) (Found [Fixtures.launch]).
Proof. vm_compute. reflexivity. Qed.

Lemma spike_window_rows_witness :
  Z.of_nat (length Fixtures.subscriber_times) < 2 ^ 53 ∧
  ∃ i start peak q,
    (3 ≤ i)%nat ∧
    daily_growth Fixtures.subscriber_times !! (i - 3)%nat = Some start ∧
    daily_growth Fixtures.subscriber_times !! i = Some peak ∧
    Fixtures.day 1 = created_at start ∧ Fixtures.day 4 = created_at peak ∧
    fin 1 = fin q ∧
    sub_one (true_div (total_subscribers peak) (total_subscribers start)) = fin q ∧
    (0 <= q)%Q ∧
    (Qabs (q - inject_Z (total_subscribers peak - total_subscribers start)
               / inject_Z (total_subscribers start))
     <= inject_Z (total_subscribers peak) / inject_Z (total_subscribers start)
        * (1 # 2 ^ 52))%Q.
Proof.
  split; [vm_compute; reflexivity|].
  apply (spike_window_rows Fixtures.subscriber_times (Some Fixtures.normalised_posts)
           (Fixtures.day 1) (Fixtures.day 4) (fin 1) (Found [Fixtures.launch])).
  - vm_compute. reflexivity.
  - apply fixture_spike.
Defined.

Lemma spike_catalysts_within_five_days_witness :
  [Fixtures.launch] ≠ [] ∧
  ∀ post, post ∈ [Fixtures.launch] ↔
    post ∈ trows Fixtures.normalised_posts ∧
    Fixtures.day 4 - Timedelta_days 5 ≤ stamp post ≤ Fixtures.day 4.
Proof.
  apply (spike_catalysts_within_five_days
           (reset_index (daily_growth Fixtures.subscriber_times))
           Fixtures.normalised_posts (Fixtures.day 1) (Fixtures.day 4) (fin 1)).
  apply fixture_spike.
Defined.

End SpikeExtras.

(** * Where a post lands on the chart *)

Section OverlayExtras.
Import Time Growth Sorting Table Overlay Dashboard.

Lemma asof_backward_eq v keys k a :
  StronglySorted Z.le keys →
  keys !! k = Some a → a ≤ v → (∀ b, keys !! S k = Some b → v < b) →
  asof_backward v keys = Some k.
Proof.
  intros Hs Ha Hav Hnext.
  destruct (asof_backward v keys) as [b'|] eqn:E.
  - destruct (asof_backward_Some v keys b' Hs E) as (x & Hx & Hle & Hlast).
    f_equal. pose proof (Hlast k a Ha Hav).
    destruct (decide (b' ≤ k)%nat); [lia|].
    destruct (lookup_lt_is_Some_2 keys (S k)) as [b Hb].
    { apply lookup_lt_Some in Hx. lia. }
    pose proof (sorted_lookup_le keys (S k) b' b x Hs ltac:(lia) Hb Hx).
    specialize (Hnext b Hb). lia.
  - pose proof (asof_backward_None v keys Hs E k a Ha). lia.
Qed.

Lemma asof_forward_eq v keys k b :
  StronglySorted Z.le keys →
  keys !! k = Some b → v ≤ b →
  (∀ j a, (j < k)%nat → keys !! j = Some a → a < v) →
  asof_forward v keys = Some k.
Proof.
  intros Hs Hb Hvb Hprev.
  destruct (asof_forward v keys) as [f'|] eqn:E.
  - destruct (asof_forward_Some v keys f' Hs E) as (x & Hx & Hge & Hfirst).
    f_equal. pose proof (Hfirst k b Hb Hvb).
    destruct (decide (k ≤ f')%nat); [lia|].
    specialize (Hprev f' x ltac:(lia) Hx). lia.
  - pose proof (asof_forward_None v keys E k b Hb). lia.
Qed.

Lemma nth_day_seq_lookup first n k :
  (k < n)%nat → (nth_day first <$> seq 0 n) !! k = Some (nth_day first k).
Proof. intros Hk. by rewrite list_lookup_fmap, lookup_seq_lt. Qed.

Lemma nth_day_seq_lookup_inv first n k d :
  (nth_day first <$> seq 0 n) !! k = Some d → (k < n)%nat ∧ d = nth_day first k.
Proof.
  rewrite list_lookup_fmap. destruct (seq 0 n !! k) as [j|] eqn:Hj; simpl; [|done].
  apply lookup_seq in Hj as [-> Hk]. intros [= <-]. done.
Qed.

(** A post within the span of the series is drawn on the day it was
    published when it came out at or before noon, and on the next day
    otherwise. *)
Theorem overlay_rounds_to_nearest_midnight (ts : list Z)
    (posts left : list TimedRow) (post : TimedRow) (m : option DailyGrowthPoint) :
  post ∈ relevant_posts posts (daily_growth ts) →
  (post, m) ∈ merge_asof_nearest left (daily_growth ts) →
  ∃ p, m = Some p ∧ p ∈ daily_growth ts ∧
       created_at p = nearest_midnight (stamp post).
Proof.
  intros [_ (lo_d & hi_d & Hlo_d & Hhi_d & Hspan)]%relevant_posts_elem_of
         [_ ->]%merge_asof_nearest_elem_of.
  assert (Hne : ts ≠ []) by (intros ->; done).
  destruct (series_min_is_Some ts Hne) as [lo Hlo].
  destruct (series_max_is_Some ts Hne) as [hi Hhi].
  pose proof (daily_growth_dates ts lo hi Hlo Hhi) as Hdates.
  destruct (daily_growth_closed_form ts lo hi Hlo Hhi) as [Hlen Hrow].
  set (N := S (Z.to_nat (day_of hi - day_of lo))) in *.
  set (F := floor_D lo) in *.
  set (t := stamp post) in *.
  rewrite Hdates in Hlo_d, Hhi_d |- *.
  assert (Hsorted : StronglySorted Z.le (nth_day F <$> seq 0 N)).
  { apply StronglySorted_lt_le, nth_day_seq_increasing. }
  apply series_min_spec in Hlo_d as [[k0 Hk0]%list_elem_of_lookup _].
  apply nth_day_seq_lookup_inv in Hk0 as [Hk0 ->].
  apply series_max_spec in Hhi_d as [[k1 Hk1]%list_elem_of_lookup _].
  apply nth_day_seq_lookup_inv in Hk1 as [Hk1 ->].
  pose proof (nth_day_ge F k0) as HF.
  pose proof (nth_day_mono F k1 (N - 1) ltac:(lia)) as Hlast.
  pose proof ns_per_day_pos as Hday.
  assert (Hdlo : day_of lo ≤ day_of t).
  { rewrite <-(floor_D_day_of lo). apply day_of_mono. fold F. lia. }
  set (kt := Z.to_nat (day_of t - day_of lo)).
  assert (Hd : nth_day F kt = floor_D t).
  { unfold nth_day, F, floor_D, kt. rewrite Z2Nat.id by lia. lia. }
  assert (Hkt : (kt < N)%nat).
  { assert (day_of t ≤ day_of (nth_day F (N - 1))) as Hle by (apply day_of_mono; lia).
    unfold F in Hle. rewrite nth_day_floor in Hle. unfold day_of at 2 in Hle.
    rewrite Z.div_mul in Hle by lia. unfold kt. lia. }
  pose proof (floor_D_le t) as Hfl. pose proof (floor_D_lt t) as Hfu.
  assert (Hback : asof_backward t (nth_day F <$> seq 0 N) = Some kt).
  { apply (asof_backward_eq _ _ kt (floor_D t) Hsorted).
    - rewrite nth_day_seq_lookup by done. by rewrite Hd.
    - done.
    - intros b [_ ->]%nth_day_seq_lookup_inv. rewrite nth_day_S, Hd. lia. }
  assert (Heven : ns_per_day = 2 * (ns_per_day `div` 2)) by reflexivity.
  assert (Hgoal : asof_nearest t (nth_day F <$> seq 0 N)
                  = Some (if bool_decide (t - floor_D t ≤ ns_per_day `div` 2)
                          then kt else S kt)
                  ∧ (¬ t - floor_D t ≤ ns_per_day `div` 2 → (S kt < N)%nat)).
  { destruct (decide (t = floor_D t)) as [Heq|Hneq].
    - assert (Hfwd : asof_forward t (nth_day F <$> seq 0 N) = Some kt).
      { apply (asof_forward_eq _ _ kt (floor_D t) Hsorted).
        - rewrite nth_day_seq_lookup by done. by rewrite Hd.
        - lia.
        - intros j a Hj [_ ->]%nth_day_seq_lookup_inv.
          pose proof (nth_day_mono F (S j) kt ltac:(lia)). rewrite nth_day_S in *. lia. }
      unfold asof_nearest. rewrite Hback, Hfwd.
      rewrite (list_lookup_total_correct _ kt (floor_D t))
        by (rewrite nth_day_seq_lookup by done; by rewrite Hd).
      rewrite bool_decide_eq_true_2 by lia.
      rewrite bool_decide_eq_true_2 by lia. split; [done | lia].
    - assert (HSk : (S kt < N)%nat).
      { destruct (decide (S kt < N)%nat); [done|]. exfalso.
        assert (kt = (N - 1)%nat) as Hkeq by lia.
        pose proof (nth_day_mono F k1 kt ltac:(lia)). lia. }
      assert (Hfwd : asof_forward t (nth_day F <$> seq 0 N) = Some (S kt)).
      { apply (asof_forward_eq _ _ (S kt) (floor_D t + ns_per_day) Hsorted).
        - rewrite nth_day_seq_lookup by done. by rewrite nth_day_S, Hd.
        - lia.
        - intros j a Hj [_ ->]%nth_day_seq_lookup_inv.
          pose proof (nth_day_mono F j kt ltac:(lia)). lia. }
      unfold asof_nearest. rewrite Hback, Hfwd.
      rewrite (list_lookup_total_correct _ kt (floor_D t))
        by (rewrite nth_day_seq_lookup by done; by rewrite Hd).
      rewrite (list_lookup_total_correct _ (S kt) (floor_D t + ns_per_day))
        by (rewrite nth_day_seq_lookup by done; by rewrite nth_day_S, Hd).
      split; [|done]. f_equal.
      destruct (decide (t - floor_D t ≤ ns_per_day `div` 2)).
      + rewrite !bool_decide_eq_true_2 by lia. done.
      + rewrite !bool_decide_eq_false_2 by lia. done. }
  destruct Hgoal as [-> Hnext]. simpl. unfold nearest_midnight. fold t.
  case_bool_decide as Hnoon.
  - rewrite Hrow by done. eexists. split; [done|]. split.
    + eapply list_elem_of_lookup_2. by apply Hrow.
    + simpl. exact Hd.
  - specialize (Hnext Hnoon). rewrite Hrow by done. eexists. split; [done|]. split.
    + eapply list_elem_of_lookup_2. by apply Hrow.
    + simpl. by rewrite nth_day_S, Hd.
Qed.

Lemma overlay_rounds_to_nearest_midnight_witness :
  ∃ p, Some (mkPoint (Fixtures.day 2) 3) = Some p ∧
       p ∈ daily_growth Fixtures.subscriber_times ∧
       created_at p = nearest_midnight (stamp Fixtures.launch).
Proof.
  apply (overlay_rounds_to_nearest_midnight Fixtures.subscriber_times
           (trows Fixtures.normalised_posts) (trows Fixtures.normalised_posts)
           Fixtures.launch (Some (mkPoint (Fixtures.day 2) 3))).
  - vm_compute. left.
  - apply merge_asof_nearest_elem_of. split; [left | vm_compute; reflexivity].
Defined.

End OverlayExtras.

(** * The truth test on cells *)

Section TruthTest.
Import Table.

Lemma lower_ascii_cases (c : ascii) :
  (lower_ascii c = "t"%char ↔ c = "t"%char ∨ c = "T"%char) ∧
  (lower_ascii c = "r"%char ↔ c = "r"%char ∨ c = "R"%char) ∧
  (lower_ascii c = "u"%char ↔ c = "u"%char ∨ c = "U"%char) ∧
  (lower_ascii c = "e"%char ↔ c = "e"%char ∨ c = "E"%char).
Proof.
  destruct c as [[] [] [] [] [] [] [] []]; vm_compute; split_and!;
    first [ intros [=]; ((by left) || (by right))
          | intros [[=]|[=]]; reflexivity ].
Qed.

Lemma str_lower_true (s : string) :
  str_lower s = "true"%string ↔
  ∃ c1 c2 c3 c4,
    s = String c1 (String c2 (String c3 (String c4 EmptyString))) ∧
    (c1 = "t"%char ∨ c1 = "T"%char) ∧ (c2 = "r"%char ∨ c2 = "R"%char) ∧
    (c3 = "u"%char ∨ c3 = "U"%char) ∧ (c4 = "e"%char ∨ c4 = "E"%char).
Proof.
  split.
  - destruct s as [|c1 [|c2 [|c3 [|c4 [|c5 s]]]]]; simpl; try done.
    intros [= H1 H2 H3 H4]. exists c1, c2, c3, c4.
    destruct (lower_ascii_cases c1) as (Ht & _).
    destruct (lower_ascii_cases c2) as (_ & Hr & _).
    destruct (lower_ascii_cases c3) as (_ & _ & Hu & _).
    destruct (lower_ascii_cases c4) as (_ & _ & _ & He).
    split_and!; [done | by apply Ht | by apply Hr | by apply Hu | by apply He].
  - intros (c1 & c2 & c3 & c4 & -> & H1 & H2 & H3 & H4). simpl.
    destruct (lower_ascii_cases c1) as (Ht & _).
    destruct (lower_ascii_cases c2) as (_ & Hr & _).
    destruct (lower_ascii_cases c3) as (_ & _ & Hu & _).
    destruct (lower_ascii_cases c4) as (_ & _ & _ & He).
    apply Ht in H1. apply Hr in H2. apply Hu in H3. apply He in H4.
    by rewrite H1, H2, H3, H4.
Qed.

Lemma pretty_N_char_not_t x : lower_ascii (pretty_N_char x) ≠ "t"%char.
Proof. unfold pretty_N_char. by repeat case_match. Qed.

(** A printed number starts with a digit. *)
Lemma pretty_N_go_head x : ∀ s,
  (0 < x)%N → ∃ d rest, pretty_N_go x s = String (pretty_N_char d) rest.
Proof.
  induction (N.lt_wf_0 x) as [x _ IH]. intros s Hx.
  rewrite pretty_N_go_step by done.
  destruct (decide (x `div` 10 = 0)%N) as [Hz|Hnz].
  - rewrite Hz, pretty_N_go_0. by eexists _, _.
  - apply IH.
    + apply N.div_lt; lia.
    + by apply N.neq_0_lt_0.
Qed.

Lemma is_true_Int z : is_true (Int z) = false.
Proof.
  unfold is_true. apply bool_decide_eq_false_2. simpl.
  unfold pretty, pretty_Z. destruct z as [|p|p]; [done| |done].
  unfold pretty, pretty_positive, pretty, pretty_N.
  rewrite decide_False by done.
  destruct (pretty_N_go_head (N.pos p) "" ltac:(done)) as (d & rest & ->).
  simpl. intros [= H _]. by apply pretty_N_char_not_t in H.
Qed.

(** The cells that count as true: the boolean [True], and the sixteen
    spellings of the word in upper and lower case.  Nothing else does: no
    number, no missing value, no other text. *)
Theorem is_true_spellings (c : Cell) :
  is_true c = true ↔
  c = Bool true ∨
  ∃ c1 c2 c3 c4,
    c = Str (String c1 (String c2 (String c3 (String c4 EmptyString)))) ∧
    (c1 = "t"%char ∨ c1 = "T"%char) ∧ (c2 = "r"%char ∨ c2 = "R"%char) ∧
    (c3 = "u"%char ∨ c3 = "U"%char) ∧ (c4 = "e"%char ∨ c4 = "E"%char).
Proof.
  destruct c as [|[]|z|s].
  - split; [done | intros [|(? & ? & ? & ? & ? & _)]; done].
  - split; [by left | done].
  - split; [done | intros [[=]|(? & ? & ? & ? & ? & _)]; done].
  - rewrite is_true_Int. split; [done | intros [|(? & ? & ? & ? & ? & _)]; done].
  - unfold is_true. rewrite bool_decide_eq_true. simpl. rewrite str_lower_true.
    split.
    + intros (c1 & c2 & c3 & c4 & -> & H). right. by exists c1, c2, c3, c4.
    + intros [|(c1 & c2 & c3 & c4 & [= ->] & H)]; [done|]. by exists c1, c2, c3, c4.
Qed.

End TruthTest.

(** * The page as a whole *)

Section PageTheorems.
Import Time Growth Sorting Table Overlay Spike Dashboard.

Lemma catalyst_overlay_frame argsort posts_df ts :
  argsort_spec argsort →
  (catalyst_overlay argsort posts_df (reset_index (daily_growth ts))).1
  = reset_index (daily_growth ts).
Proof.
  intros Hspec. destruct posts_df as [pf|]; [|done].
  by rewrite (catalyst_overlay_daily_growth argsort Hspec).
Qed.

Lemma analyse_fields argsort subs_df posts_df :
  argsort_spec argsort →
  let growth := daily_growth (stamp <$> trows subs_df) in
  let r := analyse argsort subs_df posts_df in
  daily_growth_frame r = reset_index growth ∧
  spike r = spike_analysis (reset_index growth) posts_df ∧
  total_subs r = Z.of_nat (length (trows subs_df)) ∧
  posts_integrated r = (catalyst_overlay argsort posts_df (reset_index growth)).2.
Proof.
  intros Hspec growth r. unfold r, analyse. fold growth.
  pose proof (catalyst_overlay_frame argsort posts_df (stamp <$> trows subs_df) Hspec)
    as Hframe. fold growth in Hframe.
  destruct (catalyst_overlay argsort posts_df (reset_index growth)) as [frame matches].
  simpl in Hframe. by subst frame.
Qed.

(** The re-sort of the chart frame at line 198 changes nothing, whatever
    sort pandas runs: after the overlay the frame is still the dense daily
    series under its [RangeIndex].  The spike analysis, which looks its
    rows up by label, therefore runs on that series and never fails on a
    label. *)
Theorem overlay_keeps_chart_frame (argsort : list Z → list nat)
    (subs_df : TimedFrame) (posts_df : option TimedFrame) :
  argsort_spec argsort →
  let r := analyse argsort subs_df posts_df in
  let growth := daily_growth (stamp <$> trows subs_df) in
  daily_growth_frame r = reset_index growth ∧
  (daily_growth_frame r).*1 = seq 0 (length growth) ∧
  spike r = spike_analysis (reset_index growth) posts_df ∧
  spike r ≠ KeyError.
Proof.
  intros Hspec r growth.
  destruct (analyse_fields argsort subs_df posts_df Hspec)
    as (Hframe & Hspike & _).
  fold r growth in Hframe, Hspike.
  rewrite Hframe, Hspike. split_and!; try done.
  - apply reset_index_fst.
  - apply (spike_not_enough_rows (stamp <$> trows subs_df)).
Qed.

Lemma overlay_keeps_chart_frame_witness :
  (daily_growth_frame (analyse argsort_stable Fixtures.normalised_subscribers
                         (Some Fixtures.normalised_posts))).*1
  = seq 0 (length (daily_growth (stamp <$> trows Fixtures.normalised_subscribers))).
Proof.
  destruct (overlay_keeps_chart_frame argsort_stable Fixtures.normalised_subscribers
              (Some Fixtures.normalised_posts) argsort_stable_spec)
    as (_ & Hlabels & _).
  exact Hlabels.
Defined.

Lemma parse_column_None to_datetime col rs :
  parse_column to_datetime col rs = None ↔
  ∃ row, row ∈ rs ∧ to_datetime (default NaN (row !! col)) = None.
Proof.
  unfold parse_column. rewrite mapM_None, Exists_exists.
  split; intros (row & Hin & H); exists row; (split; [done|]).
  - unfold parse_row in H. by destruct (to_datetime _).
  - unfold parse_row. by rewrite H.
Qed.

(** Fail-fast parsing: with both tables at hand, one cell that
    [pd.to_datetime] cannot parse, in a timestamp column that is present in
    the roster or in the posts, makes the whole run raise; no row is
    skipped and nothing is shown. *)
Theorem run_crashes_on_unparsable (to_datetime : Cell → option Z)
    (argsort : list Z → list nat) (posts subs : DataFrame) :
  ("created_at"%string ∈ columns subs ∧
   ∃ row, row ∈ rows subs ∧
          to_datetime (default NaN (row !! "created_at"%string)) = None) ∨
  ("post_date"%string ∈ columns posts ∧
   ∃ row, row ∈ rows posts ∧
          to_datetime (default NaN (row !! "post_date"%string)) = None) →
  (process_subscribers to_datetime argsort (Some subs) = Raised ∨
   process_posts to_datetime argsort (Some posts) = Raised) ∧
  run to_datetime argsort (Some posts) (Some subs) = Crashed.
Proof.
  rewrite <-!parse_column_None. unfold run.
  intros [[Hs Hbad]|[Hp Hbad]].
  - rewrite process_subscribers_present by done. rewrite Hbad. split; [by left | done].
  - rewrite (process_posts_present _ _ posts) by done. rewrite Hbad.
    split; [by right|].
    by destruct (process_subscribers to_datetime argsort (Some subs)).
Qed.

Lemma run_crashes_on_unparsable_witness :
  run Fixtures.to_datetime argsort_stable
    (Some Fixtures.posts) (Some Fixtures.unparsable_subscribers) = Crashed.
Proof.
  apply (run_crashes_on_unparsable Fixtures.to_datetime argsort_stable
           Fixtures.posts Fixtures.unparsable_subscribers).
  left. split; [by apply (bool_decide_unpack _)|].
  exists {[ "email"%string := Str "b"; "created_at"%string := Str "soon" ]}.
  split; [|reflexivity]. unfold Fixtures.unparsable_subscribers. simpl.
  apply list_elem_of_further, list_elem_of_here.
Defined.

Lemma process_subscribers_columns to_datetime argsort df out col :
  process_subscribers to_datetime argsort (Some df) = Return out →
  col ≠ "total_subscribers"%string →
  col ∈ tcolumns out ↔ col ∈ columns df.
Proof.
  unfold process_subscribers. case_bool_decide; [|done].
  destruct (parse_column _ _ _); [|done]. intros [= <-] Hne. simpl.
  unfold set_column_name. case_bool_decide; [done|].
  rewrite elem_of_app, list_elem_of_singleton. tauto.
Qed.

Lemma process_subscribers_length to_datetime argsort df out :
  argsort_spec argsort →
  process_subscribers to_datetime argsort (Some df) = Return out →
  length (trows out) = length (rows df).
Proof.
  intros Hspec. unfold process_subscribers. case_bool_decide; [|done].
  destruct (parse_column _ _ _) as [parsed|] eqn:Hp; [|done]. intros [= <-]. simpl.
  rewrite assign_range_length, (sort_values_length argsort Hspec).
  by eapply parse_column_length.
Qed.

(** The paid metrics are "N/A" exactly when the roster has no
    [active_subscription] column.  When they are shown, the paid count is
    between 0 and the number of rows, and the conversion rate is between 0
    and 100 per cent; an empty roster gives the rate 0, not a division by
    zero. *)
Theorem paid_metrics_available_and_bounded (to_datetime : Cell → option Z)
    (argsort : list Z → list nat) (df : DataFrame) (out : TimedFrame) :
  argsort_spec argsort →
  process_subscribers to_datetime argsort (Some df) = Return out →
  (paid_metrics out = None ↔ "active_subscription"%string ∉ columns df) ∧
  ∀ paid rate, paid_metrics out = Some (paid, rate) →
    0 ≤ paid ≤ Z.of_nat (length (rows df)) ∧
    (0 <= rate)%Q ∧ (rate <= 100)%Q ∧
    (rows df = [] → rate = 0%Q).
Proof.
  intros Hspec Hout.
  pose proof (process_subscribers_columns to_datetime argsort df out
                "active_subscription" Hout ltac:(done)) as Hcol.
  pose proof (process_subscribers_length to_datetime argsort df out Hspec Hout) as Hlen.
  unfold paid_metrics. split.
  - case_bool_decide; split; try done; tauto.
  - intros paid rate. case_bool_decide; [|done].
    set (is_paid := (λ r, is_true (default NaN (cells r !! "active_subscription"%string)))
                      <$> trows out).
    set (n := Z.of_nat (length (trows out))).
    set (k := Z.of_nat (length (filter (λ b, b = true) is_paid))).
    assert (Hk : 0 ≤ k ≤ n).
    { unfold k, n. pose proof (length_filter (λ b, b = true) is_paid) as Hf.
      unfold is_paid in Hf at 2. rewrite length_fmap in Hf. lia. }
    intros [= <- <-]. rewrite <-Hlen. fold n.
    split; [done|].
    case_bool_decide as Hn.
    + split_and!.
      * apply Qmult_le_0_compat; [|done].
        apply Qle_shift_div_l; [unfold Qlt; simpl; lia|].
        rewrite Qmult_0_l. unfold Qle. simpl. lia.
      * apply Qle_trans with (1 * 100)%Q; [|rewrite Qmult_1_l; apply Qle_refl].
        apply Qmult_le_compat_r; [|done].
        apply Qle_shift_div_r; [unfold Qlt; simpl; lia|].
        rewrite Qmult_1_l. unfold Qle. simpl. lia.
      * intros Hnil. rewrite Hnil in Hlen. unfold n in Hn. rewrite Hlen in Hn.
        simpl in Hn. lia.
    + split_and!; done.
Qed.

Lemma paid_metrics_available_and_bounded_witness :
  paid_metrics Fixtures.normalised_subscribers = None
  ↔ "active_subscription"%string ∉ columns Fixtures.subscribers.
Proof.
  apply (paid_metrics_available_and_bounded Fixtures.to_datetime argsort_stable
           Fixtures.subscribers Fixtures.normalised_subscribers
           argsort_stable_spec fixture_subscribers_normalised).
Defined.

Lemma run_Shown_inv to_datetime argsort posts subs errs r :
  run to_datetime argsort (Some posts) (Some subs) = Shown errs r →
  ∃ subs_df,
    process_subscribers to_datetime argsort (Some subs) = Return subs_df ∧
    ((errs = [] ∧ ∃ posts_df,
        process_posts to_datetime argsort (Some posts) = Return posts_df ∧
        r = analyse argsort subs_df (Some posts_df)) ∨
     (errs = [msg_missing_post_date] ∧ ("post_date"%string ∉ columns posts) ∧
      r = analyse argsort subs_df None)).
Proof.
  unfold run.
  destruct (process_subscribers to_datetime argsort (Some subs)) as [subs_df|e|] eqn:Hs.
  - destruct (process_posts to_datetime argsort (Some posts)) as [posts_df|e|] eqn:Hp;
      [| |done].
    + intros [= <- <-]. exists subs_df. split; [done|]. left. split; [done|]. by eexists.
    + intros [= <- <-]. exists subs_df. split; [done|]. right.
      destruct (decide ("post_date"%string ∈ columns posts)) as [Hin|Hout].
      * rewrite process_posts_present in Hp by done. by destruct (parse_column _ _ _).
      * rewrite process_posts_absent in Hp by done. injection Hp as <-. done.
  - by destruct (process_posts to_datetime argsort (Some posts)).
  - done.
Qed.

(** What a page that shows results went through: the roster had its
    [created_at] column, the only error it can carry is the missing
    [post_date] column of the posts, in which case no post is drawn, and
    "Total Subscribers" is the number of rows of the uploaded roster. *)
Theorem run_shown_results (to_datetime : Cell → option Z)
    (argsort : list Z → list nat) (posts subs : DataFrame)
    (errs : list string) (r : Results) :
  argsort_spec argsort →
  run to_datetime argsort (Some posts) (Some subs) = Shown errs r →
  "created_at"%string ∈ columns subs ∧
  total_subs r = Z.of_nat (length (rows subs)) ∧
  (errs = [] ∨ errs = [msg_missing_post_date]) ∧
  (errs = [] ↔ "post_date"%string ∈ columns posts) ∧
  (errs ≠ [] → posts_integrated r = None).
Proof.
  intros Hspec (subs_df & Hsubs & Hcases)%run_Shown_inv.
  assert (Hcol : "created_at"%string ∈ columns subs).
  { destruct (decide ("created_at"%string ∈ columns subs)) as [|Hout]; [done|].
    by rewrite process_subscribers_absent in Hsubs. }
  assert (Htotal : ∀ posts_df,
            total_subs (analyse argsort subs_df posts_df) = Z.of_nat (length (rows subs))).
  { intros posts_df.
    destruct (analyse_fields argsort subs_df posts_df Hspec) as (_ & _ & -> & _).
    by rewrite (process_subscribers_length to_datetime argsort subs subs_df Hspec Hsubs). }
  destruct Hcases as [(-> & posts_df & Hposts & ->)|(-> & Hout & ->)].
  - split_and!; [done | apply Htotal | by left | | done].
    split; [|done]. intros _.
    destruct (decide ("post_date"%string ∈ columns posts)) as [|Hout]; [done|].
    by rewrite process_posts_absent in Hposts.
  - split_and!; [done | apply Htotal | by right | | done].
    split; [done | by intros ?].
Qed.

Lemma fixture_run :
  run Fixtures.to_datetime argsort_stable (Some Fixtures.posts) (Some Fixtures.subscribers)
  = Shown [] (analyse argsort_stable Fixtures.normalised_subscribers
                (Some Fixtures.normalised_posts)).
Proof. vm_compute. reflexivity. Qed.

Lemma run_shown_results_witness :
  total_subs (analyse argsort_stable Fixtures.normalised_subscribers
                (Some Fixtures.normalised_posts))
  = Z.of_nat (length (rows Fixtures.subscribers)).
Proof.
  apply (run_shown_results Fixtures.to_datetime argsort_stable Fixtures.posts
           Fixtures.subscribers [] _ argsort_stable_spec fixture_run).
Defined.

(** Drafts never reach the page: when the posts table has an
    [is_published] column, every post drawn on the chart and every catalyst
    listed for the spike carries the flag [True]. *)
Theorem run_shows_published_only (to_datetime : Cell → option Z)
    (argsort : list Z → list nat) (posts subs : DataFrame)
    (errs : list string) (r : Results) :
  argsort_spec argsort →
  "is_published"%string ∈ columns posts →
  run to_datetime argsort (Some posts) (Some subs) = Shown errs r →
  (∀ matches post m, posts_integrated r = Some matches → (post, m) ∈ matches →
     cells post !! "is_published"%string = Some (Bool true)) ∧
  (∀ window_start peak_date max_val found post,
     spike r = TopWindow window_start peak_date max_val (Found found) →
     post ∈ found →
     cells post !! "is_published"%string = Some (Bool true)).
Proof.
  intros Hspec Hflag (subs_df & Hsubs & Hcases)%run_Shown_inv.
  destruct Hcases as [(-> & posts_df & Hposts & ->)|(-> & Hout & ->)].
  - destruct (analyse_fields argsort subs_df (Some posts_df) Hspec)
      as (_ & Hspike & _ & Hint).
    pose proof (process_posts_published to_datetime argsort posts posts_df) as Hpub.
    split.
    + intros matches post m Hm Hin. rewrite Hint in Hm.
      rewrite (catalyst_overlay_daily_growth argsort Hspec) in Hm. simpl in Hm.
      destruct (relevant_posts _ _) as [|r0 rs] eqn:Hrel; [done|].
      injection Hm as <-.
      apply merge_asof_nearest_elem_of in Hin as [Hin _].
      rewrite (sort_values_elem_of argsort Hspec), <-Hrel in Hin.
      apply relevant_posts_elem_of in Hin as [Hin _]. by apply Hpub.
    + intros ws pk v found post Hrep Hin. rewrite Hspike in Hrep.
      apply spike_analysis_window in Hrep as [_ Hfound].
      unfold find_catalysts in Hfound.
      destruct (catalysts_in_window _ _ _) as [|c cs] eqn:Hcat; [done|].
      injection Hfound as ->. rewrite <-Hcat in Hin.
      apply list_elem_of_filter in Hin as [_ Hin]. by apply Hpub.
  - destruct (analyse_fields argsort subs_df None Hspec) as (_ & Hspike & _ & Hint).
    split.
    + intros matches post m Hm. by rewrite Hint in Hm.
    + intros ws pk v found post Hrep. rewrite Hspike in Hrep.
      by apply spike_analysis_window in Hrep as [_ ?].
Qed.

Lemma run_shows_published_only_witness :
  cells Fixtures.launch !! "is_published"%string = Some (Bool true).
Proof.
  assert (Hflag : "is_published"%string ∈ columns Fixtures.posts).
  { apply (bool_decide_unpack _). vm_compute. exact I. }
  eapply (proj1 (run_shows_published_only Fixtures.to_datetime argsort_stable
                   Fixtures.posts Fixtures.subscribers [] _ argsort_stable_spec
                   Hflag fixture_run)).
  - vm_compute. reflexivity.
  - left.
Defined.

End PageTheorems.
